(** * IWSDK knowledge-cache ingestion: a shallow embedding

    This development models the relationship-inference and cache-derivation
    passes of the ingestion script ([scripts/ingest-source.ts], concatenated in
    [scripts/fetch-docs.ts]) and the telemetry sink ([src/telemetry.ts]).

    Modelling conventions.
    - A JavaScript string is a sequence of UTF-16 code units.  The [string]
      that models it holds its UTF-8 encoding, a surrogate that stands alone
      being encoded in three bytes like any code point of its range; on ASCII
      text a byte is a code unit.  What the code measures with [.length] and
      cuts with [substring] is measured and cut in code units ([jsLength],
      [substringTo]); a file holds the text that was handed to the write.
      The case mappings [toUpperCase] and [toLowerCase] are modelled on ASCII
      letters only: the definitions that use them say so, and stand for the
      code on ASCII text.
    - A plain JavaScript object used as a record of own properties
      ([Record<string, T>], an object literal) is an insertion-ordered
      association list ([JsObj.t]): [Object.entries] enumerates it in list
      order and an assignment [o[k] = v] replaces the value in place or appends
      a new entry.  Property names are ordinary own-property names; the
      prototype chain and the integer-key enumeration rule are not modelled.
    - [number] values that the passes compute are quotients of small counters;
      they are modelled as rationals ([Q]), on which the comparisons the code
      performs ([> 0.5], [< 1.0], [> 0.1]) agree with their IEEE counterparts
      for counters below 2^52.
    - The TypeScript compiler API and the regular-expression engine are
      outside the program: a parsed file is given as a tree of [Node]s, and a
      regular-expression match by the captured text. *)

From Stdlib Require Import List String Ascii Bool Arith PeanoNat Lia ZArith QArith.
From Stdlib Require Import Sorted Permutation.
Import ListNotations.

Local Open Scope string_scope.
Local Open Scope nat_scope.
Local Open Scope list_scope.

Set Implicit Arguments.
Set Warnings "-register-all".

(** ** Insertion-ordered objects *)

Module JsObj.
Section Obj.
Variable V : Type.

Definition t := list (string * V).

(** [o[k]] *)
Fixpoint get (k : string) (o : t) : option V :=
  match o with
  | [] => None
  | (k', v) :: r => if String.eqb k k' then Some v else get k r
  end.

(** [o[k] = v] *)
Fixpoint set (k : string) (v : V) (o : t) : t :=
  match o with
  | [] => [(k, v)]
  | (k', v') :: r =>
      if String.eqb k k' then (k', v) :: r else (k', v') :: set k v r
  end.

(** [Object.keys(o)] *)
Definition keys (o : t) : list string := map fst o.

(** [Object.values(o)] *)
Definition values (o : t) : list V := map snd o.
End Obj.
End JsObj.

(** ** Arrays of strings *)

(** [arr.includes(x)] *)
Definition includes (arr : list string) (x : string) : bool :=
  existsb (String.eqb x) arr.

(** [[...new Set(arr)]]: a [Set] keeps its elements in first-insertion order. *)
Definition setAdd (s : list string) (x : string) : list string :=
  if includes s x then s else s ++ [x].

Definition setToArray (arr : list string) : list string :=
  fold_left setAdd arr [].

(** Reference description of deduplication: keep the first occurrence. *)
Fixpoint dedup (l : list string) : list string :=
  match l with
  | [] => []
  | x :: r => x :: filter (fun y => negb (String.eqb y x)) (dedup r)
  end.

(** [s.split(sep)] for a one-character separator. *)
Fixpoint split (sep : ascii) (s : string) : list string :=
  match s with
  | EmptyString => [EmptyString]
  | String c r =>
      if Ascii.eqb c sep then EmptyString :: split sep r
      else match split sep r with
           | [] => [String c EmptyString]
           | h :: t => String c h :: t
           end
  end.

(** White space, as [\s] and [trim] take it: the characters 9 to 13 and
    32 of one byte, U+00A0 of two bytes, and U+1680, U+2000 to U+200A,
    U+2028, U+2029, U+202F, U+205F, U+3000 and U+FEFF of three bytes. *)
Definition isWhitespace (c : ascii) : bool :=
  existsb (Ascii.eqb c) [" "; "009"; "010"; "011"; "012"; "013"]%char.

Definition isSpace2 (c c1 : ascii) : bool :=
  (nat_of_ascii c =? 194) && (nat_of_ascii c1 =? 160).

Definition isSpace3 (c c1 c2 : ascii) : bool :=
  let n := nat_of_ascii c in
  let n1 := nat_of_ascii c1 in
  let n2 := nat_of_ascii c2 in
  ((n =? 225) && (n1 =? 154) && (n2 =? 128))
  || ((n =? 226) && (n1 =? 128)
      && (((128 <=? n2) && (n2 <=? 138)) || (n2 =? 168) || (n2 =? 169) || (n2 =? 175)))
  || ((n =? 226) && (n1 =? 129) && (n2 =? 159))
  || ((n =? 227) && (n1 =? 128) && (n2 =? 128))
  || ((n =? 239) && (n1 =? 187) && (n2 =? 191)).

(** [s.trimStart()] *)
Fixpoint trimStart (s : string) : string :=
  match s with
  | String c r =>
      if isWhitespace c then trimStart r
      else
        match r with
        | String c1 r1 =>
            if isSpace2 c c1 then trimStart r1
            else
              match r1 with
              | String c2 r2 => if isSpace3 c c1 c2 then trimStart r2 else s
              | EmptyString => s
              end
        | EmptyString => s
        end
  | EmptyString => EmptyString
  end.

(** [s.trimEnd()]: the text up to the point from which only white space
    follows. *)
Fixpoint trimEnd (s : string) : string :=
  match s with
  | EmptyString => EmptyString
  | String c r =>
      match trimStart s with
      | EmptyString => EmptyString
      | _ => String c (trimEnd r)
      end
  end.

(** [s.trim()] *)
Definition trim (s : string) : string := trimEnd (trimStart s).

(** [arr.join(sep)] *)
Fixpoint join (sep : string) (arr : list string) : string :=
  match arr with
  | [] => EmptyString
  | [x] => x
  | x :: r => (x ++ sep ++ join sep r)%string
  end.

(** ** Text measured in code units *)

(** A byte [10xxxxxx] continues the code point begun before it. *)
Definition isContinuation (c : ascii) : bool :=
  (128 <=? nat_of_ascii c) && (nat_of_ascii c <? 192).

(** The UTF-16 code units of the code point that byte [c] begins: two for a
    code point beyond U+FFFF (lead byte [11110xxx]), one for any other, none
    for a byte that begins no code point. *)
Definition codeUnits (c : ascii) : nat :=
  if isContinuation c then 0 else if 240 <=? nat_of_ascii c then 2 else 1.

(** [s.length] *)
Fixpoint jsLength (s : string) : nat :=
  match s with
  | EmptyString => 0
  | String c r => codeUnits c + jsLength r
  end.

Definition byteAt (n : nat) (s : string) : nat :=
  match String.get n s with
  | Some c => nat_of_ascii c
  | None => 0
  end.

(** The first code unit (the high surrogate) of the code point beyond U+FFFF
    whose encoding begins with the bytes [b0 b1 b2], standing alone. *)
Definition highSurrogate (b0 b1 b2 : nat) : string :=
  let offset := (b0 mod 8) * 256 + (b1 mod 64) * 4 + (b2 mod 64) / 16 - 64 in
  String (ascii_of_nat 237)
    (String (ascii_of_nat (160 + (offset / 64) mod 16))
       (String (ascii_of_nat (128 + offset mod 64)) EmptyString)).

(** [s.substring(0, n)]: the first [n] code units of [s].  A cut between the
    two code units of a code point beyond U+FFFF keeps the first of them. *)
Fixpoint substringTo (n : nat) (s : string) : string :=
  match s with
  | EmptyString => EmptyString
  | String c r =>
      if isContinuation c then String c (substringTo n r)
      else if n =? 0 then EmptyString
      else if (codeUnits c =? 2) && (n =? 1)
           then highSurrogate (nat_of_ascii c) (byteAt 0 r) (byteAt 1 r)
           else String c (substringTo (n - codeUnits c) r)
  end.

(** ** Records of the cache *)

Module ComponentDefinition.
(** The descriptive fields [remarks], [category], [jsdocExamples], [fields],
    [usageExamples] and [keywords] play no part in the passes below and are
    left out. *)
Record t := mk {
  name : string;
  package : string;
  filePath : string;
  description : string;
  sourceCode : string;
  requires : list string;
  optionalWith : list string;
  usedBySystems : list string;
  coOccurrences : JsObj.t Q;
  importPath : string
}.

Definition setRequires (c : t) (r : list string) : t :=
  mk (name c) (package c) (filePath c) (description c) (sourceCode c)
     r (optionalWith c) (usedBySystems c) (coOccurrences c) (importPath c).

Definition setOptionalWith (c : t) (o : list string) : t :=
  mk (name c) (package c) (filePath c) (description c) (sourceCode c)
     (requires c) o (usedBySystems c) (coOccurrences c) (importPath c).

Definition setCoOccurrences (c : t) (o : JsObj.t Q) : t :=
  mk (name c) (package c) (filePath c) (description c) (sourceCode c)
     (requires c) (optionalWith c) (usedBySystems c) o (importPath c).

Definition setUsedBySystems (c : t) (s : list string) : t :=
  mk (name c) (package c) (filePath c) (description c) (sourceCode c)
     (requires c) (optionalWith c) s (coOccurrences c) (importPath c).
End ComponentDefinition.

Module SystemDefinition.
(** Of a system record the passes read the name and the queried components;
    [remarks], [category], [methods], [properties], [sourceCode],
    [importPath] and [keywords] are left out. *)
Record t := mk {
  name : string;
  package : string;
  filePath : string;
  description : string;
  queriesComponents : list string
}.
End SystemDefinition.

Module ExampleCode.
(** [description], [code], [tags] and [initPattern] are left out. *)
Record t := mk {
  title : string;
  filePath : string;
  category : string;
  componentsUsed : list string;
  systemsUsed : list string
}.
End ExampleCode.

Definition Components := JsObj.t ComponentDefinition.t.
Definition Systems := JsObj.t SystemDefinition.t.

(** ** Requires inference ([extractComponentRelationships]) *)

Definition knownRelationships : JsObj.t (list string) :=
  [ ("OneHandGrabbable", ["Interactable"]);
    ("TwoHandsGrabbable", ["Interactable"]);
    ("DistanceGrabbable", ["Interactable"]);
    ("PhysicsBody", ["PhysicsShape"]) ].

(** What the pass reads off a component's source file:
    [requiresMatch] is capture group 1 of the first match of
    [/\/\*\*[\s\S]*?@requires\s+([\w,\s]+)/] in the file ([None]: no match);
    [callMatches] lists, in visiting order, capture group 1 of
    [/(?:hasComponent|getComponent)\s*\(\s*entity\s*,\s*(\w+)/] for every call
    expression whose text matches. *)
Record SourceView := {
  requiresMatch : option string;
  callMatches : list string
}.

(** The checkout: [None] when [existsSync(filePath)] is false. *)
Definition Checkout := string -> option SourceView.

Definition tagNames (content : SourceView) : list string :=
  match requiresMatch content with
  | Some captured => map trim (split "," captured)
  | None => []
  end.

Definition visitCall (componentName : string) (reqs : list string) (m : string)
  : list string :=
  if String.eqb m componentName then reqs
  else if includes reqs m then reqs else reqs ++ [m].

(** One iteration of the loop over [Object.entries(components)]. *)
Definition relateComponent (repo : Checkout) (componentName : string)
    (component : ComponentDefinition.t) : ComponentDefinition.t :=
  let component1 :=
    match JsObj.get componentName knownRelationships with
    | Some known => ComponentDefinition.setRequires component known
    | None => component
    end in
  match repo (ComponentDefinition.filePath component1) with
  | None => component1
  | Some content =>
      let pushed := ComponentDefinition.requires component1 ++ tagNames content in
      let visited := fold_left (visitCall componentName) (callMatches content) pushed in
      ComponentDefinition.setRequires component1 (setToArray visited)
  end.

Definition extractComponentRelationships (repo : Checkout) (components : Components)
  : Components :=
  map (fun e => (fst e, relateComponent repo (fst e) (snd e))) components.

(** The names the three sources contribute, static table first. *)
Definition staticRequires (componentName : string) : list string :=
  match JsObj.get componentName knownRelationships with
  | Some known => known
  | None => []
  end.

Definition declaredRequires (repo : Checkout) (path : string) : list string :=
  match repo path with Some content => tagNames content | None => [] end.

Definition calledRequires (repo : Checkout) (componentName path : string)
  : list string :=
  match repo path with
  | Some content =>
      filter (fun m => negb (String.eqb m componentName)) (callMatches content)
  | None => []
  end.

(** ** Example harvesting ([extractImports], [parseExamples]) *)

Fixpoint stripPrefix (prefix s : string) : option string :=
  match prefix, s with
  | EmptyString, _ => Some s
  | String a p, String b r => if Ascii.eqb a b then stripPrefix p r else None
  | String _ _, EmptyString => None
  end.

(** [hay.includes(needle)] *)
Fixpoint contains (needle hay : string) : bool :=
  match stripPrefix needle hay with
  | Some _ => true
  | None => match hay with
            | String _ r => contains needle r
            | EmptyString => false
            end
  end.

(** [s.endsWith(suffix)] *)
Fixpoint endsWith (s suffix : string) : bool :=
  String.eqb s suffix
  || match s with
     | String _ r => endsWith r suffix
     | EmptyString => false
     end.

(** [\s+]: at least one white space, as many as there are. *)
Definition spaces (s : string) : option string :=
  let rest := trimStart s in
  if String.length rest <? String.length s then Some rest else None.

(** The longest prefix free of [stop] characters, and what follows it. *)
Fixpoint span (stop : ascii -> bool) (s : string) : string * string :=
  match s with
  | EmptyString => (EmptyString, EmptyString)
  | String c r =>
      if stop c then (EmptyString, s)
      else let (run, rest) := span stop r in (String c run, rest)
  end.

(** A negated class repeated at least once and followed by a character of
    the class, as in [[^}]+}]: the run cannot end anywhere else. *)
Definition runBefore (stop : ascii -> bool) (s : string) : option (string * string) :=
  match span stop s with
  | (String c run, String d rest) => Some (String c run, String d rest)
  | _ => None
  end.

Definition isQuote (c : ascii) : bool :=
  Ascii.eqb c (ascii_of_nat 39) || Ascii.eqb c (ascii_of_nat 34).

Definition quoteMark (s : string) : option string :=
  match s with
  | String c r => if isQuote c then Some r else None
  | EmptyString => None
  end.

Definition andThen (A B : Type) (m : option A) (k : A -> option B) : option B :=
  match m with Some a => k a | None => None end.

(** A match of the import pattern, [import], white space, a braced list,
    white space, [from], white space and a quoted module path starting with
    [@iwsdk/], at the start of [s]: capture group 1 and the text after the
    match. *)
Definition matchImport (s : string) : option (string * string) :=
  andThen (stripPrefix "import" s) (fun s1 =>
  andThen (spaces s1) (fun s2 =>
  andThen (stripPrefix "{" s2) (fun s3 =>
  andThen (runBefore (Ascii.eqb "}") s3) (fun captured =>
  andThen (stripPrefix "}" (snd captured)) (fun s4 =>
  andThen (spaces s4) (fun s5 =>
  andThen (stripPrefix "from" s5) (fun s6 =>
  andThen (spaces s6) (fun s7 =>
  andThen (quoteMark s7) (fun s8 =>
  andThen (stripPrefix "@iwsdk/" s8) (fun s9 =>
  andThen (runBefore isQuote s9) (fun path =>
  andThen (quoteMark (snd path)) (fun rest =>
  Some (fst captured, rest))))))))))))).

(** The loop over [importRegex.exec(code)]: the leftmost match from the
    current position, then on from the end of that match.  [skip] counts the
    characters of the last match still to pass. *)
Fixpoint importCaptures (code : string) (skip : nat) : list string :=
  match code with
  | EmptyString => []
  | String _ r =>
      match skip with
      | S k => importCaptures r k
      | 0 =>
          match matchImport code with
          | Some (captured, rest) =>
              captured
              :: importCaptures r (String.length code - String.length rest - 1)
          | None => importCaptures r 0
          end
      end
  end.

(** ['components' | 'systems'] *)
Inductive ImportKind := ComponentImports | SystemImports.

Definition isLowercase (c : ascii) : bool :=
  (97 <=? nat_of_ascii c) && (nat_of_ascii c <=? 122).

(** The test an imported item passes to be kept.  For components the last
    conjunct of the code is [item[0] === item[0].toUpperCase()]; it is
    modelled for items that begin with an ASCII character, where it says
    that the character is none of [a]-[z].  (An item that begins with a
    letter outside ASCII is kept here, whereas the code keeps it only if the
    letter has no upper-case form of its own.) *)
Definition keepsImport (kind : ImportKind) (item : string) : bool :=
  match kind with
  | SystemImports => endsWith item "System"
  | ComponentImports =>
      negb (endsWith item "System")
      && negb (match item with EmptyString => true | _ => false end)
      && match item with
         | String c _ => negb (isLowercase c)
         | EmptyString => false
         end
  end.

Definition importItems (captured : string) : list string :=
  filter (fun s => negb (match s with EmptyString => true | _ => false end))
    (map trim (split "," captured)).

Definition extractImports (code : string) (kind : ImportKind) : list string :=
  flat_map (fun captured => filter (keepsImport kind) (importItems captured))
    (importCaptures code 0).

(** [word.charAt(0).toUpperCase() + word.slice(1)], modelled for words that
    begin with an ASCII character: [a]-[z] become [A]-[Z] and any other
    first character stays.  (A first letter outside ASCII stays as well,
    whereas the code puts its upper-case form.) *)
Definition capitalize (word : string) : string :=
  match word with
  | String c r =>
      String (if isLowercase c then ascii_of_nat (nat_of_ascii c - 32) else c) r
  | EmptyString => EmptyString
  end.

Definition formatExampleTitle (dirName : string) : string :=
  join " " (map capitalize (split "-" dirName)).

Definition inferCategory (code : string) : string :=
  if contains "Interactable" code || contains "onClick" code then "interaction"
  else if contains "PhysicsSystem" code then "physics"
  else if contains "UIKitDocument" code then "ui"
  else if contains "LocomotionSystem" code then "locomotion"
  else "setup".

(** The record [parseExamples] pushes for the example directory [dirName]
    whose entry file [fileName] holds [code]. *)
Definition parseExample (dirName fileName code : string) : ExampleCode.t :=
  ExampleCode.mk (formatExampleTitle dirName)
    ("examples/" ++ dirName ++ "/src/" ++ fileName)%string
    (inferCategory code)
    (extractImports code ComponentImports)
    (extractImports code SystemImports).

(** ** Co-occurrence analysis ([analyzeComponentCoOccurrences]) *)

Definition Qlt_bool (x y : Q) : bool := negb (Qle_bool y x).

(** [count / total] for two counters, [total] positive. *)
Definition ratio (count total : nat) : Q :=
  Qred (Z.of_nat count # Pos.of_nat total).

Definition examplesWith (componentName : string) (examples : list ExampleCode.t)
  : list ExampleCode.t :=
  filter (fun ex => includes (ExampleCode.componentsUsed ex) componentName) examples.

(** [coOccurrences[otherComp] = (coOccurrences[otherComp] || 0) + 1] under the
    guard [otherComp !== component.name]. *)
Definition countOther (componentName : string) (counts : JsObj.t nat)
    (otherComp : string) : JsObj.t nat :=
  if String.eqb otherComp componentName then counts
  else
    let previous := match JsObj.get otherComp counts with
                    | Some n => n
                    | None => 0
                    end in
    JsObj.set otherComp (previous + 1) counts.

Definition countExample (componentName : string) (counts : JsObj.t nat)
    (example : ExampleCode.t) : JsObj.t nat :=
  fold_left (countOther componentName) (ExampleCode.componentsUsed example) counts.

Definition countCoOccurrences (componentName : string)
    (examplesWithComponent : list ExampleCode.t) : JsObj.t nat :=
  fold_left (countExample componentName) examplesWithComponent [].

Definition storeFrequencies (total : nat) (counts : JsObj.t nat)
    (target : JsObj.t Q) : JsObj.t Q :=
  fold_left (fun acc e => JsObj.set (fst e) (ratio (snd e) total) acc) counts target.

(** [freq > 0.5 && freq < 1.0] *)
Definition inOptionalBand (freq : Q) : bool :=
  Qlt_bool (1 # 2) freq && Qlt_bool freq 1.

Definition analyzeComponent (examples : list ExampleCode.t)
    (component : ComponentDefinition.t) : ComponentDefinition.t :=
  let examplesWithComponent := examplesWith (ComponentDefinition.name component) examples in
  match List.length examplesWithComponent with
  | 0 => component
  | total =>
      let counts :=
        countCoOccurrences (ComponentDefinition.name component) examplesWithComponent in
      let stored :=
        storeFrequencies total counts (ComponentDefinition.coOccurrences component) in
      let highFrequencyPairs :=
        map fst (filter (fun e => inOptionalBand (snd e)) stored) in
      ComponentDefinition.setOptionalWith
        (ComponentDefinition.setCoOccurrences component stored) highFrequencyPairs
  end.

Definition analyzeComponentCoOccurrences (components : Components)
    (examples : list ExampleCode.t) : Components :=
  map (fun e => (fst e, analyzeComponent examples (snd e))) components.

(** Counting vocabulary used to state what the stored values are. *)
Definition occurrences (x : string) (l : list string) : nat :=
  List.length (filter (String.eqb x) l).

(** Occurrences of [other] over the import lists of the given examples. *)
Definition occurrencesIn (other : string) (examples : list ExampleCode.t) : nat :=
  list_sum (map (fun ex => occurrences other (ExampleCode.componentsUsed ex)) examples).

(** Number of the given examples whose import list contains [other]. *)
Definition examplesContaining (other : string) (examples : list ExampleCode.t) : nat :=
  List.length (examplesWith other examples).

(** ** System cross-reference ([buildSystemComponentRelationships]) *)

Definition addSystem (systemName : string) (components : Components)
    (componentName : string) : Components :=
  match JsObj.get componentName components with
  | Some component =>
      if includes (ComponentDefinition.usedBySystems component) systemName
      then components
      else JsObj.set componentName
             (ComponentDefinition.setUsedBySystems component
                (ComponentDefinition.usedBySystems component ++ [systemName]))
             components
  | None => components
  end.

Definition buildSystemComponentRelationships (systems : Systems)
    (components : Components) : Components :=
  fold_left
    (fun acc system =>
       fold_left (addSystem (SystemDefinition.name system))
         (SystemDefinition.queriesComponents system) acc)
    (JsObj.values systems) components.

(** ** Typical composition mining ([extractTypicalCompositions]) *)

Module ComponentPattern.
Record t := mk {
  name : string;
  components : list string;
  frequency : Q;
  category : string
}.
End ComponentPattern.

(** A value of the [patterns] map. *)
Record PatternEntry := {
  entryComponents : list string;
  entryCount : nat;
  entryCategory : string
}.

(** [Array.prototype.sort()] without comparator orders strings by code unit. *)
Fixpoint insertString (x : string) (l : list string) : list string :=
  match l with
  | [] => [x]
  | y :: r => if String.leb x y then x :: l else y :: insertString x r
  end.

Definition sortStrings (l : list string) : list string :=
  fold_right insertString [] l.


Definition addExample (patterns : JsObj.t PatternEntry) (example : ExampleCode.t)
  : JsObj.t PatternEntry :=
  if List.length (ExampleCode.componentsUsed example) <? 2 then patterns
  else
    let sortedComps := sortStrings (ExampleCode.componentsUsed example) in
    let key := join "|" sortedComps in
    match JsObj.get key patterns with
    | Some pattern =>
        JsObj.set key
          {| entryComponents := entryComponents pattern;
             entryCount := S (entryCount pattern);
             entryCategory := entryCategory pattern |} patterns
    | None =>
        JsObj.set key
          {| entryComponents := sortedComps;
             entryCount := 1;
             entryCategory := ExampleCode.category example |} patterns
    end.

Definition collectPatterns (examples : list ExampleCode.t) : JsObj.t PatternEntry :=
  fold_left addExample examples [].

(** [key.replace(/\|/g, '+')] *)
Fixpoint replaceBars (s : string) : string :=
  match s with
  | EmptyString => EmptyString
  | String c r => String (if Ascii.eqb c "|" then "+"%char else c) (replaceBars r)
  end.

(** [pattern.count >= 2 || (pattern.count / totalExamples) > 0.1] *)
Definition isCommon (count totalExamples : nat) : bool :=
  (2 <=? count) || Qlt_bool (1 # 10) (ratio count totalExamples).

Definition toPattern (totalExamples : nat) (e : string * PatternEntry)
  : ComponentPattern.t :=
  ComponentPattern.mk (replaceBars (fst e)) (entryComponents (snd e))
    (ratio (entryCount (snd e)) totalExamples) (entryCategory (snd e)).

(** [arr.sort((a, b) => b.frequency - a.frequency)]; the sort is stable. *)
Fixpoint insertPattern (p : ComponentPattern.t) (l : list ComponentPattern.t)
  : list ComponentPattern.t :=
  match l with
  | [] => [p]
  | q :: r =>
      if Qle_bool (ComponentPattern.frequency q) (ComponentPattern.frequency p)
      then p :: l
      else q :: insertPattern p r
  end.

Definition sortByFrequency (l : list ComponentPattern.t) : list ComponentPattern.t :=
  fold_right insertPattern [] l.

Definition totalOf (examples : list ExampleCode.t) : nat :=
  match List.length examples with 0 => 1 | n => n end.

Definition extractTypicalCompositions (examples : list ExampleCode.t)
  : list ComponentPattern.t :=
  let patterns := collectPatterns examples in
  let totalExamples := totalOf examples in
  let commonPatterns :=
    map (toPattern totalExamples)
        (filter (fun e => isCommon (entryCount (snd e)) totalExamples) patterns) in
  sortByFrequency commonPatterns.





(** ** Derived constraints ([generateOrderingConstraints], [generateValidationRules]) *)

Module OrderingConstraint.
Record t := mk {
  before : string;
  after : string;
  reason : string
}.
End OrderingConstraint.

Definition generateOrderingConstraints (components : Components)
  : list OrderingConstraint.t :=
  flat_map
    (fun e =>
       map (fun required =>
              OrderingConstraint.mk (fst e) required
                (fst e ++ " requires " ++ required ++ " to be added first")%string)
           (ComponentDefinition.requires (snd e)))
    components.

(** ['error' | 'warning'] *)
Inductive Severity := error | warning.

Module ValidationRule.
Record t := mk {
  id : string;
  description : string;
  check : string;
  message : string;
  severity : Severity
}.
End ValidationRule.

Definition requiresRule (name : string) (component : ComponentDefinition.t)
  : ValidationRule.t :=
  ValidationRule.mk
    ("component-" ++ name ++ "-requires")%string
    ("Check if " ++ name ++ " has required components")%string
    ("entity has " ++ join ", " (ComponentDefinition.requires component)
       ++ " when using " ++ name)%string
    (name ++ " requires " ++ join ", " (ComponentDefinition.requires component)
       ++ " component(s)")%string
    error.

Definition systemRule (name : string) (component : ComponentDefinition.t)
  : ValidationRule.t :=
  ValidationRule.mk
    ("component-" ++ name ++ "-system")%string
    ("Check if " ++ name ++ " has required system")%string
    ("world has " ++ join " or " (ComponentDefinition.usedBySystems component)
       ++ " registered when using " ++ name)%string
    (name ++ " requires " ++ join " or " (ComponentDefinition.usedBySystems component)
       ++ " to be registered")%string
    warning.

Definition queriesRule (name : string) (system : SystemDefinition.t)
  : ValidationRule.t :=
  ValidationRule.mk
    ("system-" ++ name ++ "-components")%string
    ("Check if " ++ name ++ " has entities with required components")%string
    ("entities have " ++ join ", " (SystemDefinition.queriesComponents system)
       ++ " when using " ++ name)%string
    (name ++ " queries for " ++ join ", " (SystemDefinition.queriesComponents system)
       ++ " component(s)")%string
    warning.

Definition entityCreationRule : ValidationRule.t :=
  ValidationRule.mk
    "entity-creation"
    "Check entity creation method"
    "use createTransformEntity() for entities that need position/rotation"
    "Use createTransformEntity() instead of createEntity() for 3D positioned entities"
    warning.

Definition componentRules (e : string * ComponentDefinition.t) : list ValidationRule.t :=
  (if 0 <? List.length (ComponentDefinition.requires (snd e))
   then [requiresRule (fst e) (snd e)] else [])
  ++ (if 0 <? List.length (ComponentDefinition.usedBySystems (snd e))
      then [systemRule (fst e) (snd e)] else []).

Definition systemRules (e : string * SystemDefinition.t) : list ValidationRule.t :=
  if 0 <? List.length (SystemDefinition.queriesComponents (snd e))
  then [queriesRule (fst e) (snd e)] else [].

Definition generateValidationRules (components : Components) (systems : Systems)
  : list ValidationRule.t :=
  flat_map componentRules components
  ++ flat_map systemRules systems
  ++ [entityCreationRule].

(** ** Syntax trees handed over by the TypeScript parser *)

(** The part of [extractJSDoc]'s result that the component pass reads. *)
Record JSDoc := { docDescription : string }.

(** Node kinds the extraction passes test for; every other kind is an
    [OtherNode].  A [VariableStatement] carries the declarators of its
    declaration list; a [VariableDeclaration] its binding name and its
    initializer, if any.  Tokens, type annotations and property names hold no
    statement and no call and appear only through the text of their parent. *)
Inductive Node : Type :=
| VariableStatement (text : string) (doc : JSDoc) (declarations : list Node)
| VariableDeclaration (text : string) (name : Node) (initializer : option Node)
| CallExpression (text : string) (expression : Node) (arguments : list Node)
| ObjectLiteralExpression (text : string) (properties : list Node)
| PropertyAssignment (text : string) (name : string) (initializer : Node)
| ArrayLiteralExpression (text : string) (elements : list Node)
| OtherNode (text : string) (children : list Node).

(** [node.getText(sourceFile)] *)
Definition getText (node : Node) : string :=
  match node with
  | VariableStatement text _ _ => text
  | VariableDeclaration text _ _ => text
  | CallExpression text _ _ => text
  | ObjectLiteralExpression text _ => text
  | PropertyAssignment text _ _ => text
  | ArrayLiteralExpression text _ => text
  | OtherNode text _ => text
  end.

Definition doubleQuote : ascii := ascii_of_nat 34.
Definition singleQuote : ascii := ascii_of_nat 39.

(** [s.replace(...)] with the global pattern matching either quote character:
    every single or double quote is removed. *)
Fixpoint stripQuotes (s : string) : string :=
  match s with
  | EmptyString => EmptyString
  | String c r =>
      if Ascii.eqb c singleQuote || Ascii.eqb c doubleQuote
      then stripQuotes r else String c (stripQuotes r)
  end.

(** ** Component extraction ([extractComponentsFromAST]) *)

Definition isEmpty (s : string) : bool :=
  match s with EmptyString => true | _ => false end.

(** The record assigned to [components[componentName]]. *)
Definition componentRecord (packageName filePath : string) (doc : JSDoc)
    (declarationText : string) (callArguments : list Node)
  : option (string * ComponentDefinition.t) :=
  match callArguments with
  | nameArg :: _ :: rest =>
      let componentName := stripQuotes (getText nameArg) in
      let simpleDescription :=
        match rest with
        | descriptionArg :: _ => stripQuotes (getText descriptionArg)
        | [] => docDescription doc
        end in
      Some (componentName,
            ComponentDefinition.mk componentName packageName filePath
              simpleDescription declarationText [] [] [] []
              ("import { " ++ componentName ++ " } from '" ++ packageName ++ "';")%string)
  | _ => None
  end.

(** The detection rule: a declarator whose initializer is a call of
    [createComponent] with at least two arguments. *)
Definition isComponentDeclaration (declaration : Node) : bool :=
  match declaration with
  | VariableDeclaration _ _ (Some (CallExpression _ callee callArguments)) =>
      String.eqb (getText callee) "createComponent"
      && (2 <=? List.length callArguments)
  | _ => false
  end.

(** The test the visitor applies to a variable statement: it reads
    [node.declarationList.declarations[0]] and nothing else. *)
Definition declareFirst (packageName filePath : string) (doc : JSDoc)
    (declarations : list Node) (components : Components) : Components :=
  match declarations with
  | VariableDeclaration declarationText binding
      (Some (CallExpression callText callee callArguments)) :: _ =>
      if isComponentDeclaration
           (VariableDeclaration declarationText binding
              (Some (CallExpression callText callee callArguments)))
      then match componentRecord packageName filePath doc declarationText callArguments with
           | Some (componentName, record) => JsObj.set componentName record components
           | None => components
           end
      else components
  | _ => components
  end.

(** [visit]: the test on the node itself, then [ts.forEachChild(node, visit)]. *)
Fixpoint visit (packageName filePath : string) (node : Node)
    (components : Components) {struct node} : Components :=
  let visitAll :=
    fix visitAll (nodes : list Node) (acc : Components) : Components :=
      match nodes with
      | [] => acc
      | n :: r => visitAll r (visit packageName filePath n acc)
      end in
  match node with
  | VariableStatement _ doc declarations =>
      visitAll declarations
        (declareFirst packageName filePath doc declarations components)
  | VariableDeclaration _ binding initializer =>
      let named := visit packageName filePath binding components in
      match initializer with
      | Some value => visit packageName filePath value named
      | None => named
      end
  | CallExpression _ callee callArguments =>
      visitAll callArguments (visit packageName filePath callee components)
  | ObjectLiteralExpression _ properties => visitAll properties components
  | PropertyAssignment _ _ initializer =>
      visit packageName filePath initializer components
  | ArrayLiteralExpression _ elements => visitAll elements components
  | OtherNode _ children => visitAll children components
  end.

Definition extractComponentsFromAST (sourceFile : Node)
    (packageName filePath : string) : Components :=
  visit packageName filePath sourceFile [].

(** Whether a variable statement occurs in the tree. *)
Fixpoint hasVariableStatement (node : Node) : bool :=
  let anyOf :=
    fix anyOf (nodes : list Node) : bool :=
      match nodes with
      | [] => false
      | n :: r => hasVariableStatement n || anyOf r
      end in
  match node with
  | VariableStatement _ _ _ => true
  | VariableDeclaration _ binding initializer =>
      hasVariableStatement binding
      || match initializer with
         | Some value => hasVariableStatement value
         | None => false
         end
  | CallExpression _ callee callArguments =>
      hasVariableStatement callee || anyOf callArguments
  | ObjectLiteralExpression _ properties => anyOf properties
  | PropertyAssignment _ _ initializer => hasVariableStatement initializer
  | ArrayLiteralExpression _ elements => anyOf elements
  | OtherNode _ children => anyOf children
  end.

(** A declarator with no statement nested in it (no function body declaring
    variables inside its initializer). *)
Definition plainDeclaration (declaration : Node) : bool :=
  negb (hasVariableStatement declaration).

(** [Object.assign(target, source)] *)
Definition assign (V : Type) (target source : JsObj.t V) : JsObj.t V :=
  fold_left (fun acc e => JsObj.set (fst e) (snd e) acc) source target.

(** A parsed source file met by the directory walk, with the package name
    and the repository-relative path the walk passes along. *)
Record SourceUnit := {
  unitTree : Node;
  unitPackage : string;
  unitPath : string
}.

(** [parseComponents]: the files of the packages in walking order, each
    file's records assigned onto the shared map. *)
Definition parseComponents (units : list SourceUnit) : Components :=
  fold_left
    (fun components unit =>
       assign components
         (extractComponentsFromAST (unitTree unit) (unitPackage unit) (unitPath unit)))
    units [].

(** ** Queried components of a system class ([extractQueriedComponents]) *)

(** A class declaration: each heritage clause lists the [expression]s of its
    types; [None] when the class has no heritage clause. *)
Record ClassDeclaration := {
  className : option string;
  heritageClauses : option (list (list Node))
}.

(** [/^[A-Z]/.test(s)] *)
Definition startsUpper (s : string) : bool :=
  match s with
  | String c _ => (65 <=? nat_of_ascii c) && (nat_of_ascii c <=? 90)
  | EmptyString => false
  end.

Definition keepsName (componentName : string) : bool :=
  negb (isEmpty componentName) && startsUpper componentName.

Definition requiredOf (queryProp : Node) : list string :=
  match queryProp with
  | PropertyAssignment _ propName requiredValue =>
      if String.eqb propName "required" then
        match requiredValue with
        | ArrayLiteralExpression _ elements =>
            filter keepsName (map getText elements)
        | _ => []
        end
      else []
  | _ => []
  end.

Definition queryOf (prop : Node) : list string :=
  match prop with
  | PropertyAssignment _ _ (ObjectLiteralExpression _ queryProps) =>
      flat_map requiredOf queryProps
  | _ => []
  end.

Definition heritageOf (expr : Node) : list string :=
  match expr with
  | CallExpression _ callee callArguments =>
      if String.eqb (getText callee) "createSystem"
         && (0 <? List.length callArguments)
      then match callArguments with
           | ObjectLiteralExpression _ properties :: _ => flat_map queryOf properties
           | _ => []
           end
      else []
  | _ => []
  end.

Definition extractQueriedComponents (classNode : ClassDeclaration) : list string :=
  let components :=
    match heritageClauses classNode with
    | Some clauses => flat_map (flat_map heritageOf) clauses
    | None => []
    end in
  setToArray components.

(** [x] is the text of an element of the [required] array of a query of a
    [createSystem({...})] heritage call of the class. *)
Definition requiredElement (classNode : ClassDeclaration) (x : string) : Prop :=
  exists clauses clause callText callee objText properties others
         propText queryName queryText queryProps reqText arrText elements element,
    heritageClauses classNode = Some clauses
    /\ In clause clauses
    /\ In (CallExpression callText callee
             (ObjectLiteralExpression objText properties :: others)) clause
    /\ getText callee = "createSystem"
    /\ In (PropertyAssignment propText queryName
             (ObjectLiteralExpression queryText queryProps)) properties
    /\ In (PropertyAssignment reqText "required"
             (ArrayLiteralExpression arrText elements)) queryProps
    /\ In element elements
    /\ getText element = x.

(** ** Telemetry sink ([src/telemetry.ts]) *)

(** The characters of the text that [Number.prototype.toString] gives a
    finite number: digits, signs, the point and the exponent mark. *)
Inductive NumeralChar : Type :=
| Digit0 | Digit1 | Digit2 | Digit3 | Digit4
| Digit5 | Digit6 | Digit7 | Digit8 | Digit9
| MinusSign | PlusSign | DecimalPoint | ExponentMark.

Definition numeralChar (c : NumeralChar) : ascii :=
  match c with
  | Digit0 => "0" | Digit1 => "1" | Digit2 => "2" | Digit3 => "3" | Digit4 => "4"
  | Digit5 => "5" | Digit6 => "6" | Digit7 => "7" | Digit8 => "8" | Digit9 => "9"
  | MinusSign => "-" | PlusSign => "+" | DecimalPoint => "." | ExponentMark => "e"
  end%char.

Definition numeralText (numeral : list NumeralChar) : string :=
  fold_right (fun c text => String (numeralChar c) text) EmptyString numeral.

(** Values a parameter record can hold.  A finite number is given by the
    text [Number.prototype.toString] prints for it ([42], [0.5], [1e+21]),
    which is the text [JSON.stringify] writes; [JsNonFinite] stands for
    [NaN] and the two infinities, [JsBigInt] for the values
    [JSON.stringify] refuses. *)
Inductive JsValue : Type :=
| JsUndefined
| JsNull
| JsBool (b : bool)
| JsNumber (numeral : list NumeralChar)
| JsNonFinite
| JsString (s : string)
| JsBigInt (n : Z)
| JsArray (items : list JsValue)
| JsObject (props : list (string * JsValue)).

(** A call either returns or throws. *)
Inductive Outcome (A : Type) : Type :=
| Returned (a : A)
| Thrown (error : string).
Arguments Returned {A} a.
Arguments Thrown {A} error.

Definition backslash : ascii := ascii_of_nat 92.

Definition hexDigit (n : nat) : ascii :=
  if n <? 10 then ascii_of_nat (48 + n) else ascii_of_nat (87 + n).

(** The escape [JSON.stringify] writes for one character of a string. *)
Definition escapeChar (c : ascii) : string :=
  let n := nat_of_ascii c in
  if Ascii.eqb c doubleQuote then String backslash (String doubleQuote EmptyString)
  else if Ascii.eqb c backslash then String backslash (String backslash EmptyString)
  else if n =? 8 then String backslash "b"
  else if n =? 9 then String backslash "t"
  else if n =? 10 then String backslash "n"
  else if n =? 12 then String backslash "f"
  else if n =? 13 then String backslash "r"
  else if n <? 32 then
    String backslash
      (String "u" (String "0" (String "0"
         (String (hexDigit (n / 16)) (String (hexDigit (n mod 16)) EmptyString)))))
  else String c EmptyString.

(** A surrogate that stands alone: the three bytes [11101101 101xxxxx
    10xxxxxx]. *)
Definition isSurrogate (c c1 : ascii) : bool :=
  (nat_of_ascii c =? 237) && (160 <=? nat_of_ascii c1).

(** The escape [JSON.stringify] writes for a surrogate that stands alone,
    [\udxxx] with the code unit in lower-case hexadecimal digits. *)
Definition escapeSurrogate (c1 c2 : ascii) : string :=
  let unit := (nat_of_ascii c1 mod 64) * 64 + nat_of_ascii c2 mod 64 in
  String backslash
    (String "u" (String "d"
       (String (hexDigit (unit / 256))
          (String (hexDigit ((unit / 16) mod 16))
             (String (hexDigit (unit mod 16)) EmptyString))))).

Fixpoint escapeString (s : string) : string :=
  match s with
  | EmptyString => EmptyString
  | String c r =>
      match r with
      | String c1 (String c2 r2) =>
          if isSurrogate c c1 then (escapeSurrogate c1 c2 ++ escapeString r2)%string
          else (escapeChar c ++ escapeString r)%string
      | _ => (escapeChar c ++ escapeString r)%string
      end
  end.

Definition quoteJSON (s : string) : string :=
  String doubleQuote (escapeString s ++ String doubleQuote EmptyString)%string.

Fixpoint digitsOf (fuel n : nat) (acc : string) : string :=
  match fuel with
  | 0 => acc
  | S fuel' =>
      let acc' := String (ascii_of_nat (48 + n mod 10)) acc in
      if n / 10 =? 0 then acc' else digitsOf fuel' (n / 10) acc'
  end.

(** Decimal numeral of an integer, as a template literal prints a count or
    a length (a whole number below 2^53). *)
Definition numberToString (n : Z) : string :=
  let magnitude := Z.to_nat (Z.abs n) in
  let digits := digitsOf (S magnitude) magnitude EmptyString in
  if (n <? 0)%Z then String "-" digits else digits.

(** [JSON.stringify(value)]: [Returned None] is the result [undefined]. *)
Fixpoint stringify (value : JsValue) : Outcome (option string) :=
  match value with
  | JsUndefined => Returned None
  | JsNull => Returned (Some "null")
  | JsBool b => Returned (Some (if b then "true" else "false"))
  | JsNumber numeral => Returned (Some (numeralText numeral))
  | JsNonFinite => Returned (Some "null")
  | JsString s => Returned (Some (quoteJSON s))
  | JsBigInt _ => Thrown "TypeError: Do not know how to serialize a BigInt"
  | JsArray items =>
      let parts :=
        (fix elements (l : list JsValue) : Outcome (list string) :=
           match l with
           | [] => Returned []
           | x :: r =>
               match stringify x with
               | Thrown e => Thrown e
               | Returned item =>
                   match elements r with
                   | Thrown e => Thrown e
                   | Returned rest =>
                       Returned (match item with Some s => s | None => "null" end :: rest)
                   end
               end
           end) items in
      match parts with
      | Thrown e => Thrown e
      | Returned strs => Returned (Some ("[" ++ join "," strs ++ "]")%string)
      end
  | JsObject props =>
      let parts :=
        (fix members (l : list (string * JsValue)) : Outcome (list string) :=
           match l with
           | [] => Returned []
           | (k, x) :: r =>
               match stringify x with
               | Thrown e => Thrown e
               | Returned item =>
                   match members r with
                   | Thrown e => Thrown e
                   | Returned rest =>
                       Returned (match item with
                                 | Some s => (quoteJSON k ++ ":" ++ s)%string :: rest
                                 | None => rest
                                 end)
                   end
               end
           end) props in
      match parts with
      | Thrown e => Thrown e
      | Returned strs => Returned (Some ("{" ++ join "," strs ++ "}")%string)
      end
  end.

(** The value [sanitizeParams] stores for one entry: [value.length] and
    [value.substring(0, 500)] count code units. *)
Definition sanitizeValue (value : JsValue) : JsValue :=
  match value with
  | JsString s =>
      if 500 <? jsLength s
      then JsString (substringTo 500 s ++ "... (truncated)")%string
      else value
  | _ => value
  end.

Definition sanitizeParams (params : JsObj.t JsValue) : JsObj.t JsValue :=
  fold_left (fun sanitized e => JsObj.set (fst e) (sanitizeValue (snd e)) sanitized)
    params [].

(** The part of the environment the sink touches: whether the telemetry
    directory exists, whether [mkdir] and [appendFile] would fail, the text
    appended to [telemetry.jsonl] so far, the clock, and what [console.error]
    has printed. *)
Record World := {
  directoryExists : bool;
  mkdirFails : bool;
  appendFails : bool;
  telemetryFile : string;
  clock : string;
  errorLog : list string
}.

Definition IO (A : Type) : Type := World -> Outcome A * World.

Definition ret {A : Type} (a : A) : IO A := fun w => (Returned a, w).

Definition bind {A B : Type} (m : IO A) (k : A -> IO B) : IO B :=
  fun w =>
    match m w with
    | (Returned a, w') => k a w'
    | (Thrown e, w') => (Thrown e, w')
    end.

Definition throw {A : Type} (e : string) : IO A := fun w => (Thrown e, w).

(** [try { body } catch (error) { handler }] *)
Definition tryCatch {A : Type} (body : IO A) (handler : string -> IO A) : IO A :=
  fun w =>
    match body w with
    | (Returned a, w') => (Returned a, w')
    | (Thrown e, w') => handler e w'
    end.

Declare Scope io_scope.
Delimit Scope io_scope with io.
Notation "x <- m ;; k" := (bind m (fun x => k))
  (at level 61, m at next level, right associativity) : io_scope.
Notation "m ;;; k" := (bind m (fun _ => k))
  (at level 61, right associativity) : io_scope.

Definition existsSync : IO bool := fun w => (Returned (directoryExists w), w).

Definition mkdir : IO unit :=
  fun w =>
    if mkdirFails w then (Thrown "mkdir failed", w)
    else (Returned tt,
          {| directoryExists := true; mkdirFails := mkdirFails w;
             appendFails := appendFails w; telemetryFile := telemetryFile w;
             clock := clock w; errorLog := errorLog w |}).

Definition appendFile (data : string) : IO unit :=
  fun w =>
    if appendFails w then (Thrown "appendFile failed", w)
    else (Returned tt,
          {| directoryExists := directoryExists w; mkdirFails := mkdirFails w;
             appendFails := appendFails w;
             telemetryFile := (telemetryFile w ++ data)%string;
             clock := clock w; errorLog := errorLog w |}).

(** [new Date().toISOString()] *)
Definition toISOString : IO string := fun w => (Returned (clock w), w).

Definition consoleError (message error : string) : IO unit :=
  fun w =>
    (Returned tt,
     {| directoryExists := directoryExists w; mkdirFails := mkdirFails w;
        appendFails := appendFails w; telemetryFile := telemetryFile w;
        clock := clock w;
        errorLog := errorLog w ++ [(message ++ " " ++ error)%string] |}).

Definition jsonStringify (value : JsValue) : IO string :=
  match stringify value with
  | Returned (Some s) => ret s
  | Returned None => ret "undefined"
  | Thrown e => throw e
  end.

Definition newline : string := String (ascii_of_nat 10) EmptyString.

Definition telemetryEvent (timestamp toolName : string) (params : JsObj.t JsValue)
  : JsValue :=
  JsObject [ ("timestamp", JsString timestamp);
             ("tool", JsString toolName);
             ("params", JsObject (sanitizeParams params)) ].

(** The body of the [try] block of [logToolCall]. *)
Definition logBody (toolName : string) (params : JsObj.t JsValue) : IO unit :=
  (present <- existsSync ;;
   (if negb present then mkdir else ret tt) ;;;
   timestamp <- toISOString ;;
   line <- jsonStringify (telemetryEvent timestamp toolName params) ;;
   appendFile (line ++ newline)%string)%io.

Definition logToolCall (toolName : string) (params : JsObj.t JsValue) : IO unit :=
  tryCatch (logBody toolName params)
    (fun error => consoleError "Telemetry logging failed:" error).

(** No line break inside a string. *)
Fixpoint singleLine (s : string) : bool :=
  match s with
  | EmptyString => true
  | String c r => negb (nat_of_ascii c =? 10) && singleLine r
  end.

(** ** The component map of [generateCache] *)

(** [components] once [extractComponentRelationships] has run. *)
Definition relatedComponents (repo : Checkout) (units : list SourceUnit) : Components :=
  extractComponentRelationships repo (parseComponents units).

(** [components] as [generateCache] writes it to [components.json]: parsed,
    related, cross-referenced with the systems, analyzed against the
    examples. *)
Definition generateCacheComponents (repo : Checkout) (units : list SourceUnit)
    (systems : Systems) (examples : list ExampleCode.t) : Components :=
  analyzeComponentCoOccurrences
    (buildSystemComponentRelationships systems (relatedComponents repo units))
    examples.

(** ** Vocabulary of the statements *)

(** A record whose co-occurrence fields are as [extractComponentsFromAST]
    creates them. *)
Definition notAnalyzed (c : ComponentDefinition.t) : Prop :=
  ComponentDefinition.coOccurrences c = [] /\ ComponentDefinition.optionalWith c = [].

(** Records as [extractComponentsFromAST] creates them, each under its name. *)
Definition freshRecords (components : Components) : Prop :=
  forall k c,
    In (k, c) components ->
    ComponentDefinition.name c = k
    /\ ComponentDefinition.requires c = []
    /\ notAnalyzed c.

(** [count / total] as a quotient of rationals. *)
Definition quotient (count total : nat) : Q :=
  (inject_Z (Z.of_nat count) / inject_Z (Z.of_nat total))%Q.

(** The counter stored under [k], [0] when there is none. *)
Definition storedCount (k : string) (counts : JsObj.t nat) : nat :=
  match JsObj.get k counts with Some n => n | None => 0 end.






(** The constraint says that [Y] must be added before [X]. *)
Definition constrains (X Y : string) (k : OrderingConstraint.t) : bool :=
  String.eqb (OrderingConstraint.before k) X
  && String.eqb (OrderingConstraint.after k) Y.

Definition isError (r : ValidationRule.t) : bool :=
  match ValidationRule.severity r with error => true | warning => false end.

Definition requiresRuleId (name : string) : string :=
  ("component-" ++ name ++ "-requires")%string.

(** The rule is the [error] rule of the component called [name]. *)
Definition isRequiresRuleOf (name : string) (r : ValidationRule.t) : bool :=
  isError r && String.eqb (ValidationRule.id r) (requiresRuleId name).

(** The same node under another source text. *)
Definition withText (text' : string) (node : Node) : Node :=
  match node with
  | VariableStatement _ doc declarations => VariableStatement text' doc declarations
  | VariableDeclaration _ binding initializer =>
      VariableDeclaration text' binding initializer
  | CallExpression _ callee callArguments => CallExpression text' callee callArguments
  | ObjectLiteralExpression _ properties => ObjectLiteralExpression text' properties
  | PropertyAssignment _ name initializer => PropertyAssignment text' name initializer
  | ArrayLiteralExpression _ elements => ArrayLiteralExpression text' elements
  | OtherNode _ children => OtherNode text' children
  end.

(** The declarator with the called function spelled [calleeText]. *)
Definition calling (calleeText : string) (declaration : Node) : Node :=
  match declaration with
  | VariableDeclaration text binding (Some (CallExpression callText callee callArguments)) =>
      VariableDeclaration text binding
        (Some (CallExpression callText (withText calleeText callee) callArguments))
  | _ => declaration
  end.

(** The three members of a telemetry record, serialized. *)
Definition telemetryLine (timestamp toolName paramsJSON : string) : string :=
  ("{" ++ join ","
            [ (quoteJSON "timestamp" ++ ":" ++ quoteJSON timestamp)%string;
              (quoteJSON "tool" ++ ":" ++ quoteJSON toolName)%string;
              (quoteJSON "params" ++ ":" ++ paramsJSON)%string ]
       ++ "}")%string.

(** ** Induction over syntax trees and parameter values *)

Unset Implicit Arguments.

Section NodeInduction.
Variable P : Node -> Prop.

Definition onInitializer (initializer : option Node) : Prop :=
  match initializer with Some n => P n | None => True end.

Hypothesis HStatement :
  forall text doc declarations,
    Forall P declarations -> P (VariableStatement text doc declarations).
Hypothesis HDeclaration :
  forall text binding initializer,
    P binding -> onInitializer initializer ->
    P (VariableDeclaration text binding initializer).
Hypothesis HCall :
  forall text callee callArguments,
    P callee -> Forall P callArguments -> P (CallExpression text callee callArguments).
Hypothesis HObject :
  forall text properties, Forall P properties -> P (ObjectLiteralExpression text properties).
Hypothesis HProperty :
  forall text name initializer, P initializer -> P (PropertyAssignment text name initializer).
Hypothesis HArray :
  forall text elements, Forall P elements -> P (ArrayLiteralExpression text elements).
Hypothesis HOther :
  forall text children, Forall P children -> P (OtherNode text children).

Fixpoint Node_tree_ind (n : Node) : P n :=
  let all :=
    fix all (l : list Node) : Forall P l :=
      match l with
      | [] => Forall_nil P
      | x :: r => @Forall_cons _ P x r (Node_tree_ind x) (all r)
      end in
  match n with
  | VariableStatement text doc declarations =>
      HStatement text doc declarations (all declarations)
  | VariableDeclaration text binding initializer =>
      HDeclaration text binding initializer (Node_tree_ind binding)
        (match initializer as i return onInitializer i with
         | Some value => Node_tree_ind value
         | None => I
         end)
  | CallExpression text callee callArguments =>
      HCall text callee callArguments (Node_tree_ind callee) (all callArguments)
  | ObjectLiteralExpression text properties =>
      HObject text properties (all properties)
  | PropertyAssignment text name initializer =>
      HProperty text name initializer (Node_tree_ind initializer)
  | ArrayLiteralExpression text elements => HArray text elements (all elements)
  | OtherNode text children => HOther text children (all children)
  end.
End NodeInduction.

Section JsValueInduction.
Variable P : JsValue -> Prop.

Hypothesis HUndefined : P JsUndefined.
Hypothesis HNull : P JsNull.
Hypothesis HBool : forall b, P (JsBool b).
Hypothesis HNumber : forall numeral, P (JsNumber numeral).
Hypothesis HNonFinite : P JsNonFinite.
Hypothesis HString : forall s, P (JsString s).
Hypothesis HBigInt : forall n, P (JsBigInt n).
Hypothesis HArray : forall items, Forall P items -> P (JsArray items).
Hypothesis HObject :
  forall props, Forall (fun e => P (snd e)) props -> P (JsObject props).

Fixpoint JsValue_tree_ind (v : JsValue) : P v :=
  match v with
  | JsUndefined => HUndefined
  | JsNull => HNull
  | JsBool b => HBool b
  | JsNumber numeral => HNumber numeral
  | JsNonFinite => HNonFinite
  | JsString s => HString s
  | JsBigInt n => HBigInt n
  | JsArray items =>
      HArray items
        ((fix all (l : list JsValue) : Forall P l :=
            match l with
            | [] => Forall_nil P
            | x :: r => @Forall_cons _ P x r (JsValue_tree_ind x) (all r)
            end) items)
  | JsObject props =>
      HObject props
        ((fix all (l : list (string * JsValue)) : Forall (fun e => P (snd e)) l :=
            match l with
            | [] => Forall_nil (fun e => P (snd e))
            | (k, x) :: r =>
                @Forall_cons _ (fun e => P (snd e)) (k, x) r
                  (JsValue_tree_ind x) (all r)
            end) props)
  end.
End JsValueInduction.

(** ** Sample inputs *)

Definition example (componentsUsed : list string) : ExampleCode.t :=
  ExampleCode.mk "Sample" "examples/sample/src/index.ts" "setup" componentsUsed [].

Definition physicsExamples : list ExampleCode.t :=
  [ example ["PhysicsBody"; "PhysicsShape"];
    example ["PhysicsShape"; "PhysicsBody"];
    example ["PhysicsBody"; "PhysicsShape"];
    example ["PhysicsBody"] ].

(** An example whose entry file names [B] in two import statements, one of
    them commented out: the pattern is matched against the text. *)
Definition duplicatedCode : string :=
  ("import { A, B } from '@iwsdk/core';" ++ newline
     ++ "// import { B } from '@iwsdk/core';")%string.

Definition duplicatedImport : list ExampleCode.t :=
  [ parseExample "duplicated" "index.ts" duplicatedCode ].

Definition unevenImports : list ExampleCode.t :=
  [ parseExample "plain" "index.ts" "import { A, B } from '@iwsdk/core';";
    parseExample "duplicated" "index.ts" duplicatedCode ].

Definition sampleRepo : Checkout :=
  fun path =>
    if String.eqb path "packages/core/src/grab.ts"
    then Some {| requiresMatch := Some "Interactable, Transform ";
                 callMatches := ["Transform"; "OneHandGrabbable"; "GrabSource"] |}
    else None.

(** [export const <name> = createComponent('<name>', {});] *)
Definition componentStatement (name : string) : Node :=
  VariableStatement
    ("export const " ++ name ++ " = createComponent('" ++ name ++ "', {});")%string
    {| docDescription := "" |}
    [ VariableDeclaration (name ++ " = createComponent('" ++ name ++ "', {})")%string
        (OtherNode name [])
        (Some (CallExpression ("createComponent('" ++ name ++ "', {})")%string
                 (OtherNode "createComponent" [])
                 [ OtherNode ("'" ++ name ++ "'")%string [];
                   ObjectLiteralExpression "{}" [] ])) ].

(** A file of package core declaring the named components. *)
Definition sourceUnit (path : string) (names : list string) : SourceUnit :=
  {| unitTree := OtherNode path (map componentStatement names);
     unitPackage := "@iwsdk/core";
     unitPath := path |}.

Definition sampleUnits : list SourceUnit :=
  [ sourceUnit "packages/core/src/grab.ts" ["OneHandGrabbable"];
    sourceUnit "packages/core/src/physics.ts" ["PhysicsBody"; "PhysicsShape"];
    sourceUnit "packages/core/src/transform.ts" ["Transform"] ].

(** The record of [OneHandGrabbable] after relationship extraction over the
    sample checkout. *)
Definition grabbableRelated : ComponentDefinition.t :=
  ComponentDefinition.mk "OneHandGrabbable" "@iwsdk/core" "packages/core/src/grab.ts"
    "" "OneHandGrabbable = createComponent('OneHandGrabbable', {})"
    ["Interactable"; "Transform"; "GrabSource"] [] [] []
    "import { OneHandGrabbable } from '@iwsdk/core';".

(** A checkout whose file of [OneHandGrabbable] opens with the comment
    [/** ... @requires Hovered, Pressed] followed by a line break and the
    closing of the comment, and calls [hasComponent(entity, Pressed)],
    [getComponent(entity, OneHandGrabbable)] and
    [hasComponent(entity, GrabSource)]. *)
Definition taggedRepo : Checkout :=
  fun path =>
    if String.eqb path "packages/core/src/grab.ts"
    then Some {| requiresMatch := Some ("Hovered, Pressed" ++ newline ++ " ")%string;
                 callMatches := ["Pressed"; "OneHandGrabbable"; "GrabSource"] |}
    else None.


(** The record of [PhysicsBody] in the cache built from the sample checkout
    and the physics examples. *)
Definition physicsBodyAnalyzed : ComponentDefinition.t :=
  ComponentDefinition.mk "PhysicsBody" "@iwsdk/core" "packages/core/src/physics.ts"
    "" "PhysicsBody = createComponent('PhysicsBody', {})"
    ["PhysicsShape"] ["PhysicsShape"] [] [("PhysicsShape", 3 # 4)]
    "import { PhysicsBody } from '@iwsdk/core';".

(** [class FooSystem extends createSystem({ main: { required: [A, b] } })] *)
Definition fooSystem : ClassDeclaration :=
  {| className := Some "FooSystem";
     heritageClauses :=
       Some [[ CallExpression "createSystem({ main: { required: [A, b] } })"
                 (OtherNode "createSystem" [])
                 [ ObjectLiteralExpression "{ main: { required: [A, b] } }"
                     [ PropertyAssignment "main: { required: [A, b] }" "main"
                         (ObjectLiteralExpression "{ required: [A, b] }"
                            [ PropertyAssignment "required: [A, b]" "required"
                                (ArrayLiteralExpression "[A, b]"
                                   [ OtherNode "A" []; OtherNode "b" [] ]) ]) ] ] ]] |}.

(** [createComponent('Grabbed', {})] *)
Definition grabbedCall : Node :=
  CallExpression "createComponent('Grabbed', {})"
    (OtherNode "createComponent" [])
    [ OtherNode "'Grabbed'" []; ObjectLiteralExpression "{}" [] ].

(** [const limit = 3, Grabbed = createComponent('Grabbed', {});] *)
Definition limitDeclarator : Node :=
  VariableDeclaration "limit = 3" (OtherNode "limit" []) (Some (OtherNode "3" [])).

Definition grabbedDeclarator : Node :=
  VariableDeclaration "Grabbed = createComponent('Grabbed', {})"
    (OtherNode "Grabbed" []) (Some grabbedCall).

Definition secondDeclarator : Node :=
  VariableStatement "const limit = 3, Grabbed = createComponent('Grabbed', {});"
    {| docDescription := "" |}
    [ limitDeclarator; grabbedDeclarator ].

Definition quietWorld : World :=
  {| directoryExists := true; mkdirFails := false; appendFails := false;
     telemetryFile := ""; clock := "2025-11-15T21:18:25.883Z"; errorLog := [] |}.

Definition readOnlyWorld : World :=
  {| directoryExists := false; mkdirFails := true; appendFails := true;
     telemetryFile := ""; clock := "2025-11-15T21:18:25.883Z"; errorLog := [] |}.

Fixpoint replicate (n : nat) (c : ascii) : string :=
  match n with 0 => EmptyString | S m => String c (replicate m c) end.

(** [s.repeat(n)] *)
Fixpoint repeatText (n : nat) (s : string) : string :=
  match n with 0 => EmptyString | S m => (s ++ repeatText m s)%string end.

(** The letter e with an acute accent, U+00E9: two bytes, one code unit. *)
Definition eAcute : string :=
  String (ascii_of_nat 195) (String (ascii_of_nat 169) EmptyString).

(** The grinning face, U+1F600: four bytes, the two code units D83D DE00. *)
Definition grinningFace : string :=
  String (ascii_of_nat 240) (String (ascii_of_nat 159)
    (String (ascii_of_nat 152) (String (ascii_of_nat 128) EmptyString))).
(** * Further parts of the program *)

(** ** Text helpers *)

(** [s.toLowerCase()]; the model covers the letters of ASCII, every other
    character is kept. *)
Definition isUppercase (c : ascii) : bool :=
  (65 <=? nat_of_ascii c) && (nat_of_ascii c <=? 90).

Definition lowerChar (c : ascii) : ascii :=
  if isUppercase c then ascii_of_nat (nat_of_ascii c + 32) else c.

Fixpoint toLowerCase (s : string) : string :=
  match s with
  | EmptyString => EmptyString
  | String c r => String (lowerChar c) (toLowerCase r)
  end.

(** The class [\w] of a pattern. *)
Definition isWordChar (c : ascii) : bool :=
  isLowercase c || isUppercase c
  || ((48 <=? nat_of_ascii c) && (nat_of_ascii c <=? 57))
  || Ascii.eqb c "_".

(** The text a match covers, given what follows the match. *)
Definition matchedText (s rest : string) : string :=
  substring 0 (String.length s - String.length rest) s.

(** ** Example harvesting: tags, initialization pattern, directory walk *)

Definition inferTags (code : string) : list string :=
  (if contains "Interactable" code then ["interactable"] else [])
  ++ (if contains "Grabbable" code then ["grabbing"] else [])
  ++ (if contains "PhysicsBody" code then ["physics"] else [])
  ++ (if contains "UIKit" code then ["ui"] else [])
  ++ (if contains "LocomotionSystem" code then ["locomotion"] else [])
  ++ (if contains "AudioSystem" code then ["audio"] else []).

(** A match of the [World.create] pattern at the start of [s]: the name,
    optional white space, a parenthesis, everything up to the first closing
    parenthesis and, when it follows, optional white space and [.then].
    The result is the text after the match. *)
Definition matchWorldCreate (s : string) : option string :=
  andThen (stripPrefix "World.create" s) (fun s1 =>
  andThen (stripPrefix "(" (trimStart s1)) (fun s2 =>
  andThen (stripPrefix ")" (snd (span (Ascii.eqb ")") s2))) (fun s3 =>
  match stripPrefix ".then" (trimStart s3) with
  | Some s4 => Some s4
  | None => Some s3
  end))).

(** [code.match(worldCreateRegex)]: the leftmost match, [None] for [null]. *)
Fixpoint extractWorldCreate (code : string) : option string :=
  match matchWorldCreate code with
  | Some rest => Some (matchedText code rest)
  | None =>
      match code with
      | String _ r => extractWorldCreate r
      | EmptyString => None
      end
  end.

Module HarvestedExample.
(** An element of [examples.json], with every member of [ExampleCode]. *)
Record t := mk {
  title : string;
  filePath : string;
  description : string;
  code : string;
  category : string;
  tags : list string;
  componentsUsed : list string;
  systemsUsed : list string;
  initPattern : option string
}.
End HarvestedExample.

(** The members of a harvested example the analysis passes read. *)
Definition examplePart (ex : HarvestedExample.t) : ExampleCode.t :=
  ExampleCode.mk (HarvestedExample.title ex) (HarvestedExample.filePath ex)
    (HarvestedExample.category ex) (HarvestedExample.componentsUsed ex)
    (HarvestedExample.systemsUsed ex).

(** The object [parseExamples] pushes. *)
Definition harvestExample (dirName fileName code : string) : HarvestedExample.t :=
  HarvestedExample.mk
    (formatExampleTitle dirName)
    ("examples/" ++ dirName ++ "/src/" ++ fileName)%string
    ("Example: " ++ formatExampleTitle dirName)%string
    code
    (inferCategory code)
    (inferTags code)
    (extractImports code ComponentImports)
    (extractImports code SystemImports)
    (match extractWorldCreate code with
     | Some pattern => if isEmpty pattern then None else Some pattern
     | None => None
     end).

(** An entry of the [examples] directory: its name, whether it is a
    directory, and the files of its [src] directory by name ([None] when
    [src] does not exist). *)
Record ExampleEntry := {
  entryName : string;
  entryIsDirectory : bool;
  entrySources : option (JsObj.t string)
}.

Definition possibleFiles : list string :=
  ["index.js"; "index.ts"; "main.ts"; "main.js"].

(** The loop over [possibleFiles]: the first file that exists. *)
Fixpoint mainFileOf (candidates : list string) (sources : JsObj.t string)
  : option (string * string) :=
  match candidates with
  | [] => None
  | fileName :: r =>
      match JsObj.get fileName sources with
      | Some code => Some (fileName, code)
      | None => mainFileOf r sources
      end
  end.

(** One iteration of the loop over the directory entries. *)
Definition harvestEntry (dir : ExampleEntry) : list HarvestedExample.t :=
  if negb (entryIsDirectory dir) then []
  else match entrySources dir with
       | None => []
       | Some sources =>
           match mainFileOf possibleFiles sources with
           | None => []
           | Some (fileName, code) => [harvestExample (entryName dir) fileName code]
           end
       end.

(** [parseExamples]; [None] when the [examples] directory does not exist. *)
Definition parseExamples (examplesDir : option (list ExampleEntry))
  : list HarvestedExample.t :=
  match examplesDir with
  | None => []
  | Some dirs => flat_map harvestEntry dirs
  end.

(** ** Search keywords ([generateKeywords]) *)

(** [name.split(...)] with the pattern that matches, without consuming
    anything, in front of a capital letter: the string is cut before every
    capital letter but one at its very start. *)
Fixpoint splitBeforeUpper (s : string) : list string :=
  match s with
  | EmptyString => [EmptyString]
  | String c r =>
      if startsUpper r then String c EmptyString :: splitBeforeUpper r
      else match splitBeforeUpper r with
           | h :: t => String c h :: t
           | [] => [String c EmptyString]
           end
  end.

(** The maximal runs of word characters of [s], in order; [run] is the run
    being read. *)
Fixpoint wordRuns (s run : string) : list string :=
  match s with
  | EmptyString => if isEmpty run then [] else [run]
  | String c r =>
      if isWordChar c then wordRuns r (run ++ String c EmptyString)
      else (if isEmpty run then [] else [run]) ++ wordRuns r EmptyString
  end.

(** [s.match(...)] with the global pattern for a whole word of four or more
    word characters; the empty list stands for [null] too. *)
Definition longWords (s : string) : list string :=
  filter (fun w => 4 <=? String.length w) (wordRuns s EmptyString).

(** [generateKeywords(componentName, jsdoc)], with the two members of
    [jsdoc] that it reads. *)
Definition generateKeywords (componentName description : string)
    (category : option string) : list string :=
  let nameWords := map toLowerCase (splitBeforeUpper componentName) in
  let descWords :=
    if isEmpty description then []
    else firstn 5 (longWords (toLowerCase description)) in
  let categoryWords :=
    match category with
    | Some c => if isEmpty c then [] else [toLowerCase c]
    | None => []
    end in
  setToArray (nameWords ++ descWords ++ categoryWords).

(** ** Component fields ([parseComponentSchema]) *)

Module FieldDefinition.
(** A field of a component schema; the [description] read from the
    documentation comment of the property is left out. *)
Record t := mk {
  name : string;
  type : string;
  default : option string
}.
End FieldDefinition.

(** [s.replace(pattern, '')] with a string pattern: the first occurrence of
    the pattern is taken out. *)
Fixpoint removeFirst (pattern s : string) : string :=
  match stripPrefix pattern s with
  | Some rest => rest
  | None =>
      match s with
      | String c r => String c (removeFirst pattern r)
      | EmptyString => EmptyString
      end
  end.

(** One iteration of the loop over the properties of a field: [fieldType]
    and [defaultValue] before and after. *)
Definition readFieldProp (state : string * option string) (fieldProp : Node)
  : string * option string :=
  match fieldProp with
  | PropertyAssignment _ propName value =>
      if String.eqb propName "type"
      then (removeFirst "Types." (getText value), snd state)
      else if String.eqb propName "default"
      then (fst state, Some (getText value))
      else state
  | _ => state
  end.

(** What one property of the schema adds to [fields]. *)
Definition fieldOf (prop : Node) : list FieldDefinition.t :=
  match prop with
  | PropertyAssignment _ fieldName (ObjectLiteralExpression _ fieldProps) =>
      let state := fold_left readFieldProp fieldProps ("unknown", None) in
      [FieldDefinition.mk fieldName (fst state) (snd state)]
  | _ => []
  end.

Definition parseComponentSchema (node : Node) : list FieldDefinition.t :=
  match node with
  | ObjectLiteralExpression _ properties => flat_map fieldOf properties
  | _ => []
  end.

(** ** System extraction ([extractSystemsFromAST], [parseSystems]) *)

(** A source file as the system pass sees it: class declarations, each with
    its documentation comment, and whatever lies around and inside them. *)
Inductive ClassTree : Type :=
| ClassNode (classNode : ClassDeclaration) (doc : JSDoc) (children : list ClassTree)
| PlainNode (children : list ClassTree).

(** The record assigned to [systems[className]]. *)
Definition systemRecord (packageName filePath className : string) (doc : JSDoc)
    (classNode : ClassDeclaration) : SystemDefinition.t :=
  SystemDefinition.mk className packageName filePath (docDescription doc)
    (extractQueriedComponents classNode).

(** The test the visitor applies to a node that is a class declaration. *)
Definition declareSystem (packageName filePath : string)
    (classNode : ClassDeclaration) (doc : JSDoc) (systems : Systems) : Systems :=
  match className classNode with
  | Some name =>
      if endsWith name "System"
      then JsObj.set name (systemRecord packageName filePath name doc classNode) systems
      else systems
  | None => systems
  end.

(** [visit] of [extractSystemsFromAST]. *)
Fixpoint visitClasses (packageName filePath : string) (node : ClassTree)
    (systems : Systems) {struct node} : Systems :=
  let visitAll :=
    fix visitAll (nodes : list ClassTree) (acc : Systems) : Systems :=
      match nodes with
      | [] => acc
      | n :: r => visitAll r (visitClasses packageName filePath n acc)
      end in
  match node with
  | ClassNode classNode doc children =>
      visitAll children (declareSystem packageName filePath classNode doc systems)
  | PlainNode children => visitAll children systems
  end.

Definition extractSystemsFromAST (sourceFile : ClassTree)
    (packageName filePath : string) : Systems :=
  visitClasses packageName filePath sourceFile [].

Record SystemUnit := {
  systemTree : ClassTree;
  systemPackage : string;
  systemPath : string
}.

(** [parseSystems] over the files of the packages in walking order. *)
Definition parseSystems (units : list SystemUnit) : Systems :=
  fold_left
    (fun systems unit =>
       assign systems
         (extractSystemsFromAST (systemTree unit) (systemPackage unit) (systemPath unit)))
    units [].

(** ** What [generateCache] derives and writes *)

(** ['REQUIRES'] and ['QUERIES'] *)
Inductive RelationType := REQUIRES | QUERIES.

Module Relationship.
Record t := mk {
  from : string;
  to : string;
  type : RelationType
}.
End Relationship.

Definition componentRequiresOf (components : Components) : list Relationship.t :=
  flat_map
    (fun component =>
       map (fun required =>
              Relationship.mk (ComponentDefinition.name component) required REQUIRES)
           (ComponentDefinition.requires component))
    (JsObj.values components).

Definition systemQueriesOf (systems : Systems) : list Relationship.t :=
  flat_map
    (fun system =>
       map (fun componentName =>
              Relationship.mk (SystemDefinition.name system) componentName QUERIES)
           (SystemDefinition.queriesComponents system))
    (JsObj.values systems).

(** A value of [exports.json]; the list of type names is left out. *)
Record PackageExports := {
  exportedClasses : list string;
  exportedFunctions : list string;
  exportedComponents : list string;
  exportedSystems : list string
}.

Definition packageExportsOf (components : Components) (systems : Systems)
  : JsObj.t PackageExports :=
  [ ("@iwsdk/core",
     {| exportedClasses := JsObj.keys systems;
        exportedFunctions := ["createComponent"; "createSystem"];
        exportedComponents := JsObj.keys components;
        exportedSystems := JsObj.keys systems |}) ].

(** The cache as the loader puts it together again from the files; type
    definitions, metadata and the hand-written guides are left out. *)
Record EnhancedCacheData := {
  cacheComponents : Components;
  cacheSystems : Systems;
  cacheExamples : list HarvestedExample.t;
  componentRequires : list Relationship.t;
  systemQueries : list Relationship.t;
  typicalCompositions : list ComponentPattern.t;
  ordering : list OrderingConstraint.t;
  validation : list ValidationRule.t;
  packageExports : JsObj.t PackageExports
}.

(** [generateCache]: the passes in the order of the source, over the files
    of the checkout. *)
Definition generateCache (repo : Checkout) (units : list SourceUnit)
    (systemUnits : list SystemUnit) (examplesDir : option (list ExampleEntry))
  : EnhancedCacheData :=
  let systems := parseSystems systemUnits in
  let examples := parseExamples examplesDir in
  let components :=
    generateCacheComponents repo units systems (map examplePart examples) in
  {| cacheComponents := components;
     cacheSystems := systems;
     cacheExamples := examples;
     componentRequires := componentRequiresOf components;
     systemQueries := systemQueriesOf systems;
     typicalCompositions := extractTypicalCompositions (map examplePart examples);
     ordering := generateOrderingConstraints components;
     validation := generateValidationRules components systems;
     packageExports := packageExportsOf components systems |}.

(** ** Serving the cache ([cache-loader]) *)

(** The loader's accessors read the object [loadEnhancedCache] returns; it
    is the parameter [cache] below.  Reading the files back is taken to
    return what [generateCache] wrote. *)

Module CodeExample.
Record t := mk {
  title : string;
  description : string;
  code : string;
  category : string;
  tags : list string
}.
End CodeExample.

(** [codeExamples] of [loadCache] *)
Definition codeExamplesOf (enhanced : EnhancedCacheData) : list CodeExample.t :=
  map (fun ex =>
         CodeExample.mk (HarvestedExample.title ex) (HarvestedExample.description ex)
           (HarvestedExample.code ex) (HarvestedExample.category ex)
           (HarvestedExample.tags ex))
      (cacheExamples enhanced).

Definition getAllCodeExamples (cache : EnhancedCacheData) : list CodeExample.t :=
  codeExamplesOf cache.





Definition getComponent (cache : EnhancedCacheData) (name : string)
  : option ComponentDefinition.t :=
  JsObj.get name (cacheComponents cache).

Definition getAllComponents (cache : EnhancedCacheData) : list ComponentDefinition.t :=
  JsObj.values (cacheComponents cache).

Definition getValidationRules (cache : EnhancedCacheData)
    (componentOrSystem : option string) : list ValidationRule.t :=
  match componentOrSystem with
  | None => validation cache
  | Some q =>
      if isEmpty q then validation cache
      else filter (fun rule =>
                     contains q (ValidationRule.id rule)
                     || contains q (ValidationRule.description rule)
                     || contains q (ValidationRule.check rule))
             (validation cache)
  end.

Definition getOrderingConstraints (cache : EnhancedCacheData)
    (component : option string) : list OrderingConstraint.t :=
  match component with
  | None => ordering cache
  | Some name =>
      if isEmpty name then ordering cache
      else filter (fun c =>
                     String.eqb (OrderingConstraint.before c) name
                     || String.eqb (OrderingConstraint.after c) name)
             (ordering cache)
  end.

Definition getComponentRequirements (cache : EnhancedCacheData)
    (componentName : string) : list string :=
  match JsObj.get componentName (cacheComponents cache) with
  | Some component => ComponentDefinition.requires component
  | None => []
  end.

Definition getSystemComponents (cache : EnhancedCacheData)
    (systemName : string) : list string :=
  match JsObj.get systemName (cacheSystems cache) with
  | Some system => SystemDefinition.queriesComponents system
  | None => []
  end.

(** ** Tools over the cache *)

Definition quoted (s : string) : string :=
  String doubleQuote (s ++ String doubleQuote EmptyString).

(** The digits a template literal prints for a count or a length. *)
Definition decimal (n : nat) : string := numberToString (Z.of_nat n).

(** *** [checkComponentOrder] *)

Definition mustAddBefore (constraints : list OrderingConstraint.t)
    (componentName : string) : list OrderingConstraint.t :=
  filter (fun c => String.eqb (OrderingConstraint.before c) componentName) constraints.

Definition mustAddAfter (constraints : list OrderingConstraint.t)
    (componentName : string) : list OrderingConstraint.t :=
  filter (fun c => String.eqb (OrderingConstraint.after c) componentName) constraints.

(** The components of the [addComponent] lines of the example, in order. *)
Definition correctOrder (constraints : list OrderingConstraint.t)
    (componentName : string) : list string :=
  map OrderingConstraint.after (mustAddBefore constraints componentName)
  ++ [componentName]
  ++ map OrderingConstraint.before (mustAddAfter constraints componentName).

Definition orderSection (heading : string) (names : OrderingConstraint.t -> string)
    (constraints : list OrderingConstraint.t) : string :=
  if 0 <? List.length constraints
  then (heading ++ newline ++ newline
        ++ String.concat ""
             (map (fun c => "- **" ++ names c ++ "**" ++ newline
                            ++ "  - Reason: " ++ OrderingConstraint.reason c
                            ++ newline ++ newline)
                  constraints))%string
  else EmptyString.

(** The text of the answer of [checkComponentOrder]. *)
Definition checkComponentOrder (cache : EnhancedCacheData) (componentName : string)
  : string :=
  let constraints := getOrderingConstraints cache (Some componentName) in
  match constraints with
  | [] =>
      ("No ordering constraints found for " ++ quoted componentName ++ "."
       ++ newline ++ newline
       ++ "This component has no specific ordering requirements.")%string
  | _ =>
      trim
        ("# Component Ordering for " ++ componentName ++ newline ++ newline
         ++ orderSection
              ("## Must Add These Components BEFORE " ++ componentName ++ ":")
              OrderingConstraint.after (mustAddBefore constraints componentName)
         ++ orderSection
              ("## These Components Must Be Added AFTER " ++ componentName ++ ":")
              OrderingConstraint.before (mustAddAfter constraints componentName)
         ++ "## Correct Order Example" ++ newline ++ newline
         ++ "```typescript" ++ newline
         ++ String.concat ""
              (map (fun n => "entity.addComponent(" ++ n ++ ");" ++ newline)
                   (correctOrder constraints componentName))
         ++ "```" ++ newline)%string
  end.

(** *** [validateCode] *)

(** A match of the rule-id pattern, [component-], a run of word characters
    and [-requires], at the start of [s]: capture group 1. *)
Definition matchRequiresId (s : string) : option string :=
  andThen (stripPrefix "component-" s) (fun s1 =>
  andThen (runBefore (fun c => negb (isWordChar c)) s1) (fun captured =>
  andThen (stripPrefix "-requires" (snd captured)) (fun _ =>
  Some (fst captured)))).

(** [rule.id.match(...)]: the leftmost match. *)
Fixpoint componentMatch (id : string) : option string :=
  match matchRequiresId id with
  | Some componentName => Some componentName
  | None =>
      match id with
      | String _ r => componentMatch r
      | EmptyString => None
      end
  end.

(** What the fixed checks push to [issues]. *)
Definition fixedIssues (code : string) : list string :=
  (if contains "world.createEntity()" code && contains ".object3D" code
   then ["Using createEntity() but accessing object3D - use createTransformEntity() instead"]
   else [])
  ++ (if contains "PhysicsBody" code && negb (contains "PhysicsShape" code)
      then ["PhysicsBody without PhysicsShape - both are required for physics"]
      else [])
  ++ (if contains "PhysicsSystem" code && negb (contains "registerSystem" code)
      then ["Using physics components but PhysicsSystem not registered"]
      else [])
  ++ (if contains "UIKitDocument" code && negb (contains "PanelUISystem" code)
      then ["Using UIKitDocument but PanelUISystem not registered"]
      else [])
  ++ (if contains "new THREE.Mesh" code && negb (contains "object3D!.add" code)
      then ["Created THREE.Mesh but not added to entity or scene"]
      else []).

(** What the fixed checks push to [suggestions]. *)
Definition fixedSuggestions (code : string) : list string :=
  (if contains "world.createEntity()" code && contains ".object3D" code
   then ["Change world.createEntity() to world.createTransformEntity()"]
   else [])
  ++ (if contains "addComponent(Interactable)" code
         && negb (contains "onClick" code)
         && negb (contains "onHover" code)
         && negb (contains "OneHandGrabbable" code)
         && negb (contains "TwoHandsGrabbable" code)
      then ["Interactable component added but no event handlers or grabbing. Add onClick/onHoverEnter handlers or grabbing components."]
      else [])
  ++ (if contains "PhysicsBody" code && negb (contains "PhysicsShape" code)
      then ["Add PhysicsShape component with appropriate shape (box, sphere, capsule)"]
      else [])
  ++ (if contains "PhysicsSystem" code && negb (contains "registerSystem" code)
      then ["Add: world.registerSystem(PhysicsSystem);"]
      else [])
  ++ (if contains "UIKitDocument" code && negb (contains "PanelUISystem" code)
      then ["Add: world.registerSystem(PanelUISystem);"]
      else [])
  ++ (if contains "LocomotionSystem" code
         && negb (contains "enableLocomotion" code)
         && negb (contains "registerSystem(LocomotionSystem" code)
      then ["Consider using features.enableLocomotion: true in World.create() for simpler setup"]
      else [])
  ++ (if contains "new THREE.Mesh" code && negb (contains "object3D!.add" code)
      then ["Add mesh to entity: entity.object3D!.add(mesh);"]
      else []).

(** The requirements of the component a rule names that [code] lacks;
    empty when the rule id does not match or [code] does not name the
    component. *)
Definition missingRequirements (cache : EnhancedCacheData) (code : string)
    (rule : ValidationRule.t) : list string :=
  match componentMatch (ValidationRule.id rule) with
  | Some componentName =>
      if contains componentName code
      then filter (fun req => negb (contains req code))
             (getComponentRequirements cache componentName)
      else []
  | None => []
  end.

Definition ruleIssues (cache : EnhancedCacheData) (code : string)
    (rule : ValidationRule.t) : list string :=
  match ValidationRule.severity rule with
  | error =>
      map (fun req => (ValidationRule.message rule ++ " - Missing " ++ req)%string)
        (missingRequirements cache code rule)
  | warning => []
  end.

Definition ruleSuggestions (cache : EnhancedCacheData) (code : string)
    (rule : ValidationRule.t) : list string :=
  match ValidationRule.severity rule with
  | error => []
  | warning =>
      map (fun _ => ValidationRule.message rule) (missingRequirements cache code rule)
  end.

(** The array [issues] when the loop over the rules has ended. *)
Definition issuesOf (cache : EnhancedCacheData) (code : string) : list string :=
  fixedIssues code
  ++ flat_map (ruleIssues cache code) (getValidationRules cache None).

(** The array [suggestions] when the loop over the rules has ended. *)
Definition suggestionsOf (cache : EnhancedCacheData) (code : string) : list string :=
  fixedSuggestions code
  ++ flat_map (ruleSuggestions cache code) (getValidationRules cache None).

(** Lines [1. ...], [2. ...] of a numbered list, [i] the number of the first. *)
Fixpoint numbered (i : nat) (items : list string) : string :=
  match items with
  | [] => EmptyString
  | item :: r => (decimal i ++ ". " ++ item ++ newline ++ numbered (S i) r)%string
  end.

(** The text of the answer of [validateCode]. *)
Definition validateCode (cache : EnhancedCacheData) (code : string) : string :=
  let issues := issuesOf cache code in
  let suggestions := suggestionsOf cache code in
  ("# Code Validation Results" ++ newline ++ newline
   ++ if ((List.length issues =? 0) && (List.length suggestions =? 0))%nat
      then "**No issues found!** The code looks good." ++ newline ++ newline
           ++ "The code follows IWSDK best practices and should work correctly."
           ++ newline
      else (if (0 <? List.length issues)%nat
            then "## Issues Found" ++ newline ++ newline
                 ++ numbered 1 issues ++ newline
            else EmptyString)
           ++ (if (0 <? List.length suggestions)%nat
               then "## Suggestions" ++ newline ++ newline
                    ++ numbered 1 suggestions ++ newline
               else EmptyString))%string.

(** *** [findSimilarCode] *)

Definition scoreOf (lower : string) (example : CodeExample.t) : nat :=
  (if contains lower (toLowerCase (CodeExample.title example)) then 10 else 0)
  + (if contains lower (toLowerCase (CodeExample.description example)) then 5 else 0)
  + fold_left (fun score tag => if contains (toLowerCase tag) lower then score + 3 else score)
      (CodeExample.tags example) 0
  + (if contains lower (toLowerCase (CodeExample.code example)) then 2 else 0).

(** [arr.sort((a, b) => b.score - a.score)]; the sort is stable. *)
Fixpoint insertScored (item : CodeExample.t * nat) (l : list (CodeExample.t * nat))
  : list (CodeExample.t * nat) :=
  match l with
  | [] => [item]
  | other :: r =>
      if snd other <=? snd item then item :: l else other :: insertScored item r
  end.

Definition sortByScore (l : list (CodeExample.t * nat)) : list (CodeExample.t * nat) :=
  fold_right insertScored [] l.

(** [topExamples] of [findSimilarCode]. *)
Definition topExamples (cache : EnhancedCacheData) (description : string)
  : list (CodeExample.t * nat) :=
  let lower := toLowerCase description in
  let scored := map (fun example => (example, scoreOf lower example))
                    (getAllCodeExamples cache) in
  firstn 3 (sortByScore (filter (fun item => 0 <? snd item) scored)).

(** ** The statements and classes of a syntax tree, in visiting order *)

(** The variable statements of a tree, each with its documentation comment
    and its declarators: the node itself first, then those of its children
    from left to right. *)
Fixpoint statementsOf (node : Node) : list (JSDoc * list Node) :=
  let allOf :=
    fix allOf (nodes : list Node) : list (JSDoc * list Node) :=
      match nodes with
      | [] => []
      | n :: r => statementsOf n ++ allOf r
      end in
  match node with
  | VariableStatement _ doc declarations => (doc, declarations) :: allOf declarations
  | VariableDeclaration _ binding initializer =>
      statementsOf binding
      ++ match initializer with
         | Some value => statementsOf value
         | None => []
         end
  | CallExpression _ callee callArguments => statementsOf callee ++ allOf callArguments
  | ObjectLiteralExpression _ properties => allOf properties
  | PropertyAssignment _ _ initializer => statementsOf initializer
  | ArrayLiteralExpression _ elements => allOf elements
  | OtherNode _ children => allOf children
  end.

(** What the component visitor does at one variable statement. *)
Definition declareStatement (packageName filePath : string) (components : Components)
    (statement : JSDoc * list Node) : Components :=
  declareFirst packageName filePath (fst statement) (snd statement) components.

(** The class declarations of a tree with their documentation comments. *)
Fixpoint classesOf (node : ClassTree) : list (ClassDeclaration * JSDoc) :=
  let allOf :=
    fix allOf (nodes : list ClassTree) : list (ClassDeclaration * JSDoc) :=
      match nodes with
      | [] => []
      | n :: r => classesOf n ++ allOf r
      end in
  match node with
  | ClassNode classNode doc children => (classNode, doc) :: allOf children
  | PlainNode children => allOf children
  end.

(** What the system visitor does at one class declaration. *)
Definition declareClass (packageName filePath : string) (systems : Systems)
    (class : ClassDeclaration * JSDoc) : Systems :=
  declareSystem packageName filePath (fst class) (snd class) systems.

Section ClassTreeInduction.
Variable P : ClassTree -> Prop.

Hypothesis HClass :
  forall classNode doc children, Forall P children -> P (ClassNode classNode doc children).
Hypothesis HPlain :
  forall children, Forall P children -> P (PlainNode children).

Fixpoint ClassTree_tree_ind (n : ClassTree) : P n :=
  let all :=
    fix all (l : list ClassTree) : Forall P l :=
      match l with
      | [] => Forall_nil P
      | x :: r => @Forall_cons _ P x r (ClassTree_tree_ind x) (all r)
      end in
  match n with
  | ClassNode classNode doc children => HClass classNode doc children (all children)
  | PlainNode children => HPlain children (all children)
  end.
End ClassTreeInduction.

(** The statement is a component declaration making the record [record]
    under the key [key]: its first declarator is initialized by a call of
    [createComponent] with at least two arguments. *)
Definition declaresComponent (packageName filePath : string)
    (statement : JSDoc * list Node) (key : string) (record : ComponentDefinition.t)
  : Prop :=
  exists text binding callText callee callArguments rest,
    snd statement
    = VariableDeclaration text binding (Some (CallExpression callText callee callArguments))
      :: rest
    /\ getText callee = "createComponent"
    /\ componentRecord packageName filePath (fst statement) text callArguments
       = Some (key, record).

(** The class declaration is a system class named [key]. *)
Definition declaresSystem (class : ClassDeclaration * JSDoc) (key : string) : Prop :=
  className (fst class) = Some key /\ endsWith key "System" = true.

(** ** The documentation fetcher (the first script of [fetch-docs.ts]) *)

(** What [execAsync] resolves to: the two outputs of the command, as text. *)
Record ExecResult := {
  stdout : string;
  stderr : string
}.

(** The part of the environment the fetcher touches: what running a
    command gives, whether writing a file of [cache/docs] fails, the path
    of that directory, whether it exists and can be made, its files by name,
    the clock and what [console.log] has printed. *)
Record FetchWorld := {
  execAsync : string -> Outcome ExecResult;
  writeFileFails : string -> bool;
  docsDirPath : string;
  docsDirExists : bool;
  docsMkdirFails : bool;
  docsFiles : JsObj.t string;
  fetchClock : string;
  consoleLog : list string
}.

Definition Fetch (A : Type) : Type := FetchWorld -> Outcome A * FetchWorld.

Definition fetchRet {A : Type} (a : A) : Fetch A := fun w => (Returned a, w).

Definition fetchBind {A B : Type} (m : Fetch A) (k : A -> Fetch B) : Fetch B :=
  fun w =>
    match m w with
    | (Returned a, w') => k a w'
    | (Thrown e, w') => (Thrown e, w')
    end.

Definition fetchTry {A : Type} (body : Fetch A) (handler : string -> Fetch A) : Fetch A :=
  fun w =>
    match body w with
    | (Returned a, w') => (Returned a, w')
    | (Thrown e, w') => handler e w'
    end.

Declare Scope fetch_scope.
Delimit Scope fetch_scope with fetch.
Notation "x <- m ;; k" := (fetchBind m (fun x => k))
  (at level 61, m at next level, right associativity) : fetch_scope.
Notation "m ;;; k" := (fetchBind m (fun _ => k))
  (at level 61, right associativity) : fetch_scope.

Definition consoleLogLine (line : string) : Fetch unit :=
  fun w =>
    (Returned tt,
     {| execAsync := execAsync w; writeFileFails := writeFileFails w;
        docsDirPath := docsDirPath w;
        docsDirExists := docsDirExists w; docsMkdirFails := docsMkdirFails w;
        docsFiles := docsFiles w; fetchClock := fetchClock w;
        consoleLog := consoleLog w ++ [line] |}).

Definition exec (command : string) : Fetch ExecResult :=
  fun w => (execAsync w command, w).

(** [writeFile(join(CACHE_DOCS_DIR, name), data)] *)
Definition writeDoc (name data : string) : Fetch unit :=
  fun w =>
    if writeFileFails w name then (Thrown "writeFile failed", w)
    else (Returned tt,
          {| execAsync := execAsync w; writeFileFails := writeFileFails w;
             docsDirPath := docsDirPath w;
        docsDirExists := docsDirExists w; docsMkdirFails := docsMkdirFails w;
             docsFiles := JsObj.set name data (docsFiles w);
             fetchClock := fetchClock w; consoleLog := consoleLog w |}).

Definition fetchNow : Fetch string := fun w => (Returned (fetchClock w), w).

Definition docsDirPresent : Fetch bool := fun w => (Returned (docsDirExists w), w).

(** [CACHE_DOCS_DIR] *)
Definition cacheDocsDir : Fetch string := fun w => (Returned (docsDirPath w), w).

Definition makeDocsDir : Fetch unit :=
  fun w =>
    if docsMkdirFails w then (Thrown "mkdir failed", w)
    else (Returned tt,
          {| execAsync := execAsync w; writeFileFails := writeFileFails w;
             docsDirPath := docsDirPath w;
             docsDirExists := true; docsMkdirFails := docsMkdirFails w;
             docsFiles := docsFiles w; fetchClock := fetchClock w;
             consoleLog := consoleLog w |}).

Definition DOCS_BASE : string :=
  "https://developers.meta.com/horizon/llmstxt/documentation/web".

Definition docUrl (path : string) : string := (DOCS_BASE ++ "/" ++ path ++ "/")%string.

(** The attribution header put in front of a fetched page. *)
Definition docHeader (url fetched : string) : string :=
  ("<!--" ++ newline
   ++ "Source: Meta Developers - Official IWSDK Documentation" ++ newline
   ++ "URL: " ++ url ++ newline
   ++ "Fetched: " ++ fetched ++ newline
   ++ "License: Check Meta's developer documentation license" ++ newline
   ++ "-->" ++ newline ++ newline)%string.

Definition isErrorPage (page : string) : bool :=
  contains "<!DOCTYPE html>" page && contains "<title>Error</title>" page.

(** The body of the [try] block of [fetchDoc]; [stdout.length] counts code
    units. *)
Definition fetchBody (path name : string) : Fetch bool :=
  let url := docUrl path in
  (result <- exec ("curl -sL " ++ quoted url) ;;
   (if isEmpty (stderr result) then fetchRet tt
    else consoleLogLine ("  WARNING: " ++ name ++ ": " ++ stderr result)) ;;;
   if isErrorPage (stdout result)
   then consoleLogLine ("  " ++ name ++ " not found (returned error page)") ;;;
        fetchRet false
   else if (jsLength (stdout result) <? 100)%nat
   then consoleLogLine ("  " ++ name ++ " returned empty or invalid content") ;;;
        fetchRet false
   else fetched <- fetchNow ;;
        writeDoc name (docHeader url fetched ++ stdout result) ;;;
        consoleLogLine ("  " ++ name ++ " ("
                        ++ decimal (jsLength (stdout result)) ++ " bytes)") ;;;
        fetchRet true)%fetch%string.

Definition fetchDoc (path name : string) : Fetch bool :=
  (consoleLogLine ("  Fetching " ++ name ++ "...") ;;;
   fetchTry (fetchBody path name)
     (fun message =>
        consoleLogLine ("  " ++ name ++ " failed: " ++ message) ;;;
        fetchRet false))%fetch%string.

(** An entry of [OFFICIAL_DOCS]. *)
Record OfficialDoc := {
  docPath : string;
  docName : string
}.

Definition OFFICIAL_DOCS : list OfficialDoc :=
  [ {| docPath := "iwsdk-overview.md"; docName := "overview.md" |} ].

(** The loop of [main] over the documents, with the two counters. *)
Fixpoint fetchAll (docs : list OfficialDoc) (successCount failCount : nat)
  : Fetch (nat * nat) :=
  match docs with
  | [] => fetchRet (successCount, failCount)
  | doc :: r =>
      (success <- fetchDoc (docPath doc) (docName doc) ;;
       if success then fetchAll r (S successCount) failCount
       else fetchAll r successCount (S failCount))%fetch
  end.

(** [main] of the fetcher over the documents [docs]; the result is the pair
    of counters. *)
Definition fetchMain (docs : list OfficialDoc) : Fetch (nat * nat) :=
  (consoleLogLine ("Fetching Official IWSDK Docs" ++ newline) ;;;
   present <- docsDirPresent ;;
   (if negb present
    then makeDocsDir ;;;
         dir <- cacheDocsDir ;;
         consoleLogLine ("Created " ++ dir ++ newline)
    else fetchRet tt) ;;;
   counts <- fetchAll docs 0 0 ;;
   consoleLogLine (newline ++ "Fetched " ++ decimal (fst counts) ++ "/"
                   ++ decimal (List.length docs) ++ " documents" ++ newline) ;;;
   (if (0 <? snd counts)%nat
    then consoleLogLine ("WARNING: " ++ decimal (snd counts)
                         ++ " documents could not be fetched") ;;;
         consoleLogLine ("They may not exist yet or the URL structure may have changed."
                         ++ newline)
    else fetchRet tt) ;;;
   consoleLogLine ("Documentation cached in cache/docs/" ++ newline) ;;;
   fetchRet counts)%fetch%string.

(** ** Loading the cache once ([loadEnhancedCache], [loadCache]) *)

(** [loadEnhancedCache] with the module variable [enhancedCache] as state.
    [disk] is what reading and parsing the cache files gives at the moment
    of the call: the data, or the error of a read or parse that fails. *)
Definition loadEnhancedCache (disk : Outcome EnhancedCacheData)
    (enhancedCache : option EnhancedCacheData)
  : Outcome EnhancedCacheData * option EnhancedCacheData :=
  match enhancedCache with
  | Some loaded => (Returned loaded, enhancedCache)
  | None =>
      match disk with
      | Returned data => (Returned data, Some data)
      | Thrown e => (Thrown e, None)
      end
  end.

(** The calls of one server process in sequence, each with the state of the
    disk at its moment: the results in order. *)
Fixpoint loadEach (disks : list (Outcome EnhancedCacheData))
    (enhancedCache : option EnhancedCacheData) : list (Outcome EnhancedCacheData) :=
  match disks with
  | [] => []
  | disk :: r =>
      let (result, memo) := loadEnhancedCache disk enhancedCache in
      result :: loadEach r memo
  end.

(** ** Vocabulary of the further statements *)

(** The characters of a string. *)
Definition chars (s : string) : list ascii := list_ascii_of_string s.


(** No capital letter of ASCII in the string. *)
Definition noCapital (s : string) : Prop :=
  forall c, In c (chars s) -> isUppercase c = false.



(** [usedBySystems] with one more system noted, as a [Set] would. *)
Definition noteSystem (systemName : string) (component : ComponentDefinition.t)
  : ComponentDefinition.t :=
  ComponentDefinition.setUsedBySystems component
    (setAdd (ComponentDefinition.usedBySystems component) systemName).

(** The systems of the map whose queries name [key], in the order of the map. *)
Definition queryingSystems (systems : Systems) (key : string) : list string :=
  map fst
    (filter (fun e => includes (SystemDefinition.queriesComponents (snd e)) key) systems).

(** The components of the map that require [key], in the order of the map. *)
Definition requiringComponents (components : Components) (key : string) : list string :=
  map fst
    (filter (fun e => includes (ComponentDefinition.requires (snd e)) key) components).

(** [b] does not come before a better scored [a]. *)
Definition higherFirst (a b : CodeExample.t * nat) : Prop := snd b <= snd a.

(** The number of line breaks in a text. *)
Fixpoint countLines (s : string) : nat :=
  match s with
  | EmptyString => 0
  | String c r => (if nat_of_ascii c =? 10 then 1 else 0) + countLines r
  end.

(** The value can be serialized: none of the values [JSON.stringify]
    refuses is in it.  Every value that [JSON.parse] gives is of this kind. *)
Fixpoint serializable (value : JsValue) : bool :=
  match value with
  | JsBigInt _ => false
  | JsArray items => forallb serializable items
  | JsObject props => forallb (fun e => serializable (snd e)) props
  | _ => true
  end.

(** The telemetry directory exists or can be made. *)
Definition directoryReady (w : World) : bool :=
  directoryExists w || negb (mkdirFails w).

(** The command [fetchDoc] runs for a page. *)
Definition curlCommand (path : string) : string :=
  ("curl -sL " ++ quoted (docUrl path))%string.

(** What the fetcher leaves alone: the commands, the disk's readiness, the
    directory and the clock. *)
Definition sameSurroundings (w w' : FetchWorld) : Prop :=
  execAsync w' = execAsync w
  /\ writeFileFails w' = writeFileFails w
  /\ docsDirPath w' = docsDirPath w
  /\ docsDirExists w' = docsDirExists w
  /\ docsMkdirFails w' = docsMkdirFails w
  /\ fetchClock w' = fetchClock w.

(** The page can be stored: the command gave it, it is no error page, it
    has a hundred characters or more (code units, as [length] counts them),
    and the file can be written. *)
Definition storable (w : FetchWorld) (path name : string) (page : ExecResult) : Prop :=
  execAsync w (curlCommand path) = Returned page
  /\ isErrorPage (stdout page) = false
  /\ 100 <= jsLength (stdout page)
  /\ writeFileFails w name = false.

(** The content is a fetched page of one of the documents: the header and
    a page that is no error page and has a hundred characters or more, in
    code units. *)
Definition wholePage (docs : list OfficialDoc) (fetched name content : string) : Prop :=
  exists doc page,
    In doc docs
    /\ name = docName doc
    /\ content = (docHeader (docUrl (docPath doc)) fetched ++ stdout page)%string
    /\ isErrorPage (stdout page) = false
    /\ 100 <= jsLength (stdout page).

(** The text of the value of the last property called [propName] among the
    properties of a field. *)
Fixpoint lastAssigned (propName : string) (fieldProps : list Node) : option string :=
  match fieldProps with
  | [] => None
  | fieldProp :: r =>
      match lastAssigned propName r with
      | Some text => Some text
      | None =>
          match fieldProp with
          | PropertyAssignment _ name value =>
              if String.eqb name propName then Some (getText value) else None
          | _ => None
          end
      end
  end.

(** ** Further sample inputs *)

(** [class <name> extends createSystem({ main: { required: [<required>] } })] *)
Definition systemClass (name required : string) : ClassTree :=
  ClassNode
    {| className := Some name;
       heritageClauses :=
         Some [[ CallExpression "createSystem({ main: { required: [...] } })"
                   (OtherNode "createSystem" [])
                   [ ObjectLiteralExpression "{ main: { required: [...] } }"
                       [ PropertyAssignment "main: { required: [...] }" "main"
                           (ObjectLiteralExpression "{ required: [...] }"
                              [ PropertyAssignment "required: [...]" "required"
                                  (ArrayLiteralExpression "[...]"
                                     [ OtherNode required [] ]) ]) ] ] ]] |}
    {| docDescription := "" |} [].

Definition sampleSystemUnits : list SystemUnit :=
  [ {| systemTree := PlainNode [ systemClass "PhysicsSystem" "PhysicsBody";
                                 systemClass "GrabSystem" "OneHandGrabbable";
                                 systemClass "DebugSystem" "PhysicsBody" ];
       systemPackage := "@iwsdk/core";
       systemPath := "packages/core/src/systems.ts" |} ].

Definition sampleExamplesDir : option (list ExampleEntry) :=
  Some [ {| entryName := "physics-demo";
            entryIsDirectory := true;
            entrySources :=
              Some [ ("main.js", "console.log('unused');");
                     ("index.ts",
                      "import { PhysicsBody, PhysicsShape, PhysicsSystem } from '@iwsdk/core';") ] |};
         {| entryName := "README.md"; entryIsDirectory := false; entrySources := None |} ].

(** The cache made from the sample checkout. *)
Definition sampleCache : EnhancedCacheData :=
  generateCache sampleRepo sampleUnits sampleSystemUnits sampleExamplesDir.

Definition physicsBodyCached : ComponentDefinition.t :=
  ComponentDefinition.mk "PhysicsBody" "@iwsdk/core" "packages/core/src/physics.ts"
    "" "PhysicsBody = createComponent('PhysicsBody', {})"
    ["PhysicsShape"] [] ["PhysicsSystem"; "DebugSystem"] [("PhysicsShape", 1%Q)]
    "import { PhysicsBody } from '@iwsdk/core';".

Definition physicsShapeCached : ComponentDefinition.t :=
  ComponentDefinition.mk "PhysicsShape" "@iwsdk/core" "packages/core/src/physics.ts"
    "" "PhysicsShape = createComponent('PhysicsShape', {})"
    [] [] [] [("PhysicsBody", 1%Q)]
    "import { PhysicsShape } from '@iwsdk/core';".

(** The schema
    [{ mass: { type: Types.Float32, default: 1 }, note: 'x',
       shape: { default: 'box', type: Types.String, type: Types.Enum } }]. *)
Definition sampleSchema : Node :=
  ObjectLiteralExpression "{ mass: ..., note: 'x', shape: ... }"
    [ PropertyAssignment "mass: { type: Types.Float32, default: 1 }" "mass"
        (ObjectLiteralExpression "{ type: Types.Float32, default: 1 }"
           [ PropertyAssignment "type: Types.Float32" "type"
               (OtherNode "Types.Float32" []);
             PropertyAssignment "default: 1" "default" (OtherNode "1" []) ]);
      PropertyAssignment "note: 'x'" "note" (OtherNode "'x'" []);
      PropertyAssignment
        "shape: { default: 'box', type: Types.String, type: Types.Enum }" "shape"
        (ObjectLiteralExpression
           "{ default: 'box', type: Types.String, type: Types.Enum }"
           [ PropertyAssignment "default: 'box'" "default" (OtherNode "'box'" []);
             PropertyAssignment "type: Types.String" "type"
               (OtherNode "Types.String" []);
             PropertyAssignment "type: Types.Enum" "type"
               (OtherNode "Types.Enum" []) ]) ].

(** * Properties *)

(** ** Lists and objects *)

Lemma includes_In (l : list string) (x : string) :
  includes l x = true <-> In x l.
Proof.
  unfold includes. rewrite existsb_exists. split.
  - intros [y [Hy Heq]]. apply String.eqb_eq in Heq. now subst.
  - intros H. exists x. split; [assumption | apply String.eqb_refl].
Qed.

Lemma includes_false (l : list string) (x : string) :
  includes l x = false <-> ~ In x l.
Proof.
  rewrite <- includes_In. destruct (includes l x); split; congruence.
Qed.

Lemma filter_filter (A : Type) (p q : A -> bool) (l : list A) :
  filter p (filter q l) = filter (fun x => q x && p x) l.
Proof.
  induction l as [| a l IH]; simpl; [reflexivity |].
  destruct (q a); simpl; [destruct (p a) |]; now rewrite IH.
Qed.

Lemma filter_swap (A : Type) (p q : A -> bool) (l : list A) :
  filter p (filter q l) = filter q (filter p l).
Proof.
  rewrite !filter_filter. apply filter_ext. intros a. apply andb_comm.
Qed.

Lemma filter_none (A : Type) (p : A -> bool) (l : list A) :
  (forall x, In x l -> p x = false) -> filter p l = [].
Proof.
  induction l as [| a r IH]; simpl; [reflexivity |].
  intros H. rewrite (H a (or_introl eq_refl)). apply IH. auto.
Qed.

Lemma dedup_filter (p : string -> bool) (l : list string) :
  dedup (filter p l) = filter p (dedup l).
Proof.
  induction l as [| x r IH]; simpl; [reflexivity |].
  destruct (p x) eqn:Hp; simpl.
  - rewrite IH. f_equal. apply filter_swap.
  - rewrite IH, filter_filter. apply filter_ext_in. intros y _.
    destruct (String.eqb_spec y x) as [-> | _]; simpl.
    + now rewrite Hp.
    + reflexivity.
Qed.

Lemma dedup_In (l : list string) (x : string) : In x (dedup l) <-> In x l.
Proof.
  induction l as [| a r IH]; simpl; [tauto |].
  rewrite filter_In, IH. destruct (String.eqb_spec x a) as [-> | Hne]; simpl.
  - tauto.
  - split.
    + intros [H | [H _]]; auto.
    + intros [H | H]; [left; assumption | right; auto].
Qed.

Lemma dedup_NoDup (l : list string) : NoDup (dedup l).
Proof.
  induction l as [| a r IH]; simpl; constructor.
  - rewrite filter_In. intros [_ H]. now rewrite String.eqb_refl in H.
  - now apply NoDup_filter.
Qed.

Lemma dedup_fixed (l : list string) : NoDup l -> dedup l = l.
Proof.
  induction 1 as [| a r Hnotin _ IH]; simpl; [reflexivity |].
  rewrite IH. f_equal. apply forallb_filter_id. apply forallb_forall.
  intros y Hy. destruct (String.eqb_spec y a); [subst; contradiction | reflexivity].
Qed.

Lemma dedup_app_seen (acc rest : list string) (m : string) :
  In m acc -> dedup (acc ++ m :: rest) = dedup (acc ++ rest).
Proof.
  induction acc as [| a acc IH]; simpl; [intros [] |].
  intros [-> | Hin].
  - f_equal. rewrite <- !dedup_filter, !filter_app. simpl.
    now rewrite String.eqb_refl.
  - now rewrite IH.
Qed.

Lemma setToArray_from (l acc : list string) :
  fold_left setAdd l acc
  = acc ++ filter (fun y => negb (includes acc y)) (dedup l).
Proof.
  revert acc. induction l as [| x r IH]; intros acc; simpl.
  - now rewrite app_nil_r.
  - unfold setAdd at 2. destruct (includes acc x) eqn:Hx; simpl.
    + rewrite IH. f_equal. rewrite filter_filter. apply filter_ext. intros y.
      destruct (String.eqb_spec y x) as [-> | _]; simpl; [now rewrite Hx | reflexivity].
    + rewrite IH, <- app_assoc. simpl. do 2 f_equal.
      rewrite filter_filter. apply filter_ext. intros y.
      unfold includes. rewrite existsb_app. simpl.
      rewrite orb_false_r, negb_orb, andb_comm. reflexivity.
Qed.

Lemma setToArray_dedup (l : list string) : setToArray l = dedup l.
Proof.
  unfold setToArray. rewrite setToArray_from. simpl.
  apply forallb_filter_id. apply forallb_forall. reflexivity.
Qed.

Lemma setToArray_In (l : list string) (x : string) : In x (setToArray l) <-> In x l.
Proof.
  rewrite setToArray_dedup. apply dedup_In.
Qed.

Lemma NoDup_snoc (l : list string) (x : string) :
  NoDup l -> ~ In x l -> NoDup (l ++ [x]).
Proof.
  intros Hnd Hnotin. induction Hnd as [| a r Ha _ IH]; simpl.
  - constructor; [intros [] | constructor].
  - constructor.
    + rewrite in_app_iff. simpl. intros [H | [H | []]]; [auto | subst].
      apply Hnotin. now left.
    + apply IH. intros H. apply Hnotin. now right.
Qed.

Lemma NoDup_middle_insert (l1 l2 : list string) (x : string) :
  NoDup (l1 ++ l2) -> ~ In x (l1 ++ l2) -> NoDup (l1 ++ x :: l2).
Proof.
  induction l1 as [| a l1 IH]; simpl; intros Hnd Hnotin.
  - now constructor.
  - inversion Hnd as [| ? ? Ha Hnd']; subst. constructor.
    + rewrite in_app_iff in *. simpl. intros [H | [H | H]]; subst; auto.
    + apply IH; auto.
Qed.

Lemma get_of_In (V : Type) (o : JsObj.t V) (k : string) (v : V) :
  NoDup (JsObj.keys o) -> In (k, v) o -> JsObj.get k o = Some v.
Proof.
  induction o as [| [k' v'] r IH]; simpl; [intros _ [] |].
  intros Hnd [Heq | Hin].
  - inversion Heq; subst. now rewrite String.eqb_refl.
  - inversion Hnd as [| ? ? Hnotin Hnd']; subst.
    destruct (String.eqb_spec k k') as [-> | _].
    + exfalso. apply Hnotin. apply (in_map fst) in Hin. exact Hin.
    + now apply IH.
Qed.

Lemma In_of_get (V : Type) (o : JsObj.t V) (k : string) (v : V) :
  JsObj.get k o = Some v -> In (k, v) o.
Proof.
  induction o as [| [k' v'] r IH]; simpl; [discriminate |].
  destruct (String.eqb_spec k k') as [-> | _].
  - intros H. inversion H. now left.
  - intros H. right. now apply IH.
Qed.

Lemma get_set_same (V : Type) (o : JsObj.t V) (k : string) (v : V) :
  JsObj.get k (JsObj.set k v o) = Some v.
Proof.
  induction o as [| [k' v'] r IH]; simpl.
  - now rewrite String.eqb_refl.
  - destruct (String.eqb k k') eqn:Hk; simpl; rewrite Hk; [reflexivity | exact IH].
Qed.

Lemma get_set_other (V : Type) (o : JsObj.t V) (k k' : string) (v : V) :
  k' <> k -> JsObj.get k' (JsObj.set k v o) = JsObj.get k' o.
Proof.
  intros Hne. induction o as [| [k0 v0] r IH]; simpl.
  - destruct (String.eqb_spec k' k); [contradiction | reflexivity].
  - destruct (String.eqb_spec k k0) as [-> | Hk]; simpl.
    + destruct (String.eqb_spec k' k0); [contradiction | reflexivity].
    + now rewrite IH.
Qed.

Lemma set_absent (V : Type) (o : JsObj.t V) (k : string) (v : V) :
  ~ In k (JsObj.keys o) -> JsObj.set k v o = o ++ [(k, v)].
Proof.
  induction o as [| [k' v'] r IH]; simpl; [reflexivity |].
  intros Hnotin. destruct (String.eqb_spec k k') as [-> | _].
  - exfalso. auto.
  - f_equal. apply IH. auto.
Qed.

Lemma set_keys (V : Type) (o : JsObj.t V) (k : string) (v : V) :
  JsObj.keys (JsObj.set k v o)
  = if includes (JsObj.keys o) k then JsObj.keys o else JsObj.keys o ++ [k].
Proof.
  induction o as [| [k' v'] r IH]; simpl; [reflexivity |].
  destruct (String.eqb k k') eqn:Hk; simpl; [reflexivity |].
  rewrite IH. now destruct (includes (JsObj.keys r) k).
Qed.

Lemma set_keys_NoDup (V : Type) (o : JsObj.t V) (k : string) (v : V) :
  NoDup (JsObj.keys o) -> NoDup (JsObj.keys (JsObj.set k v o)).
Proof.
  intros Hnd. rewrite set_keys. destruct (includes (JsObj.keys o) k) eqn:Hk.
  - assumption.
  - apply NoDup_snoc; [assumption | now apply includes_false].
Qed.

Lemma set_In (V : Type) (o : JsObj.t V) (k k' : string) (v v' : V) :
  In (k', v') (JsObj.set k v o) -> (k' = k /\ v' = v) \/ In (k', v') o.
Proof.
  induction o as [| [k0 v0] r IH]; simpl.
  - intros [H | []]. inversion H. auto.
  - destruct (String.eqb_spec k k0) as [-> | _]; simpl.
    + intros [H | H]; [inversion H; auto | auto].
    + intros [H | H]; [auto | destruct (IH H); auto].
Qed.

Lemma set_entries (V : Type) (P : string * V -> Prop) (o : JsObj.t V)
    (k : string) (v : V) :
  (forall e, In e o -> P e) -> P (k, v) ->
  forall e, In e (JsObj.set k v o) -> P e.
Proof.
  intros Hall Hnew [k' v'] Hin. apply set_In in Hin.
  destruct Hin as [[-> ->] | Hin]; auto.
Qed.

Lemma keys_filter_NoDup (V : Type) (p : string * V -> bool) (o : JsObj.t V) :
  NoDup (JsObj.keys o) -> NoDup (JsObj.keys (filter p o)).
Proof.
  unfold JsObj.keys. induction o as [| [k v] r IH]; simpl; intros Hnd; [constructor |].
  inversion Hnd as [| ? ? Hnotin Hnd']; subst.
  destruct (p (k, v)); simpl; [constructor |]; auto.
  intros Hin. apply Hnotin. apply in_map_iff in Hin.
  destruct Hin as [[k' v'] [Hk Hin]]. simpl in Hk. subst k'.
  apply filter_In in Hin. destruct Hin as [Hin _].
  apply (in_map fst) in Hin. exact Hin.
Qed.

Lemma string_length_append (a b : string) :
  String.length (a ++ b)%string = String.length a + String.length b.
Proof.
  induction a as [| c a IH]; simpl; [reflexivity | now rewrite IH].
Qed.

Lemma append_cancel_r (a b s : string) :
  (a ++ s)%string = (b ++ s)%string -> a = b.
Proof.
  revert b. induction a as [| c a IH]; intros [| d b]; simpl; intros H.
  - reflexivity.
  - apply (f_equal String.length) in H. simpl in H.
    rewrite string_length_append in H. lia.
  - apply (f_equal String.length) in H. simpl in H.
    rewrite string_length_append in H. lia.
  - inversion H; subst. f_equal. now apply IH.
Qed.

Lemma Qlt_bool_iff (x y : Q) : Qlt_bool x y = true <-> (x < y)%Q.
Proof.
  unfold Qlt_bool. rewrite negb_true_iff. split.
  - intros H. apply Qnot_le_lt. intros Hle.
    apply Qle_bool_iff in Hle. congruence.
  - intros H. destruct (Qle_bool y x) eqn:Hle; [| reflexivity].
    apply Qle_bool_iff in Hle. exfalso. now apply (Qlt_not_le x y).
Qed.

Lemma ratio_quotient (count total : nat) :
  total <> 0 -> (ratio count total == quotient count total)%Q.
Proof.
  intros Htotal. unfold ratio, quotient. rewrite Qred_correct, Qmake_Qdiv.
  replace (Z.pos (Pos.of_nat total)) with (Z.of_nat total); [reflexivity |].
  destruct total as [| t]; [contradiction | lia].
Qed.

Lemma ratio_nonneg (count total : nat) : (0 <= ratio count total)%Q.
Proof.
  unfold ratio. rewrite Qred_correct. unfold Qle. simpl. lia.
Qed.

Lemma ratio_le_1 (count total : nat) :
  count <= total -> total <> 0 -> (ratio count total <= 1)%Q.
Proof.
  intros Hle Htotal. unfold ratio. rewrite Qred_correct. unfold Qle. simpl.
  destruct total as [| t]; [contradiction | lia].
Qed.

Lemma jsLength_append (a b : string) :
  jsLength (a ++ b) = jsLength a + jsLength b.
Proof.
  induction a as [| c a IH]; cbn [append jsLength]; [reflexivity |].
  rewrite IH. lia.
Qed.

Lemma continuation_byte (n : nat) :
  128 <= n < 192 -> isContinuation (ascii_of_nat n) = true.
Proof.
  intros H. unfold isContinuation. rewrite nat_ascii_embedding by lia.
  apply andb_true_iff. split; [apply Nat.leb_le | apply Nat.ltb_lt]; lia.
Qed.

Lemma highSurrogate_length (b0 b1 b2 : nat) : jsLength (highSurrogate b0 b1 b2) = 1.
Proof.
  unfold highSurrogate. cbv zeta. cbn [jsLength].
  set (offset := b0 mod 8 * 256 + b1 mod 64 * 4 + b2 mod 64 / 16 - 64).
  assert (H1 : (offset / 64) mod 16 < 16) by (apply Nat.mod_upper_bound; discriminate).
  assert (H2 : offset mod 64 < 64) by (apply Nat.mod_upper_bound; discriminate).
  unfold codeUnits at 2 3.
  rewrite !continuation_byte by lia. reflexivity.
Qed.

Lemma substringTo_length (n : nat) (s : string) :
  n <= jsLength s -> jsLength (substringTo n s) = n.
Proof.
  revert n. induction s as [| c r IH]; intros n Hn; cbn [substringTo jsLength] in *.
  - lia.
  - unfold codeUnits in *. destruct (isContinuation c) eqn:C.
    + cbn [jsLength]. unfold codeUnits. rewrite C. now apply IH.
    + destruct (n =? 0) eqn:N0; [apply Nat.eqb_eq in N0; now subst n |].
      apply Nat.eqb_neq in N0.
      destruct (240 <=? nat_of_ascii c) eqn:A.
      * destruct (n =? 1) eqn:N1; cbn [Nat.eqb andb].
        -- apply Nat.eqb_eq in N1. subst n. apply highSurrogate_length.
        -- apply Nat.eqb_neq in N1. cbn [jsLength]. unfold codeUnits.
           rewrite C, A, IH; lia.
      * cbn [Nat.eqb andb]. cbn [jsLength]. unfold codeUnits.
        rewrite C, A, IH; lia.
Qed.

Lemma substringTo_bound (n : nat) (s : string) : jsLength (substringTo n s) <= n.
Proof.
  revert n. induction s as [| c r IH]; intros n; cbn [substringTo jsLength].
  - lia.
  - unfold codeUnits. destruct (isContinuation c) eqn:C.
    + cbn [jsLength]. unfold codeUnits. rewrite C. apply IH.
    + destruct (n =? 0) eqn:N0; [cbn; lia |].
      apply Nat.eqb_neq in N0.
      destruct (240 <=? nat_of_ascii c) eqn:A.
      * destruct (n =? 1) eqn:N1; cbn [Nat.eqb andb].
        -- rewrite highSurrogate_length. lia.
        -- apply Nat.eqb_neq in N1. cbn [jsLength]. unfold codeUnits.
           rewrite C, A. specialize (IH (n - 2)). lia.
      * cbn [Nat.eqb andb]. cbn [jsLength]. unfold codeUnits.
        rewrite C, A. specialize (IH (n - 1)). lia.
Qed.

(** Cutting a text where a cut was made gives the same piece. *)
Lemma substringTo_prefix (a : string) (c : ascii) (b : string) :
  isContinuation c = false ->
  substringTo (jsLength a) (a ++ String c b) = a.
Proof.
  intros Hc. induction a as [| d a IH]; cbn [append jsLength substringTo].
  - now rewrite Hc.
  - unfold codeUnits. destruct (isContinuation d) eqn:D.
    + cbn [Nat.add]. now rewrite IH.
    + destruct (240 <=? nat_of_ascii d) eqn:A; cbn [Nat.add Nat.eqb andb].
      * replace (S (S (jsLength a)) - 2) with (jsLength a) by lia.
        now rewrite IH.
      * replace (S (jsLength a) - 1) with (jsLength a) by lia.
        now rewrite IH.
Qed.

(** ** Component extraction *)

Lemma visit_without_statement (packageName filePath : string) (node : Node) :
  forall components,
    hasVariableStatement node = false ->
    visit packageName filePath node components = components.
Proof.
  assert (Hall : forall nodes,
             Forall (fun n => forall components,
                         hasVariableStatement n = false ->
                         visit packageName filePath n components = components) nodes ->
             forall components,
               (fix anyOf (l : list Node) : bool :=
                  match l with
                  | [] => false
                  | n :: r => hasVariableStatement n || anyOf r
                  end) nodes = false ->
               (fix visitAll (l : list Node) (acc : Components) : Components :=
                  match l with
                  | [] => acc
                  | n :: r => visitAll r (visit packageName filePath n acc)
                  end) nodes components = components).
  { induction 1 as [| n r Hn _ IHr]; intros components Hnone; [reflexivity |].
    apply orb_false_iff in Hnone. destruct Hnone as [Hhd Htl].
    rewrite Hn by assumption. now apply IHr. }
  induction node as [text doc declarations IH
                    | text binding initializer IHbinding IHinit
                    | text callee callArguments IHcallee IHargs
                    | text properties IH
                    | text name initializer IH
                    | text elements IH
                    | text children IH] using Node_tree_ind;
    intros components Hplain; cbn [hasVariableStatement] in Hplain; cbn [visit].
  - discriminate Hplain.
  - apply orb_false_iff in Hplain. destruct Hplain as [Hbinding Hinit].
    rewrite IHbinding by assumption.
    destruct initializer as [value |]; [now apply IHinit | reflexivity].
  - apply orb_false_iff in Hplain. destruct Hplain as [Hcallee Hargs].
    rewrite IHcallee by assumption. now apply Hall.
  - now apply Hall.
  - now apply IH.
  - now apply Hall.
  - now apply Hall.
Qed.

Lemma visit_plain_declarations (packageName filePath : string)
    (declarations : list Node) (components : Components) :
  forallb plainDeclaration declarations = true ->
  (fix visitAll (l : list Node) (acc : Components) : Components :=
     match l with
     | [] => acc
     | n :: r => visitAll r (visit packageName filePath n acc)
     end) declarations components = components.
Proof.
  revert components.
  induction declarations as [| d r IH]; intros components Hplain; [reflexivity |].
  simpl in Hplain. apply andb_true_iff in Hplain. destruct Hplain as [Hhd Htl].
  unfold plainDeclaration in Hhd. apply negb_true_iff in Hhd.
  rewrite visit_without_statement by assumption. now apply IH.
Qed.

(** The statement's own test, then the visit of its declarators. *)
Lemma visit_statement (packageName filePath text : string) (doc : JSDoc)
    (declarations : list Node) (components : Components) :
  forallb plainDeclaration declarations = true ->
  visit packageName filePath (VariableStatement text doc declarations) components
  = declareFirst packageName filePath doc declarations components.
Proof.
  intros Hplain. cbn [visit]. now apply visit_plain_declarations.
Qed.

Lemma visit_single (packageName filePath text : string) (node : Node)
    (components : Components) :
  visit packageName filePath (OtherNode text [node]) components
  = visit packageName filePath node components.
Proof.
  reflexivity.
Qed.

Lemma declareFirst_head (packageName filePath : string) (doc : JSDoc)
    (first : Node) (rest : list Node) (components : Components) :
  declareFirst packageName filePath doc (first :: rest) components
  = declareFirst packageName filePath doc [first] components.
Proof.
  destruct first as [| t b [[] |] | | | | |]; reflexivity.
Qed.

Lemma declareFirst_skips (packageName filePath : string) (doc : JSDoc)
    (first : Node) (components : Components) :
  isComponentDeclaration first = false ->
  declareFirst packageName filePath doc [first] components = components.
Proof.
  destruct first as [| t b [[] |] | | | | |]; try reflexivity.
  intros Hskip. unfold declareFirst. now rewrite Hskip.
Qed.

Lemma componentRecord_defined (packageName filePath : string) (doc : JSDoc)
    (declarationText : string) (callArguments : list Node) :
  (2 <=? List.length callArguments) = true ->
  exists componentName record,
    componentRecord packageName filePath doc declarationText callArguments
    = Some (componentName, record).
Proof.
  destruct callArguments as [| nameArg [| schemaArg rest]]; simpl; try discriminate.
  intros _. eauto.
Qed.

Lemma visit_withText (packageName filePath text' : string) (node : Node)
    (components : Components) :
  visit packageName filePath (withText text' node) components
  = visit packageName filePath node components.
Proof.
  destruct node; reflexivity.
Qed.

Lemma visit_calling (packageName filePath calleeText : string) (declaration : Node)
    (components : Components) :
  visit packageName filePath (calling calleeText declaration) components
  = visit packageName filePath declaration components.
Proof.
  destruct declaration as [| t b [[| | callText callee callArguments | | | |] |] | | | | |];
    try reflexivity.
  cbn [calling visit]. now rewrite visit_withText.
Qed.

Lemma visit_declarations_calling (packageName filePath calleeText : string)
    (before after : list Node) (later : Node) (components : Components) :
  (fix visitAll (l : list Node) (acc : Components) : Components :=
     match l with
     | [] => acc
     | n :: r => visitAll r (visit packageName filePath n acc)
     end) (before ++ calling calleeText later :: after) components
  = (fix visitAll (l : list Node) (acc : Components) : Components :=
       match l with
       | [] => acc
       | n :: r => visitAll r (visit packageName filePath n acc)
       end) (before ++ later :: after) components.
Proof.
  revert components. induction before as [| d r IH]; intros components; simpl.
  - now rewrite visit_calling.
  - apply IH.
Qed.

Lemma calling_other_is_no_component (calleeText : string) (declaration : Node) :
  calleeText <> "createComponent" ->
  isComponentDeclaration (calling calleeText declaration) = false.
Proof.
  intros Hother.
  destruct declaration as [| t b [[| | callText callee callArguments | | | |] |] | | | | |];
    try reflexivity.
  cbn [calling isComponentDeclaration].
  replace (getText (withText calleeText callee)) with calleeText
    by (destruct callee; reflexivity).
  destruct (String.eqb_spec calleeText "createComponent"); [contradiction | reflexivity].
Qed.

(** C10. In a variable statement with two or more declarators, a declarator
    after the first that satisfies the detection rule (an initializer calling
    [createComponent] with at least two arguments) adds no record: the
    records are those the statement yields when that declarator calls any
    other function; when no declarator has a statement nested in it, they
    are what the first declarator alone contributes, and none when the first
    declarator is not a component; the same declarator in first position
    does add its record. *)
Theorem later_declarators_yield_no_record
    (packageName filePath text : string) (doc : JSDoc)
    (first : Node) (before after : list Node) (later : Node)
    (components : Components) :
  isComponentDeclaration later = true ->
  let statement := VariableStatement text doc (first :: before ++ later :: after) in
  (forall calleeText,
      calleeText <> "createComponent" ->
      isComponentDeclaration (calling calleeText later) = false
      /\ visit packageName filePath statement components
         = visit packageName filePath
             (VariableStatement text doc
                (first :: before ++ calling calleeText later :: after))
             components)
  /\ (forallb plainDeclaration (first :: before ++ later :: after) = true ->
      visit packageName filePath statement components
      = visit packageName filePath (VariableStatement text doc [first]) components
      /\ (isComponentDeclaration first = false ->
          visit packageName filePath statement components = components
          /\ extractComponentsFromAST (OtherNode text [statement]) packageName filePath
             = [])
      /\ exists componentName record,
          JsObj.get componentName
            (visit packageName filePath (VariableStatement text doc [later]) [])
          = Some record).
Proof.
  intros Hlater. cbn zeta. split.
  - intros calleeText Hother.
    split; [now apply calling_other_is_no_component |].
    cbn [visit].
    rewrite (declareFirst_head _ _ _ first (before ++ later :: after)).
    rewrite (declareFirst_head _ _ _ first (before ++ calling calleeText later :: after)).
    now rewrite visit_declarations_calling.
  - intros Hplain.
    assert (Hfirst : forallb plainDeclaration [first] = true).
    { simpl in Hplain. apply andb_true_iff in Hplain. simpl. now rewrite (proj1 Hplain). }
    assert (Halone : forallb plainDeclaration [later] = true).
    { simpl in Hplain. apply andb_true_iff in Hplain. destruct Hplain as [_ Hrest].
      rewrite forallb_app in Hrest. apply andb_true_iff in Hrest.
      destruct Hrest as [_ Hrest]. simpl in Hrest. apply andb_true_iff in Hrest.
      simpl. now rewrite (proj1 Hrest). }
    rewrite !visit_statement by assumption.
    split; [apply declareFirst_head |]. split.
    + intros Hskip. unfold extractComponentsFromAST.
      rewrite visit_single, visit_statement by assumption.
      split; rewrite declareFirst_head, declareFirst_skips by assumption; reflexivity.
    + destruct later as [| declarationText binding
                           [[| | callText callee callArguments | | | |] |]
                        | | | | |];
        try discriminate Hlater.
      unfold declareFirst. rewrite Hlater.
      simpl in Hlater. apply andb_true_iff in Hlater. destruct Hlater as [_ Hcount].
      destruct (componentRecord_defined packageName filePath doc declarationText
                  callArguments Hcount) as [componentName [record ->]].
      exists componentName, record. simpl. now rewrite String.eqb_refl.
Qed.

Lemma later_declarators_yield_no_record_witness :
  extractComponentsFromAST
    (OtherNode "const limit = 3, Grabbed = createComponent('Grabbed', {});"
       [secondDeclarator])
    "@iwsdk/core" "packages/core/src/grab.ts"
  = [].
Proof.
  apply (later_declarators_yield_no_record
           "@iwsdk/core" "packages/core/src/grab.ts"
           "const limit = 3, Grabbed = createComponent('Grabbed', {});"
           {| docDescription := "" |}
           limitDeclarator [] [] grabbedDeclarator []).
  - reflexivity.
  - reflexivity.
  - reflexivity.
Defined.

(** The same call as the only declarator is extracted. *)
Example first_declarator_is_extracted :
  JsObj.keys
    (extractComponentsFromAST
       (OtherNode "const Grabbed = createComponent('Grabbed', {});"
          [ VariableStatement "const Grabbed = createComponent('Grabbed', {});"
              {| docDescription := "" |} [grabbedDeclarator] ])
       "@iwsdk/core" "packages/core/src/grab.ts")
  = ["Grabbed"].
Proof.
  reflexivity.
Qed.

Section ParseInvariant.
Variable I : Components -> Prop.

Hypothesis Hset :
  forall components k record,
    I components ->
    ComponentDefinition.name record = k ->
    ComponentDefinition.requires record = [] ->
    notAnalyzed record ->
    I (JsObj.set k record components).

Lemma declareFirst_preserves (packageName filePath : string) (doc : JSDoc)
    (declarations : list Node) (components : Components) :
  I components -> I (declareFirst packageName filePath doc declarations components).
Proof.
  intros Hinv.
  destruct declarations
    as [| [| t b [[| | callText callee callArguments | | | |] |] | | | | |] rest];
    try exact Hinv.
  unfold declareFirst.
  destruct (isComponentDeclaration _); [| exact Hinv].
  destruct callArguments as [| nameArg [| schemaArg others]]; try exact Hinv.
  cbn [componentRecord]. apply Hset; [assumption | reflexivity | reflexivity |].
  split; reflexivity.
Qed.

Lemma visit_preserves (packageName filePath : string) (node : Node) :
  forall components, I components -> I (visit packageName filePath node components).
Proof.
  assert (Hall : forall nodes,
             Forall (fun n => forall components,
                         I components -> I (visit packageName filePath n components))
               nodes ->
             forall components,
               I components ->
               I ((fix visitAll (l : list Node) (acc : Components) : Components :=
                     match l with
                     | [] => acc
                     | n :: r => visitAll r (visit packageName filePath n acc)
                     end) nodes components)).
  { induction 1 as [| n r Hn _ IHr]; intros components Hinv; [exact Hinv |].
    apply IHr. now apply Hn. }
  induction node as [text doc declarations IH
                    | text binding initializer IHbinding IHinit
                    | text callee callArguments IHcallee IHargs
                    | text properties IH
                    | text name initializer IH
                    | text elements IH
                    | text children IH] using Node_tree_ind;
    intros components Hinv; cbn [visit].
  - apply Hall; [assumption |]. now apply declareFirst_preserves.
  - destruct initializer as [value |]; [apply IHinit |]; now apply IHbinding.
  - apply Hall; [assumption |]. now apply IHcallee.
  - now apply Hall.
  - now apply IH.
  - now apply Hall.
  - now apply Hall.
Qed.

Lemma assign_preserves (target source : Components) :
  I target -> freshRecords source -> I (assign target source).
Proof.
  unfold assign. revert target.
  induction source as [| [k c] r IH]; intros target Hinv Hfresh; [exact Hinv |].
  cbn [fold_left fst snd]. apply IH.
  - destruct (Hfresh k c (or_introl eq_refl)) as [Hname [Hreq Hana]].
    now apply Hset.
  - intros k' c' Hin. apply Hfresh. now right.
Qed.
End ParseInvariant.

Lemma freshRecords_set (components : Components) (k : string)
    (record : ComponentDefinition.t) :
  NoDup (JsObj.keys components) /\ freshRecords components ->
  ComponentDefinition.name record = k ->
  ComponentDefinition.requires record = [] ->
  notAnalyzed record ->
  NoDup (JsObj.keys (JsObj.set k record components))
  /\ freshRecords (JsObj.set k record components).
Proof.
  intros [Hkeys Hfresh] Hname Hreq Hana. split; [now apply set_keys_NoDup |].
  intros k' c' Hin. apply set_In in Hin.
  destruct Hin as [[-> ->] | Hin]; [auto | now apply Hfresh].
Qed.

Lemma extracted_records_fresh (sourceFile : Node) (packageName filePath : string) :
  NoDup (JsObj.keys (extractComponentsFromAST sourceFile packageName filePath))
  /\ freshRecords (extractComponentsFromAST sourceFile packageName filePath).
Proof.
  unfold extractComponentsFromAST.
  apply (visit_preserves
           (fun cs => NoDup (JsObj.keys cs) /\ freshRecords cs) freshRecords_set).
  split; [constructor | intros k c []].
Qed.

(** What [parseComponents] hands to the inference passes. *)
Lemma parseComponents_fresh (units : list SourceUnit) :
  NoDup (JsObj.keys (parseComponents units)) /\ freshRecords (parseComponents units).
Proof.
  unfold parseComponents.
  assert (Hfrom : forall components,
             NoDup (JsObj.keys components) /\ freshRecords components ->
             NoDup (JsObj.keys
                      (fold_left
                         (fun acc unit =>
                            assign acc
                              (extractComponentsFromAST (unitTree unit)
                                 (unitPackage unit) (unitPath unit)))
                         units components))
             /\ freshRecords
                  (fold_left
                     (fun acc unit =>
                        assign acc
                          (extractComponentsFromAST (unitTree unit)
                             (unitPackage unit) (unitPath unit)))
                     units components)).
  { induction units as [| unit r IH]; intros components Hinv; [exact Hinv |].
    cbn [fold_left]. apply IH.
    apply (assign_preserves
             (fun cs => NoDup (JsObj.keys cs) /\ freshRecords cs) freshRecords_set);
      [assumption | apply extracted_records_fresh]. }
  apply Hfrom. split; [constructor | intros k c []].
Qed.

(** ** Queried components *)

Lemma startsUpper_keeps (x : string) : keepsName x = startsUpper x.
Proof.
  unfold keepsName. destruct x; reflexivity.
Qed.

Lemma requiredOf_In (queryProp : Node) (x : string) :
  In x (requiredOf queryProp)
  <-> exists reqText arrText elements element,
      queryProp = PropertyAssignment reqText "required"
                    (ArrayLiteralExpression arrText elements)
      /\ In element elements /\ getText element = x /\ startsUpper x = true.
Proof.
  split.
  - destruct queryProp as [| | | | reqText propName requiredValue | |]; simpl;
      try contradiction.
    destruct (String.eqb_spec propName "required") as [-> | _]; [| contradiction].
    destruct requiredValue as [| | | | | arrText elements |]; simpl; try contradiction.
    rewrite filter_In, in_map_iff, startsUpper_keeps.
    intros [[element [Htext Hin]] Hupper].
    exists reqText, arrText, elements, element. auto.
  - intros [reqText [arrText [elements [element [-> [Hin [Htext Hupper]]]]]]].
    simpl. rewrite filter_In, in_map_iff, startsUpper_keeps.
    split; [exists element; auto | assumption].
Qed.

Lemma queryOf_In (prop : Node) (x : string) :
  In x (queryOf prop)
  <-> exists propText queryName queryText queryProps queryProp,
      prop = PropertyAssignment propText queryName
               (ObjectLiteralExpression queryText queryProps)
      /\ In queryProp queryProps /\ In x (requiredOf queryProp).
Proof.
  split.
  - destruct prop as [| | | | propText queryName queryDef | |]; simpl; try contradiction.
    destruct queryDef as [| | | queryText queryProps | | |]; simpl; try contradiction.
    rewrite in_flat_map. intros [queryProp [Hin Hx]].
    exists propText, queryName, queryText, queryProps, queryProp. auto.
  - intros [propText [queryName [queryText [queryProps [queryProp [-> [Hin Hx]]]]]]].
    simpl. rewrite in_flat_map. exists queryProp. auto.
Qed.

Lemma heritageOf_In (expr : Node) (x : string) :
  In x (heritageOf expr)
  <-> exists callText callee objText properties others prop,
      expr = CallExpression callText callee
               (ObjectLiteralExpression objText properties :: others)
      /\ getText callee = "createSystem"
      /\ In prop properties /\ In x (queryOf prop).
Proof.
  split.
  - destruct expr as [| | callText callee callArguments | | | |]; simpl; try contradiction.
    destruct (String.eqb_spec (getText callee) "createSystem") as [Hname | _];
      [| contradiction].
    destruct callArguments as [| queriesArg others]; simpl; [contradiction |].
    destruct queriesArg as [| | | objText properties | | |]; simpl; try contradiction.
    rewrite in_flat_map. intros [prop [Hin Hx]].
    exists callText, callee, objText, properties, others, prop. auto.
  - intros [callText [callee [objText [properties [others [prop [-> [Hname [Hin Hx]]]]]]]]].
    simpl. rewrite Hname. simpl. rewrite in_flat_map. exists prop. auto.
Qed.

(** C7. The queried components of a system class are exactly the texts of
    the elements of the [required] arrays of the queries of its
    [createSystem({...})] heritage calls that start with an uppercase
    letter; for [FooSystem extends createSystem({ main: { required: [A, b] } })]
    the result is [A] alone. *)
Theorem queried_components_are_capitalized (classNode : ClassDeclaration) (x : string) :
  (In x (extractQueriedComponents classNode)
   <-> requiredElement classNode x /\ startsUpper x = true)
  /\ extractQueriedComponents fooSystem = ["A"]
  /\ ~ In "b" (extractQueriedComponents fooSystem).
Proof.
  split; [| split; [reflexivity | simpl; intuition discriminate]].
  unfold extractQueriedComponents, requiredElement. rewrite setToArray_In.
  destruct (heritageClauses classNode) as [clauses |].
  - rewrite in_flat_map. split.
    + intros [clause [Hclause Hx]]. rewrite in_flat_map in Hx.
      destruct Hx as [expr [Hexpr Hx]].
      apply heritageOf_In in Hx.
      destruct Hx as [callText [callee [objText [properties [others [prop
                        [-> [Hname [Hprop Hx]]]]]]]]].
      apply queryOf_In in Hx.
      destruct Hx as [propText [queryName [queryText [queryProps [queryProp
                        [-> [Hquery Hx]]]]]]].
      apply requiredOf_In in Hx.
      destruct Hx as [reqText [arrText [elements [element [-> [Hin [Htext Hupper]]]]]]].
      split; [| assumption].
      exists clauses, clause, callText, callee, objText, properties, others,
        propText, queryName, queryText, queryProps, reqText, arrText, elements, element.
      repeat split; auto.
    + intros [[clauses' [clause [callText [callee [objText [properties [others
                [propText [queryName [queryText [queryProps [reqText [arrText
                [elements [element [Heq [Hclause [Hexpr [Hname [Hprop [Hquery
                [Hin Htext]]]]]]]]]]]]]]]]]]]]]] Hupper].
      inversion Heq; subst clauses'. exists clause. split; [assumption |].
      rewrite in_flat_map. eexists. split; [exact Hexpr |].
      apply heritageOf_In. do 6 eexists. split; [reflexivity |].
      split; [assumption |]. split; [exact Hprop |].
      apply queryOf_In. do 5 eexists. split; [reflexivity |].
      split; [exact Hquery |].
      apply requiredOf_In. do 4 eexists. split; [reflexivity |]. eauto.
  - split; [intros [] |].
    intros [[clauses [clause [callText [callee [objText [properties [others
              [propText [queryName [queryText [queryProps [reqText [arrText
              [elements [element [Heq _]]]]]]]]]]]]]]]] _].
    discriminate Heq.
Qed.

(** ** Requires inference *)

Lemma visitCall_dedup (componentName : string) (calls acc : list string) :
  dedup (fold_left (visitCall componentName) calls acc)
  = dedup (acc ++ filter (fun m => negb (String.eqb m componentName)) calls).
Proof.
  revert acc. induction calls as [| m r IH]; intros acc; simpl.
  - now rewrite app_nil_r.
  - unfold visitCall at 2. destruct (String.eqb m componentName); simpl.
    + apply IH.
    + destruct (includes acc m) eqn:Hm.
      * rewrite IH. symmetry. apply dedup_app_seen. now apply includes_In.
      * rewrite IH, <- app_assoc. reflexivity.
Qed.

Lemma static_table_NoDup (componentName : string) :
  NoDup (staticRequires componentName).
Proof.
  unfold staticRequires, knownRelationships. simpl.
  repeat match goal with
         | |- context [String.eqb ?a ?b] => destruct (String.eqb a b)
         end;
    repeat constructor; simpl; tauto.
Qed.

Lemma relateComponent_requires (repo : Checkout) (componentName : string)
    (component : ComponentDefinition.t) :
  ComponentDefinition.requires component = [] ->
  ComponentDefinition.requires (relateComponent repo componentName component)
  = dedup (staticRequires componentName
           ++ declaredRequires repo (ComponentDefinition.filePath component)
           ++ calledRequires repo componentName (ComponentDefinition.filePath component)).
Proof.
  intros Hfresh.
  unfold relateComponent, staticRequires, declaredRequires, calledRequires.
  destruct (JsObj.get componentName knownRelationships) as [known |] eqn:Hknown;
    simpl; destruct (repo (ComponentDefinition.filePath component)) as [content |];
    simpl.
  - rewrite setToArray_dedup, visitCall_dedup, <- app_assoc. reflexivity.
  - rewrite app_nil_r. symmetry. apply dedup_fixed.
    generalize (static_table_NoDup componentName).
    unfold staticRequires. now rewrite Hknown.
  - rewrite Hfresh, setToArray_dedup, visitCall_dedup. reflexivity.
  - assumption.
Qed.

Lemma relateComponent_keeps (repo : Checkout) (componentName : string)
    (component : ComponentDefinition.t) :
  let related := relateComponent repo componentName component in
  ComponentDefinition.name related = ComponentDefinition.name component
  /\ ComponentDefinition.filePath related = ComponentDefinition.filePath component
  /\ ComponentDefinition.coOccurrences related
     = ComponentDefinition.coOccurrences component
  /\ ComponentDefinition.optionalWith related
     = ComponentDefinition.optionalWith component.
Proof.
  unfold relateComponent.
  destruct (JsObj.get componentName knownRelationships); cbn zeta;
    cbn [ComponentDefinition.setRequires ComponentDefinition.filePath];
    destruct (repo (ComponentDefinition.filePath component));
    repeat split; reflexivity.
Qed.

Lemma extract_entries (repo : Checkout) (components : Components)
    (key : string) (result : ComponentDefinition.t) :
  In (key, result) (extractComponentRelationships repo components) ->
  exists component,
    In (key, component) components /\ result = relateComponent repo key component.
Proof.
  unfold extractComponentRelationships. rewrite in_map_iff.
  intros [[k c] [Heq Hin]]. simpl in Heq. inversion Heq; subst.
  exists c. split; [assumption | reflexivity].
Qed.

Lemma extract_keys (repo : Checkout) (components : Components) :
  JsObj.keys (extractComponentRelationships repo components) = JsObj.keys components.
Proof.
  unfold extractComponentRelationships, JsObj.keys. rewrite map_map. reflexivity.
Qed.

Lemma related_keys (repo : Checkout) (units : list SourceUnit) :
  NoDup (JsObj.keys (relatedComponents repo units)).
Proof.
  unfold relatedComponents. rewrite extract_keys. apply parseComponents_fresh.
Qed.

Lemma related_entry (repo : Checkout) (units : list SourceUnit)
    (key : string) (related : ComponentDefinition.t) :
  In (key, related) (relatedComponents repo units) ->
  exists parsed,
    In (key, parsed) (parseComponents units)
    /\ ComponentDefinition.name parsed = key
    /\ ComponentDefinition.requires parsed = []
    /\ notAnalyzed parsed
    /\ related = relateComponent repo key parsed.
Proof.
  intros Hin. apply extract_entries in Hin. destruct Hin as [parsed [Hparsed ->]].
  destruct (proj2 (parseComponents_fresh units) key parsed Hparsed)
    as [Hname [Hreq Hana]].
  exists parsed. auto.
Qed.



(** Scenario 2 of the specification, on a checkout where the component's
    file has no tag and no call. *)
Example static_entry_alone :
  map (fun e => (fst e, ComponentDefinition.requires (snd e)))
    (relatedComponents
       (fun _ => Some {| requiresMatch := None; callMatches := [] |})
       [sourceUnit "packages/core/src/grab.ts" ["OneHandGrabbable"]])
  = [("OneHandGrabbable", ["Interactable"])].
Proof.
  reflexivity.
Qed.

(** The names of a tag are pushed after the table entry and before the
    names of the calls. *)
Example tag_names_follow_the_table_entry :
  map (fun e => (fst e, ComponentDefinition.requires (snd e)))
    (relatedComponents taggedRepo
       [sourceUnit "packages/core/src/grab.ts" ["OneHandGrabbable"]])
  = [("OneHandGrabbable", ["Interactable"; "Hovered"; "Pressed"; "GrabSource"])].
Proof.
  reflexivity.
Qed.

(** ** Co-occurrence analysis *)

Lemma setUsedBySystems_same (c : ComponentDefinition.t) :
  c = ComponentDefinition.setUsedBySystems c (ComponentDefinition.usedBySystems c).
Proof.
  destruct c. reflexivity.
Qed.

Lemma addSystem_entries (systemName componentName : string) (components : Components)
    (key : string) (crossed : ComponentDefinition.t) :
  In (key, crossed) (addSystem systemName components componentName) ->
  exists component,
    In (key, component) components
    /\ crossed = ComponentDefinition.setUsedBySystems component
                   (ComponentDefinition.usedBySystems crossed).
Proof.
  unfold addSystem.
  destruct (JsObj.get componentName components) as [component |] eqn:Hget.
  - destruct (includes (ComponentDefinition.usedBySystems component) systemName).
    + intros Hin. exists crossed. split; [assumption | apply setUsedBySystems_same].
    + intros Hin. apply set_In in Hin. destruct Hin as [[-> ->] | Hin].
      * exists component. split; [now apply In_of_get | reflexivity].
      * exists crossed. split; [assumption | apply setUsedBySystems_same].
  - intros Hin. exists crossed. split; [assumption | apply setUsedBySystems_same].
Qed.

Lemma addSystems_entries (systemName : string) (names : list string) :
  forall (components : Components) (key : string) (crossed : ComponentDefinition.t),
    In (key, crossed) (fold_left (addSystem systemName) names components) ->
    exists component,
      In (key, component) components
      /\ crossed = ComponentDefinition.setUsedBySystems component
                     (ComponentDefinition.usedBySystems crossed).
Proof.
  induction names as [| n r IH]; intros components key crossed Hin;
    cbn [fold_left] in Hin.
  - exists crossed. split; [assumption | apply setUsedBySystems_same].
  - destruct (IH _ _ _ Hin) as [c1 [Hc1 Heq1]].
    destruct (addSystem_entries _ _ _ _ _ Hc1) as [c0 [Hc0 Heq0]].
    exists c0. split; [assumption |].
    rewrite Heq1, Heq0. reflexivity.
Qed.

(** The cross-reference pass touches [usedBySystems] only. *)
Lemma crossReference_entries (systems : Systems) :
  forall (components : Components) (key : string) (crossed : ComponentDefinition.t),
    In (key, crossed) (buildSystemComponentRelationships systems components) ->
    exists component,
      In (key, component) components
      /\ crossed = ComponentDefinition.setUsedBySystems component
                     (ComponentDefinition.usedBySystems crossed).
Proof.
  unfold buildSystemComponentRelationships.
  generalize (JsObj.values systems). intros list.
  induction list as [| system r IH]; intros components key crossed Hin;
    cbn [fold_left] in Hin.
  - exists crossed. split; [assumption | apply setUsedBySystems_same].
  - destruct (IH _ _ _ Hin) as [c1 [Hc1 Heq1]].
    destruct (addSystems_entries _ _ _ _ _ Hc1) as [c0 [Hc0 Heq0]].
    exists c0. split; [assumption |].
    rewrite Heq1, Heq0. reflexivity.
Qed.

Lemma countOther_stored (componentName k other : string) (counts : JsObj.t nat) :
  storedCount k (countOther componentName counts other)
  = storedCount k counts
    + (if negb (String.eqb other componentName) && String.eqb k other then 1 else 0).
Proof.
  unfold countOther, storedCount.
  destruct (String.eqb other componentName); simpl; [lia |].
  destruct (String.eqb_spec k other) as [-> | Hne].
  - rewrite get_set_same. reflexivity.
  - rewrite get_set_other by assumption. lia.
Qed.

Lemma countOther_keys (componentName other : string) (counts : JsObj.t nat) :
  NoDup (JsObj.keys counts) ->
  NoDup (JsObj.keys (countOther componentName counts other)).
Proof.
  unfold countOther. destruct (String.eqb other componentName); [auto |].
  apply set_keys_NoDup.
Qed.

Lemma countNames_stored (componentName k : string) (names : list string)
    (counts : JsObj.t nat) :
  storedCount k (fold_left (countOther componentName) names counts)
  = storedCount k counts
    + (if String.eqb k componentName then 0 else occurrences k names).
Proof.
  revert counts. unfold occurrences.
  induction names as [| other r IH]; intros counts; simpl.
  - destruct (String.eqb k componentName); lia.
  - rewrite IH, countOther_stored.
    destruct (String.eqb_spec k other) as [-> | Hne].
    + destruct (String.eqb other componentName); simpl; lia.
    + rewrite andb_false_r. lia.
Qed.

Lemma countNames_keys (componentName : string) (names : list string)
    (counts : JsObj.t nat) :
  NoDup (JsObj.keys counts) ->
  NoDup (JsObj.keys (fold_left (countOther componentName) names counts)).
Proof.
  revert counts. induction names as [| other r IH]; intros counts Hnd; simpl.
  - assumption.
  - apply IH. now apply countOther_keys.
Qed.

Lemma countExamples_stored (componentName k : string) (examples : list ExampleCode.t)
    (counts : JsObj.t nat) :
  storedCount k (fold_left (countExample componentName) examples counts)
  = storedCount k counts
    + (if String.eqb k componentName then 0 else occurrencesIn k examples).
Proof.
  revert counts. unfold occurrencesIn.
  induction examples as [| ex r IH]; intros counts; simpl.
  - destruct (String.eqb k componentName); lia.
  - rewrite IH. unfold countExample. rewrite countNames_stored.
    destruct (String.eqb k componentName); lia.
Qed.

Lemma countExamples_keys (componentName : string) (examples : list ExampleCode.t)
    (counts : JsObj.t nat) :
  NoDup (JsObj.keys counts) ->
  NoDup (JsObj.keys (fold_left (countExample componentName) examples counts)).
Proof.
  revert counts. induction examples as [| ex r IH]; intros counts Hnd; simpl.
  - assumption.
  - apply IH. unfold countExample. now apply countNames_keys.
Qed.

Lemma countOther_not_self (componentName other : string) (counts : JsObj.t nat) :
  ~ In componentName (JsObj.keys counts) ->
  ~ In componentName (JsObj.keys (countOther componentName counts other)).
Proof.
  unfold countOther. destruct (String.eqb_spec other componentName) as [_ | Hne]; [auto |].
  rewrite set_keys. destruct (includes (JsObj.keys counts) other); [auto |].
  rewrite in_app_iff. simpl. intuition.
Qed.

Lemma countExamples_not_self (componentName : string) (examples : list ExampleCode.t)
    (counts : JsObj.t nat) :
  ~ In componentName (JsObj.keys counts) ->
  ~ In componentName
      (JsObj.keys (fold_left (countExample componentName) examples counts)).
Proof.
  revert counts. induction examples as [| ex r IH]; intros counts Hnotin; simpl.
  - assumption.
  - apply IH. unfold countExample. clear IH.
    revert counts Hnotin.
    induction (ExampleCode.componentsUsed ex) as [| other names IHn];
      intros counts Hnotin; simpl; [assumption |].
    apply IHn. now apply countOther_not_self.
Qed.

(** What the local [coOccurrences] counter holds after the counting loops. *)
Lemma counted_entry (componentName k : string) (n : nat)
    (examples : list ExampleCode.t) :
  In (k, n) (countCoOccurrences componentName examples) ->
  k <> componentName /\ n = occurrencesIn k examples.
Proof.
  intros Hin. unfold countCoOccurrences in *.
  assert (Hk : k <> componentName).
  { intros ->. apply (countExamples_not_self componentName examples []); [intros [] |].
    apply (in_map fst) in Hin. exact Hin. }
  split; [assumption |].
  apply get_of_In in Hin; [| apply countExamples_keys; constructor].
  generalize (countExamples_stored componentName k examples []).
  unfold storedCount at 1. rewrite Hin. simpl.
  destruct (String.eqb_spec k componentName); [contradiction | auto].
Qed.

Lemma store_appends (total : nat) (counts : JsObj.t nat) (target : JsObj.t Q) :
  NoDup (JsObj.keys target ++ JsObj.keys counts) ->
  storeFrequencies total counts target
  = target ++ map (fun e => (fst e, ratio (snd e) total)) counts.
Proof.
  unfold storeFrequencies. revert target.
  induction counts as [| [k n] r IH]; intros target Hnd; simpl.
  - now rewrite app_nil_r.
  - apply NoDup_remove in Hnd. destruct Hnd as [Hnd Hnotin].
    rewrite set_absent by (intros H; apply Hnotin, in_or_app; now left).
    rewrite IH.
    + now rewrite <- app_assoc.
    + unfold JsObj.keys. rewrite map_app. simpl. rewrite <- app_assoc. simpl.
      apply NoDup_middle_insert; assumption.
Qed.

Lemma occurrences_NoDup (l : list string) (x : string) :
  NoDup l -> In x l -> occurrences x l = 1.
Proof.
  unfold occurrences. induction 1 as [| a r Hnotin _ IH]; simpl; [intros [] |].
  intros [-> | Hin].
  - rewrite String.eqb_refl. simpl. f_equal.
    rewrite filter_none; [reflexivity |].
    intros y Hy. destruct (String.eqb_spec x y); [subst; contradiction | reflexivity].
  - destruct (String.eqb_spec x a) as [-> | _]; [contradiction | now apply IH].
Qed.

Lemma occurrences_once (l : list string) (x : string) :
  NoDup l -> occurrences x l = if includes l x then 1 else 0.
Proof.
  intros Hnd. destruct (includes l x) eqn:Hx.
  - apply occurrences_NoDup; [assumption | now apply includes_In].
  - unfold occurrences. rewrite filter_none; [reflexivity |].
    intros y Hy. destruct (String.eqb_spec x y) as [-> | _]; [| reflexivity].
    apply includes_false in Hx. contradiction.
Qed.

Lemma occurrencesIn_examples (other : string) (examples : list ExampleCode.t) :
  (forall ex, In ex examples -> NoDup (ExampleCode.componentsUsed ex)) ->
  occurrencesIn other examples = examplesContaining other examples.
Proof.
  unfold occurrencesIn, examplesContaining, examplesWith.
  induction examples as [| ex r IH]; intros Hnd; simpl; [reflexivity |].
  rewrite IH by (intros; apply Hnd; now right).
  rewrite occurrences_once by (apply Hnd; now left).
  destruct (includes (ExampleCode.componentsUsed ex) other); reflexivity.
Qed.

Lemma examplesContaining_le (other : string) (examples : list ExampleCode.t) :
  examplesContaining other examples <= List.length examples.
Proof.
  unfold examplesContaining, examplesWith. apply filter_length_le.
Qed.

Lemma analyze_entries (components : Components) (examples : list ExampleCode.t)
    (key : string) (result : ComponentDefinition.t) :
  In (key, result) (analyzeComponentCoOccurrences components examples) ->
  exists component,
    In (key, component) components /\ result = analyzeComponent examples component.
Proof.
  unfold analyzeComponentCoOccurrences. rewrite in_map_iff.
  intros [[k c] [Heq Hin]]. simpl in Heq. inversion Heq; subst.
  exists c. split; [assumption | reflexivity].
Qed.

(** The two fields the pass writes, for a record that was not analyzed yet. *)
Lemma analyzeComponent_fields (examples : list ExampleCode.t)
    (component : ComponentDefinition.t) :
  notAnalyzed component ->
  let withThis := examplesWith (ComponentDefinition.name component) examples in
  let counts := countCoOccurrences (ComponentDefinition.name component) withThis in
  let result := analyzeComponent examples component in
  ComponentDefinition.name result = ComponentDefinition.name component
  /\ ComponentDefinition.coOccurrences result
     = match withThis with
       | [] => []
       | _ => map (fun e => (fst e, ratio (snd e) (List.length withThis))) counts
       end
  /\ ComponentDefinition.optionalWith result
     = map fst (filter (fun e => inOptionalBand (snd e))
                  (ComponentDefinition.coOccurrences result)).
Proof.
  intros [Hco Hopt]. unfold analyzeComponent.
  destruct (examplesWith (ComponentDefinition.name component) examples)
    as [| ex withThis] eqn:Hwith; cbn zeta.
  - cbn [List.length]. rewrite Hco, Hopt. repeat split; reflexivity.
  - cbn [List.length]. split; [reflexivity |].
    cbn [ComponentDefinition.setOptionalWith ComponentDefinition.setCoOccurrences
         ComponentDefinition.coOccurrences ComponentDefinition.optionalWith].
    split; [| reflexivity].
    rewrite Hco, store_appends; [reflexivity |].
    simpl. apply countExamples_keys. constructor.
Qed.

Lemma stored_keys_NoDup (examples : list ExampleCode.t)
    (component : ComponentDefinition.t) :
  notAnalyzed component ->
  NoDup (JsObj.keys
           (ComponentDefinition.coOccurrences (analyzeComponent examples component))).
Proof.
  intros Hfresh.
  destruct (analyzeComponent_fields examples component Hfresh) as [_ [-> _]].
  destruct (examplesWith (ComponentDefinition.name component) examples);
    [constructor |].
  unfold JsObj.keys. rewrite map_map. simpl.
  apply (countExamples_keys (ComponentDefinition.name component) _ []). constructor.
Qed.

(** The stored values of one analyzed record. *)
Lemma analyzed_values (examples : list ExampleCode.t)
    (component : ComponentDefinition.t) (other : string) (value : Q) :
  notAnalyzed component ->
  In (other, value)
    (ComponentDefinition.coOccurrences (analyzeComponent examples component)) ->
  let withThis := examplesWith (ComponentDefinition.name component) examples in
  ((value == quotient (occurrencesIn other withThis) (List.length withThis))%Q
   /\ (0 <= value)%Q)
  /\ ((forall ex, In ex examples -> NoDup (ExampleCode.componentsUsed ex)) ->
      (value == quotient (examplesContaining other withThis) (List.length withThis))%Q
      /\ (0 <= value <= 1)%Q).
Proof.
  intros Hfresh Hvalue.
  destruct (analyzeComponent_fields examples component Hfresh) as [_ [Hco _]].
  cbn zeta in Hco. cbn zeta. rewrite Hco in Hvalue.
  destruct (examplesWith (ComponentDefinition.name component) examples)
    as [| ex withThis] eqn:Hwith; [destruct Hvalue |].
  rewrite <- Hwith in *.
  assert (Htotal :
    List.length (examplesWith (ComponentDefinition.name component) examples) <> 0)
    by (rewrite Hwith; discriminate).
  apply in_map_iff in Hvalue. destruct Hvalue as [[k n] [Heq Hcount]].
  simpl in Heq. inversion Heq; subst. clear Heq.
  apply counted_entry in Hcount. destruct Hcount as [_ ->].
  split.
  - split; [now apply ratio_quotient | apply ratio_nonneg].
  - intros Hnd.
    rewrite occurrencesIn_examples.
    + split; [now apply ratio_quotient |].
      split; [apply ratio_nonneg |].
      apply ratio_le_1; [apply examplesContaining_le | assumption].
    + intros e He. apply Hnd. unfold examplesWith in He.
      apply filter_In in He. tauto.
Qed.

(** The [optionalWith] list of one analyzed record. *)
Lemma analyzed_band (examples : list ExampleCode.t) (component : ComponentDefinition.t) :
  notAnalyzed component ->
  let result := analyzeComponent examples component in
  (forall other,
      In other (ComponentDefinition.optionalWith result)
      <-> exists value,
          In (other, value) (ComponentDefinition.coOccurrences result)
          /\ (1 # 2 < value)%Q /\ (value < 1)%Q)
  /\ NoDup (ComponentDefinition.optionalWith result).
Proof.
  intros Hfresh. cbn zeta.
  destruct (analyzeComponent_fields examples component Hfresh) as [_ [_ Hopt]].
  cbn zeta in Hopt. rewrite Hopt. split.
  - intros other. rewrite in_map_iff. split.
    + intros [[k v] [Hk Hin]]. simpl in Hk. subst k.
      apply filter_In in Hin. destruct Hin as [Hin Hband]. simpl in Hband.
      unfold inOptionalBand in Hband. apply andb_true_iff in Hband.
      exists v. rewrite <- !Qlt_bool_iff. tauto.
    + intros [v [Hin [Hlow Hhigh]]]. exists (other, v). split; [reflexivity |].
      apply filter_In. split; [assumption |]. simpl.
      unfold inOptionalBand. apply andb_true_iff. rewrite !Qlt_bool_iff. tauto.
  - apply (keys_filter_NoDup _ (fun e => inOptionalBand (snd e))).
    now apply stored_keys_NoDup.
Qed.

(** Where a record of the cache comes from. *)
Lemma cache_entry (repo : Checkout) (units : list SourceUnit) (systems : Systems)
    (examples : list ExampleCode.t) (key : string) (result : ComponentDefinition.t) :
  In (key, result) (generateCacheComponents repo units systems examples) ->
  exists crossed,
    ComponentDefinition.name crossed = key
    /\ notAnalyzed crossed
    /\ result = analyzeComponent examples crossed.
Proof.
  unfold generateCacheComponents. intros Hin.
  apply analyze_entries in Hin. destruct Hin as [crossed [Hcrossed ->]].
  apply crossReference_entries in Hcrossed.
  destruct Hcrossed as [related [Hrelated Hsame]].
  apply related_entry in Hrelated.
  destruct Hrelated as [parsed [_ [Hname [_ [[Hco Hopt] ->]]]]].
  destruct (relateComponent_keeps repo key parsed) as [Hn [_ [Hc Ho]]].
  cbn zeta in Hn, Hc, Ho.
  exists crossed. rewrite Hsame. cbn.
  split; [congruence |]. split; [split; cbn; congruence | reflexivity].
Qed.

(** C1 (amended). In the component map of a pipeline run, every value stored
    in a record's [coOccurrences] is the number of occurrences of the other
    name in the import lists of the examples that contain this component,
    divided by the number of those examples, and is not negative; when no
    example lists a name twice, it is the number of examples containing both
    divided by the number containing this one, and lies in [0,1]. *)
Theorem coOccurrence_values
    (repo : Checkout) (units : list SourceUnit) (systems : Systems)
    (examples : list ExampleCode.t)
    (key : string) (result : ComponentDefinition.t) (other : string) (value : Q) :
  In (key, result) (generateCacheComponents repo units systems examples) ->
  In (other, value) (ComponentDefinition.coOccurrences result) ->
  let withThis := examplesWith (ComponentDefinition.name result) examples in
  ComponentDefinition.name result = key
  /\ ((value == quotient (occurrencesIn other withThis) (List.length withThis))%Q
      /\ (0 <= value)%Q)
  /\ ((forall ex, In ex examples -> NoDup (ExampleCode.componentsUsed ex)) ->
      (value == quotient (examplesContaining other withThis) (List.length withThis))%Q
      /\ (0 <= value <= 1)%Q).
Proof.
  intros Hentry Hvalue.
  destruct (cache_entry _ _ _ _ _ _ Hentry) as [crossed [Hname [Hfresh ->]]].
  destruct (analyzeComponent_fields examples crossed Hfresh) as [Hsame _].
  cbn zeta in Hsame. cbn zeta. rewrite Hsame.
  split; [assumption |].
  exact (analyzed_values examples crossed other value Hfresh Hvalue).
Qed.

Lemma coOccurrence_values_witness :
  ComponentDefinition.name physicsBodyAnalyzed = "PhysicsBody"
  /\ (((3 # 4) == quotient
                    (occurrencesIn "PhysicsShape"
                       (examplesWith "PhysicsBody" physicsExamples))
                    (List.length (examplesWith "PhysicsBody" physicsExamples)))%Q
      /\ (0 <= 3 # 4)%Q)
  /\ ((forall ex, In ex physicsExamples -> NoDup (ExampleCode.componentsUsed ex)) ->
      ((3 # 4) == quotient
                    (examplesContaining "PhysicsShape"
                       (examplesWith "PhysicsBody" physicsExamples))
                    (List.length (examplesWith "PhysicsBody" physicsExamples)))%Q
      /\ (0 <= 3 # 4 <= 1)%Q).
Proof.
  apply (coOccurrence_values sampleRepo sampleUnits [] physicsExamples
           "PhysicsBody" physicsBodyAnalyzed "PhysicsShape" (3 # 4)).
  - vm_compute. right. left. reflexivity.
  - simpl. left. reflexivity.
Defined.

(** C1 as stated fails: an example whose import list names [B] twice gives
    component [A] the value 2 for [B], although one example contains both
    and one example contains [A]. *)
Lemma coOccurrence_value_above_one :
  exists result,
    In ("A", result)
      (generateCacheComponents (fun _ => None)
         [sourceUnit "packages/core/src/a.ts" ["A"]] [] duplicatedImport)
    /\ In ("B", 2%Q) (ComponentDefinition.coOccurrences result)
    /\ ~ (2 <= 1)%Q
    /\ examplesContaining "B" (examplesWith "A" duplicatedImport) = 1
    /\ List.length (examplesWith "A" duplicatedImport) = 1.
Proof.
  eexists. split; [vm_compute; left; reflexivity |].
  split; [simpl; left; reflexivity |].
  split; [intros H; vm_compute in H; apply H; reflexivity |].
  split; reflexivity.
Qed.

(** C2. In the component map of a pipeline run, a record's [optionalWith]
    holds exactly the keys of its [coOccurrences] whose value is strictly
    between 0.5 and 1.0, each once. *)
Theorem optionalWith_is_the_band
    (repo : Checkout) (units : list SourceUnit) (systems : Systems)
    (examples : list ExampleCode.t)
    (key : string) (result : ComponentDefinition.t) :
  In (key, result) (generateCacheComponents repo units systems examples) ->
  (forall other,
      In other (ComponentDefinition.optionalWith result)
      <-> exists value,
          In (other, value) (ComponentDefinition.coOccurrences result)
          /\ (1 # 2 < value)%Q /\ (value < 1)%Q)
  /\ NoDup (ComponentDefinition.optionalWith result).
Proof.
  intros Hentry.
  destruct (cache_entry _ _ _ _ _ _ Hentry) as [crossed [_ [Hfresh ->]]].
  exact (analyzed_band examples crossed Hfresh).
Qed.

Lemma optionalWith_is_the_band_witness :
  (forall other,
      In other ["PhysicsShape"]
      <-> exists value,
          In (other, value) [("PhysicsShape", 3 # 4)]
          /\ (1 # 2 < value)%Q /\ (value < 1)%Q)
  /\ NoDup ["PhysicsShape"].
Proof.
  apply (optionalWith_is_the_band sampleRepo sampleUnits [] physicsExamples
           "PhysicsBody" physicsBodyAnalyzed).
  vm_compute. right. left. reflexivity.
Defined.

(** Scenario 3 of the specification: three of four examples import both
    physics components. *)
Example physicsBody_coOccurrence :
  JsObj.get "PhysicsBody"
    (generateCacheComponents sampleRepo sampleUnits [] physicsExamples)
  = Some physicsBodyAnalyzed.
Proof.
  reflexivity.
Qed.

(** ** Typical composition mining *)





















(** Import lists keep every occurrence the pattern finds. *)
Example harvested_import_lists :
  map ExampleCode.componentsUsed unevenImports = [["A"; "B"]; ["A"; "B"; "B"]].
Proof.
  reflexivity.
Qed.


(** Scenario 4 of the specification, from the entry files. *)
Example two_examples_one_pattern :
  extractTypicalCompositions
    [ parseExample "first" "index.ts" "import { A, B } from '@iwsdk/core';";
      parseExample "second" "main.ts" "import { B, A } from '@iwsdk/core';" ]
  = [ ComponentPattern.mk "A+B" ["A"; "B"] 1 "setup" ].
Proof.
  reflexivity.
Qed.

(** ** Derived constraints *)

Lemma constraints_of_entry (X Y k : string) (reqs : list string) :
  List.length
    (filter (constrains X Y)
       (map (fun required =>
               OrderingConstraint.mk k required
                 (k ++ " requires " ++ required ++ " to be added first")%string)
            reqs))
  = if String.eqb k X then occurrences Y reqs else 0.
Proof.
  unfold occurrences.
  induction reqs as [| r reqs IH]; cbn [map filter].
  - now destruct (String.eqb k X).
  - unfold constrains at 1.
    cbn [OrderingConstraint.before OrderingConstraint.after].
    rewrite (String.eqb_sym r Y).
    destruct (String.eqb k X); cbn [andb].
    + destruct (String.eqb Y r); cbn [List.length]; now rewrite IH.
    + exact IH.
Qed.

Lemma constraints_absent (X Y : string) (components : Components) :
  ~ In X (JsObj.keys components) ->
  List.length (filter (constrains X Y) (generateOrderingConstraints components)) = 0.
Proof.
  induction components as [| [k c] r IH]; simpl; [reflexivity |].
  intros Hnotin. rewrite filter_app, length_app, constraints_of_entry.
  destruct (String.eqb_spec k X) as [-> | _]; [exfalso; auto |].
  apply IH. auto.
Qed.

Lemma constraints_count (X Y : string) (components : Components)
    (c : ComponentDefinition.t) :
  NoDup (JsObj.keys components) ->
  In (X, c) components ->
  List.length (filter (constrains X Y) (generateOrderingConstraints components))
  = occurrences Y (ComponentDefinition.requires c).
Proof.
  induction components as [| [k c'] r IH]; simpl; [intros _ [] |].
  intros Hnd Hin. inversion Hnd as [| ? ? Hnotin Hnd']; subst.
  rewrite filter_app, length_app, constraints_of_entry.
  destruct Hin as [Heq | Hin].
  - inversion Heq; subst. rewrite String.eqb_refl.
    rewrite constraints_absent by assumption. lia.
  - destruct (String.eqb_spec k X) as [-> | _].
    + exfalso. apply Hnotin. apply (in_map fst) in Hin. exact Hin.
    + now apply IH.
Qed.

(** C5. Every ordering constraint [{before, after}] has [after] in
    [components[before].requires]; conversely, for every component [X] and
    every [Y] in [X.requires] the constraints with [before = X] and
    [after = Y] are as many as the occurrences of [Y] in [X.requires]:
    exactly one, [requires] being duplicate-free. *)
Theorem ordering_constraints_match_requires (components : Components) :
  NoDup (JsObj.keys components) ->
  (forall constraint,
      In constraint (generateOrderingConstraints components) ->
      exists c,
        JsObj.get (OrderingConstraint.before constraint) components = Some c
        /\ In (OrderingConstraint.after constraint) (ComponentDefinition.requires c))
  /\ (forall X c Y,
         In (X, c) components ->
         In Y (ComponentDefinition.requires c) ->
         List.length (filter (constrains X Y) (generateOrderingConstraints components))
         = occurrences Y (ComponentDefinition.requires c)
         /\ (NoDup (ComponentDefinition.requires c) ->
             List.length
               (filter (constrains X Y) (generateOrderingConstraints components))
             = 1)).
Proof.
  intros Hkeys. split.
  - intros constraint Hin. unfold generateOrderingConstraints in Hin.
    apply in_flat_map in Hin. destruct Hin as [[k c] [Hentry Hmap]].
    apply in_map_iff in Hmap. destruct Hmap as [required [<- Hreq]]. simpl.
    exists c. split; [now apply get_of_In | assumption].
  - intros X c Y Hentry Hreq.
    rewrite (constraints_count X Y components c Hkeys Hentry).
    split; [reflexivity |].
    intros Hnd. now apply occurrences_NoDup.
Qed.

Lemma ordering_constraints_match_requires_witness :
  List.length
    (filter (constrains "OneHandGrabbable" "Interactable")
       (generateOrderingConstraints (relatedComponents sampleRepo sampleUnits)))
  = 1.
Proof.
  apply (ordering_constraints_match_requires (relatedComponents sampleRepo sampleUnits))
    with (c := grabbableRelated).
  - apply related_keys.
  - vm_compute. left. reflexivity.
  - simpl. left. reflexivity.
  - repeat constructor; simpl; intuition discriminate.
Defined.

Lemma requiresRuleId_inj (a b : string) :
  requiresRuleId a = requiresRuleId b -> a = b.
Proof.
  unfold requiresRuleId. simpl. intros H. inversion H as [H'].
  now apply append_cancel_r in H'.
Qed.

Lemma nonempty_length (l : list string) : (0 <? List.length l) = true <-> l <> [].
Proof.
  destruct l; simpl; split; try congruence; try discriminate. reflexivity.
Qed.

Lemma componentRules_error (e : string * ComponentDefinition.t) (r : ValidationRule.t) :
  In r (componentRules e) /\ ValidationRule.severity r = error
  <-> ComponentDefinition.requires (snd e) <> [] /\ r = requiresRule (fst e) (snd e).
Proof.
  unfold componentRules. rewrite in_app_iff.
  destruct (ComponentDefinition.requires (snd e)) eqn:Hreq;
    destruct (ComponentDefinition.usedBySystems (snd e)) eqn:Hsys; simpl.
  - split; [intros [[[] | []] _] | intros [H _]; congruence].
  - split; [| intros [H _]; congruence].
    intros [[[] | [<- | []]] H]. discriminate H.
  - split.
    + intros [[[<- | []] | []] _]. split; [discriminate |].
      unfold requiresRule. now rewrite Hreq.
    + intros [_ ->]. split; [| reflexivity]. left. left.
      unfold requiresRule. now rewrite Hreq.
  - split.
    + intros [[[<- | []] | [<- | []]] H]; [| discriminate H].
      split; [discriminate |]. unfold requiresRule. now rewrite Hreq.
    + intros [_ ->]. split; [| reflexivity]. left. left.
      unfold requiresRule. now rewrite Hreq.
Qed.

Lemma componentRules_count (name : string) (e : string * ComponentDefinition.t) :
  List.length (filter (isRequiresRuleOf name) (componentRules e))
  = if String.eqb (fst e) name
    then (if 0 <? List.length (ComponentDefinition.requires (snd e)) then 1 else 0)
    else 0.
Proof.
  unfold componentRules, isRequiresRuleOf. rewrite filter_app, length_app.
  assert (Hsys :
    List.length
      (filter (fun r => isError r && String.eqb (ValidationRule.id r) (requiresRuleId name))
         (if 0 <? List.length (ComponentDefinition.usedBySystems (snd e))
          then [systemRule (fst e) (snd e)] else [])) = 0).
  { destruct (0 <? List.length (ComponentDefinition.usedBySystems (snd e))); reflexivity. }
  rewrite Hsys, Nat.add_0_r.
  destruct (0 <? List.length (ComponentDefinition.requires (snd e))).
  - cbn [filter isError requiresRule ValidationRule.severity ValidationRule.id andb].
    fold (requiresRuleId (fst e)).
    destruct (String.eqb_spec (fst e) name) as [-> | Hne].
    + now rewrite String.eqb_refl.
    + destruct (String.eqb_spec (requiresRuleId (fst e)) (requiresRuleId name)) as [H | _];
        [apply requiresRuleId_inj in H; contradiction | reflexivity].
  - now destruct (String.eqb (fst e) name).
Qed.

Lemma systemRules_no_error (name : string) (systems : Systems) :
  filter (isRequiresRuleOf name) (flat_map systemRules systems) = [].
Proof.
  induction systems as [| e r IH]; simpl; [reflexivity |].
  rewrite filter_app, IH, app_nil_r. unfold systemRules.
  destruct (0 <? List.length (SystemDefinition.queriesComponents (snd e))); reflexivity.
Qed.

Lemma requires_rules_absent (name : string) (components : Components) :
  ~ In name (JsObj.keys components) ->
  List.length (filter (isRequiresRuleOf name) (flat_map componentRules components)) = 0.
Proof.
  induction components as [| e r IH]; simpl; [reflexivity |].
  intros Hnotin. rewrite filter_app, length_app, componentRules_count.
  destruct (String.eqb_spec (fst e) name) as [Heq | _]; [exfalso; auto |].
  apply IH. auto.
Qed.

Lemma requires_rules_count (name : string) (c : ComponentDefinition.t)
    (components : Components) :
  NoDup (JsObj.keys components) ->
  In (name, c) components ->
  ComponentDefinition.requires c <> [] ->
  List.length (filter (isRequiresRuleOf name) (flat_map componentRules components)) = 1.
Proof.
  induction components as [| e r IH]; simpl; [intros _ [] |].
  intros Hnd Hin Hreq. inversion Hnd as [| ? ? Hnotin Hnd']; subst.
  rewrite filter_app, length_app, componentRules_count.
  destruct Hin as [-> | Hin]; simpl.
  - rewrite String.eqb_refl, (proj2 (nonempty_length _) Hreq).
    now rewrite requires_rules_absent.
  - destruct (String.eqb_spec (fst e) name) as [Heq | _].
    + exfalso. apply Hnotin. rewrite Heq. apply (in_map fst) in Hin. exact Hin.
    + now apply IH.
Qed.

(** C6. Every validation rule has severity [error] or [warning]; the rules of
    severity [error] are exactly the rules [component-<name>-requires] of the
    components whose [requires] is not empty, one per such component. *)
Theorem error_rules_name_requiring_components
    (components : Components) (systems : Systems) :
  NoDup (JsObj.keys components) ->
  (forall r, In r (generateValidationRules components systems) ->
             ValidationRule.severity r = error \/ ValidationRule.severity r = warning)
  /\ (forall r,
         In r (generateValidationRules components systems)
         /\ ValidationRule.severity r = error
         <-> exists name c,
             In (name, c) components
             /\ ComponentDefinition.requires c <> []
             /\ r = requiresRule name c)
  /\ (forall r,
         In r (generateValidationRules components systems) ->
         ValidationRule.severity r = error ->
         exists name c,
           In (name, c) components
           /\ ComponentDefinition.requires c <> []
           /\ ValidationRule.id r = ("component-" ++ name ++ "-requires")%string)
  /\ (forall name c,
         In (name, c) components ->
         ComponentDefinition.requires c <> [] ->
         List.length
           (filter (isRequiresRuleOf name) (generateValidationRules components systems))
         = 1).
Proof.
  intros Hkeys.
  assert (Hiff : forall r,
             In r (generateValidationRules components systems)
             /\ ValidationRule.severity r = error
             <-> exists name c,
                 In (name, c) components
                 /\ ComponentDefinition.requires c <> []
                 /\ r = requiresRule name c).
  { intros r. unfold generateValidationRules. rewrite !in_app_iff. split.
    - intros [[Hin | [Hin | [<- | []]]] Hsev].
      + apply in_flat_map in Hin. destruct Hin as [[name c] [Hentry Hrule]].
        destruct (proj1 (componentRules_error (name, c) r) (conj Hrule Hsev))
          as [Hreq ->].
        exists name, c. auto.
      + apply in_flat_map in Hin. destruct Hin as [e [_ Hrule]].
        unfold systemRules in Hrule.
        destruct (0 <? List.length (SystemDefinition.queriesComponents (snd e)));
          [destruct Hrule as [<- | []]; discriminate Hsev | destruct Hrule].
      + discriminate Hsev.
    - intros [name [c [Hentry [Hreq ->]]]]. split; [| reflexivity].
      left. apply in_flat_map. exists (name, c). split; [assumption |].
      apply (componentRules_error (name, c)). auto. }
  split; [| split; [exact Hiff | split]].
  - intros r _. destruct (ValidationRule.severity r); auto.
  - intros r Hin Hsev.
    destruct (proj1 (Hiff r) (conj Hin Hsev)) as [name [c [Hentry [Hreq ->]]]].
    exists name, c. auto.
  - intros name c Hentry Hreq. unfold generateValidationRules.
    rewrite !filter_app, !length_app, systemRules_no_error.
    rewrite (requires_rules_count name c components Hkeys Hentry Hreq).
    reflexivity.
Qed.

Lemma error_rules_name_requiring_components_witness :
  List.length
    (filter (isRequiresRuleOf "OneHandGrabbable")
       (generateValidationRules (relatedComponents sampleRepo sampleUnits) []))
  = 1.
Proof.
  apply (error_rules_name_requiring_components
           (relatedComponents sampleRepo sampleUnits) [])
    with (c := grabbableRelated).
  - apply related_keys.
  - vm_compute. left. reflexivity.
  - discriminate.
Defined.

(** ** Telemetry sink *)

Lemma singleLine_append (a b : string) :
  singleLine (a ++ b)%string = singleLine a && singleLine b.
Proof.
  induction a as [| c a IH]; simpl; [reflexivity |].
  now rewrite IH, andb_assoc.
Qed.

Lemma escapeChar_singleLine (c : ascii) : singleLine (escapeChar c) = true.
Proof.
  destruct c as [[] [] [] [] [] [] [] []]; reflexivity.
Qed.

Lemma hexDigit_singleLine (n : nat) (s : string) :
  n < 16 -> singleLine (String (hexDigit n) s) = singleLine s.
Proof.
  intros H. do 16 (destruct n as [| n]; [reflexivity |]). lia.
Qed.

Lemma escapeSurrogate_singleLine (c1 c2 : ascii) :
  singleLine (escapeSurrogate c1 c2) = true.
Proof.
  unfold escapeSurrogate. cbv zeta.
  set (unit := nat_of_ascii c1 mod 64 * 64 + nat_of_ascii c2 mod 64).
  assert (H1 : nat_of_ascii c1 mod 64 < 64) by (apply Nat.mod_upper_bound; discriminate).
  assert (H2 : nat_of_ascii c2 mod 64 < 64) by (apply Nat.mod_upper_bound; discriminate).
  assert (H3 : unit / 256 < 16) by (apply Nat.Div0.div_lt_upper_bound; unfold unit; lia).
  assert (H4 : (unit / 16) mod 16 < 16) by (apply Nat.mod_upper_bound; discriminate).
  assert (H5 : unit mod 16 < 16) by (apply Nat.mod_upper_bound; discriminate).
  change (singleLine (String (hexDigit (unit / 256))
                        (String (hexDigit ((unit / 16) mod 16))
                           (String (hexDigit (unit mod 16)) EmptyString))) = true).
  now rewrite !hexDigit_singleLine.
Qed.

Lemma escapeString_singleLine (s : string) : singleLine (escapeString s) = true.
Proof.
  assert (H : forall n s, String.length s <= n -> singleLine (escapeString s) = true).
  { intros n. induction n as [| n IH]; intros [| c r] Hlen; try reflexivity.
    - simpl in Hlen. lia.
    - simpl in Hlen. cbn [escapeString].
      assert (Hr : singleLine (escapeChar c ++ escapeString r) = true).
      { rewrite singleLine_append, escapeChar_singleLine. apply IH. lia. }
      destruct r as [| c1 [| c2 r2]]; try exact Hr.
      destruct (isSurrogate c c1); [| exact Hr].
      rewrite singleLine_append, escapeSurrogate_singleLine.
      apply IH. simpl in Hlen. lia. }
  now apply (H (String.length s)).
Qed.

Lemma quoteJSON_singleLine (s : string) : singleLine (quoteJSON s) = true.
Proof.
  unfold quoteJSON. cbn [singleLine].
  rewrite singleLine_append, escapeString_singleLine. reflexivity.
Qed.

Lemma numeralText_singleLine (numeral : list NumeralChar) :
  singleLine (numeralText numeral) = true.
Proof.
  induction numeral as [| c r IH]; [reflexivity |].
  cbn [numeralText fold_right singleLine]. fold (numeralText r).
  rewrite IH. now destruct c.
Qed.

Lemma join_singleLine (sep : string) (parts : list string) :
  singleLine sep = true ->
  Forall (fun s => singleLine s = true) parts ->
  singleLine (join sep parts) = true.
Proof.
  intros Hsep. induction 1 as [| s r Hs Hr IH]; [reflexivity |].
  cbn [join]. destruct r as [| s' r']; [assumption |].
  rewrite !singleLine_append, Hs, Hsep. exact IH.
Qed.

Lemma stringify_singleLine (value : JsValue) :
  forall s, stringify value = Returned (Some s) -> singleLine s = true.
Proof.
  induction value as [| | b | numeral | | s0 | n | items IH | props IH]
    using JsValue_tree_ind;
    intros s Hs; cbn [stringify] in Hs.
  - discriminate Hs.
  - inversion Hs. reflexivity.
  - inversion Hs. now destruct b.
  - inversion Hs. apply numeralText_singleLine.
  - inversion Hs. reflexivity.
  - inversion Hs. apply quoteJSON_singleLine.
  - discriminate Hs.
  - match type of Hs with
    | match ?parts with _ => _ end = _ => destruct parts as [strs | e] eqn:Hparts
    end; [| discriminate Hs].
    inversion Hs. subst s. clear Hs.
    cbn [singleLine]. rewrite singleLine_append. cbn [singleLine].
    rewrite andb_true_r. simpl.
    apply join_singleLine; [reflexivity |].
    revert strs Hparts. induction IH as [| x r Hx _ IHr]; intros strs Hparts.
    + inversion Hparts. constructor.
    + destruct (stringify x) as [item | e] eqn:Hitem; [| discriminate Hparts].
      match type of Hparts with
      | match ?rest with _ => _ end = _ => destruct rest as [strs' | e] eqn:Hrest
      end; [| discriminate Hparts].
      inversion Hparts. subst strs. constructor.
      * destruct item as [s |]; [now apply Hx | reflexivity].
      * now apply IHr.
  - match type of Hs with
    | match ?parts with _ => _ end = _ => destruct parts as [strs | e] eqn:Hparts
    end; [| discriminate Hs].
    inversion Hs. subst s. clear Hs.
    cbn [singleLine]. rewrite singleLine_append. cbn [singleLine].
    rewrite andb_true_r. simpl.
    apply join_singleLine; [reflexivity |].
    revert strs Hparts. induction IH as [| [k x] r Hx _ IHr]; intros strs Hparts.
    + inversion Hparts. constructor.
    + destruct (stringify x) as [item | e] eqn:Hitem; [| discriminate Hparts].
      match type of Hparts with
      | match ?rest with _ => _ end = _ => destruct rest as [strs' | e] eqn:Hrest
      end; [| discriminate Hparts].
      destruct item as [s |]; inversion Hparts; subst strs.
      * constructor; [| now apply IHr].
        simpl in Hx.
        change (singleLine (quoteJSON k ++ ":" ++ s) = true).
        rewrite !singleLine_append, quoteJSON_singleLine.
        cbn [singleLine andb]. rewrite (Hx s Hitem). reflexivity.
      * now apply IHr.
Qed.

Lemma stringify_event (timestamp toolName : string) (payload : JsValue) :
  stringify (JsObject [ ("timestamp", JsString timestamp);
                        ("tool", JsString toolName);
                        ("params", payload) ])
  = match stringify payload with
    | Thrown e => Thrown e
    | Returned (Some paramsJSON) =>
        Returned (Some (telemetryLine timestamp toolName paramsJSON))
    | Returned None =>
        Returned (Some ("{" ++ join ","
                                 [ (quoteJSON "timestamp" ++ ":" ++ quoteJSON timestamp)%string;
                                   (quoteJSON "tool" ++ ":" ++ quoteJSON toolName)%string ]
                            ++ "}")%string)
    end.
Proof.
  cbn [stringify]. destruct (stringify payload) as [[s |] | e]; reflexivity.
Qed.

Lemma stringify_object_defined (props : list (string * JsValue)) :
  stringify (JsObject props) <> Returned None.
Proof.
  cbn [stringify].
  match goal with
  | |- match ?parts with _ => _ end <> _ => destruct parts
  end; discriminate.
Qed.

Lemma sanitize_from (params sanitized : JsObj.t JsValue) :
  NoDup (JsObj.keys sanitized ++ JsObj.keys params) ->
  fold_left (fun acc e => JsObj.set (fst e) (sanitizeValue (snd e)) acc) params sanitized
  = sanitized ++ map (fun e => (fst e, sanitizeValue (snd e))) params.
Proof.
  revert sanitized. induction params as [| [k v] r IH]; intros sanitized Hnd; simpl.
  - now rewrite app_nil_r.
  - apply NoDup_remove in Hnd. destruct Hnd as [Hnd Hnotin].
    rewrite set_absent by (intros H; apply Hnotin, in_or_app; now left).
    rewrite IH.
    + now rewrite <- app_assoc.
    + unfold JsObj.keys. rewrite map_app. simpl. rewrite <- app_assoc. simpl.
      apply NoDup_middle_insert; assumption.
Qed.

Lemma stringify_serializable (value : JsValue) :
  serializable value = true -> exists result, stringify value = Returned result.
Proof.
  induction value as [| | b | numeral | | s0 | n | items IH | props IH]
    using JsValue_tree_ind;
    intros Hs; cbn [stringify]; try (eexists; reflexivity).
  - discriminate Hs.
  - cbn [serializable] in Hs.
    assert (Hparts : exists strs,
               (fix elements (l : list JsValue) : Outcome (list string) :=
                  match l with
                  | [] => Returned []
                  | x :: r =>
                      match stringify x with
                      | Thrown e => Thrown e
                      | Returned item =>
                          match elements r with
                          | Thrown e => Thrown e
                          | Returned rest =>
                              Returned (match item with Some s => s | None => "null" end
                                        :: rest)
                          end
                      end
                  end) items = Returned strs).
    { induction IH as [| x r Hx _ IHr]; [eexists; reflexivity |].
      cbn [forallb] in Hs. apply andb_true_iff in Hs. destruct Hs as [Hx' Hr'].
      destruct (Hx Hx') as [item ->]. destruct (IHr Hr') as [rest ->].
      eexists. reflexivity. }
    destruct Hparts as [strs ->]. eexists. reflexivity.
  - cbn [serializable] in Hs.
    assert (Hparts : exists strs,
               (fix members (l : list (string * JsValue)) : Outcome (list string) :=
                  match l with
                  | [] => Returned []
                  | (k, x) :: r =>
                      match stringify x with
                      | Thrown e => Thrown e
                      | Returned item =>
                          match members r with
                          | Thrown e => Thrown e
                          | Returned rest =>
                              Returned (match item with
                                        | Some s => (quoteJSON k ++ ":" ++ s)%string :: rest
                                        | None => rest
                                        end)
                          end
                      end
                  end) props = Returned strs).
    { induction IH as [| [k x] r Hx _ IHr]; [eexists; reflexivity |].
      cbn [forallb snd] in Hs. apply andb_true_iff in Hs. destruct Hs as [Hx' Hr'].
      cbn [snd] in Hx.
      destruct (Hx Hx') as [item ->]. destruct (IHr Hr') as [rest ->].
      eexists. reflexivity. }
    destruct Hparts as [strs ->]. eexists. reflexivity.
Qed.

Lemma sanitizeValue_serializable (value : JsValue) :
  serializable (sanitizeValue value) = serializable value.
Proof.
  destruct value; try reflexivity.
  cbn [sanitizeValue]. now destruct (500 <? jsLength s).
Qed.

Lemma set_serializable (k : string) (v : JsValue) (o : JsObj.t JsValue) :
  serializable v = true ->
  forallb (fun e => serializable (snd e)) o = true ->
  forallb (fun e => serializable (snd e)) (JsObj.set k v o) = true.
Proof.
  intros Hv. induction o as [| [k' v'] r IH]; intros Ho; cbn [JsObj.set forallb snd].
  - now rewrite Hv.
  - cbn [forallb snd] in Ho. apply andb_true_iff in Ho. destruct Ho as [Ho1 Ho2].
    destruct (String.eqb k k'); cbn [forallb snd].
    + now rewrite Hv, Ho2.
    + now rewrite Ho1, IH.
Qed.

Lemma sanitizeParams_serializable (params : JsObj.t JsValue) :
  forallb (fun e => serializable (snd e)) params = true ->
  exists paramsJSON,
    stringify (JsObject (sanitizeParams params)) = Returned (Some paramsJSON).
Proof.
  intros Hs.
  assert (H : forall acc,
             forallb (fun e => serializable (snd e)) acc = true ->
             forallb (fun e => serializable (snd e))
               (fold_left (fun sanitized e =>
                             JsObj.set (fst e) (sanitizeValue (snd e)) sanitized)
                  params acc) = true).
  { induction params as [| [k v] r IH]; intros acc Hacc; [exact Hacc |].
    cbn [forallb snd] in Hs. apply andb_true_iff in Hs. destruct Hs as [Hv Hr].
    cbn [fold_left fst snd]. apply (IH Hr).
    apply set_serializable; [| exact Hacc].
    now rewrite sanitizeValue_serializable. }
  specialize (H [] eq_refl). fold (sanitizeParams params) in H.
  destruct (stringify_serializable (JsObject (sanitizeParams params)) H)
    as [[paramsJSON |] Hr].
  - now exists paramsJSON.
  - exfalso. now apply (stringify_object_defined (sanitizeParams params)).
Qed.

(** The ways the body of [logToolCall] can go. *)
Lemma logBody_run (toolName : string) (params : JsObj.t JsValue) (w : World) :
  (directoryReady w = false /\ logBody toolName params w = (Thrown "mkdir failed", w))
  \/ (directoryReady w = true
      /\ exists w0,
          telemetryFile w0 = telemetryFile w
          /\ errorLog w0 = errorLog w
          /\ ((exists e,
                  stringify (JsObject (sanitizeParams params)) = Thrown e
                  /\ logBody toolName params w = (Thrown e, w0))
              \/ (exists paramsJSON,
                     stringify (JsObject (sanitizeParams params))
                     = Returned (Some paramsJSON)
                     /\ appendFails w = true
                     /\ logBody toolName params w = (Thrown "appendFile failed", w0))
              \/ (exists paramsJSON w1,
                     stringify (JsObject (sanitizeParams params))
                     = Returned (Some paramsJSON)
                     /\ appendFails w = false
                     /\ logBody toolName params w = (Returned tt, w1)
                     /\ telemetryFile w1
                        = (telemetryFile w
                           ++ telemetryLine (clock w) toolName paramsJSON ++ newline)%string
                     /\ errorLog w1 = errorLog w))).
Proof.
  remember (logBody toolName params w) as result eqn:E.
  unfold logBody, bind, existsSync, mkdir, toISOString in E.
  unfold directoryReady.
  destruct (directoryExists w) eqn:D; cbn [negb orb] in *.
  - unfold ret at 1 in E. cbn beta iota in E.
    unfold jsonStringify, telemetryEvent in E. rewrite stringify_event in E.
    right. split; [reflexivity |]. exists w. split; [reflexivity |].
    split; [reflexivity |].
    destruct (stringify (JsObject (sanitizeParams params))) as [[s|]|e] eqn:S.
    + unfold ret, appendFile in E. destruct (appendFails w) eqn:A.
      * right; left. exists s. now repeat split.
      * right; right. exists s. eexists. split; [reflexivity |].
        split; [reflexivity |]. split; [exact E |]. now split.
    + exfalso. now apply (stringify_object_defined _ S).
    + left. exists e. now split.
  - destruct (mkdirFails w) eqn:M; cbn [negb] in *.
    + left. now split.
    + cbn beta iota in E. unfold jsonStringify, telemetryEvent in E.
      cbn [clock] in E. rewrite stringify_event in E.
      right. split; [reflexivity |].
      exists {| directoryExists := true; mkdirFails := false;
                appendFails := appendFails w; telemetryFile := telemetryFile w;
                clock := clock w; errorLog := errorLog w |}.
      split; [reflexivity |]. split; [reflexivity |].
      destruct (stringify (JsObject (sanitizeParams params))) as [[s|]|e] eqn:S.
      * unfold ret, appendFile in E. cbn [appendFails] in E.
        destruct (appendFails w) eqn:A.
        -- right; left. exists s. split; [reflexivity |].
           split; [reflexivity |]. exact E.
        -- right; right. exists s. eexists. split; [reflexivity |].
           split; [reflexivity |]. split; [exact E |]. now split.
      * exfalso. now apply (stringify_object_defined _ S).
      * left. exists e. split; [reflexivity |]. exact E.
Qed.

(** The two ways a call of [logToolCall] can go. *)
Lemma logToolCall_outcome (toolName : string) (params : JsObj.t JsValue) (w : World) :
  (exists paramsJSON,
      directoryReady w = true
      /\ appendFails w = false
      /\ stringify (JsObject (sanitizeParams params)) = Returned (Some paramsJSON)
      /\ fst (logBody toolName params w) = Returned tt
      /\ telemetryFile (snd (logToolCall toolName params w))
         = (telemetryFile w ++ telemetryLine (clock w) toolName paramsJSON ++ newline)%string
      /\ errorLog (snd (logToolCall toolName params w)) = errorLog w)
  \/ (exists e,
         (directoryReady w = false
          \/ appendFails w = true
          \/ stringify (JsObject (sanitizeParams params)) = Thrown e)
         /\ fst (logBody toolName params w) = Thrown e
         /\ telemetryFile (snd (logToolCall toolName params w)) = telemetryFile w
         /\ errorLog (snd (logToolCall toolName params w))
            = errorLog w ++ [("Telemetry logging failed:" ++ " " ++ e)%string]).
Proof.
  unfold logToolCall, tryCatch.
  destruct (logBody_run toolName params w)
    as [[Hr E]|(Hr & w0 & Hf & He & [(e & S & E)|[(pj & S & A & E)|(pj & w1 & S & A & E & Hf1 & He1)]])];
    rewrite E; cbn [fst snd].
  - right. exists "mkdir failed". split; [now left |]. now repeat split.
  - right. exists e. split; [now right; right |].
    unfold consoleError. cbn [fst snd telemetryFile errorLog].
    rewrite Hf, He. now repeat split.
  - right. exists "appendFile failed". split; [right; now left |].
    unfold consoleError. cbn [fst snd telemetryFile errorLog].
    rewrite Hf, He. now repeat split.
  - left. exists pj. now repeat split.
Qed.

(** C9. [logToolCall] always returns normally, whatever fails inside its
    [try] block.  The block succeeds exactly when the telemetry directory
    exists or can be made, the parameters can be serialized and the append
    does not fail; for parameters that came out of [JSON.parse] that is:
    whenever the two file operations do not fail.  The call then appends to
    the telemetry file exactly one line, the JSON text of the record made of
    the timestamp, the tool name and the sanitized parameters, and prints
    nothing.  In every other case, a failing append among them, the file is
    left as it was and the failure is printed on the error stream.
    Sanitizing keeps every entry of the parameter record and replaces every
    string value longer than 500 characters (code units, as [length] counts
    them) by its first 500 characters followed by a truncation mark. *)
Theorem logToolCall_swallows_failures_and_appends_one_line
    (toolName : string) (params : JsObj.t JsValue) (w : World) :
  let w' := snd (logToolCall toolName params w) in
  fst (logToolCall toolName params w) = Returned tt
  /\ (fst (logBody toolName params w) = Returned tt
      <-> directoryReady w = true
          /\ appendFails w = false
          /\ exists paramsJSON,
              stringify (JsObject (sanitizeParams params)) = Returned (Some paramsJSON))
  /\ (forall paramsJSON,
         directoryReady w = true ->
         appendFails w = false ->
         stringify (JsObject (sanitizeParams params)) = Returned (Some paramsJSON) ->
         stringify (telemetryEvent (clock w) toolName params)
         = Returned (Some (telemetryLine (clock w) toolName paramsJSON))
         /\ singleLine (telemetryLine (clock w) toolName paramsJSON) = true
         /\ telemetryFile w'
            = (telemetryFile w ++ telemetryLine (clock w) toolName paramsJSON
                 ++ newline)%string
         /\ errorLog w' = errorLog w)
  /\ (forallb (fun e => serializable (snd e)) params = true ->
      directoryReady w = true ->
      appendFails w = false ->
      exists paramsJSON,
        stringify (JsObject (sanitizeParams params)) = Returned (Some paramsJSON)
        /\ telemetryFile w'
           = (telemetryFile w ++ telemetryLine (clock w) toolName paramsJSON
                ++ newline)%string
        /\ errorLog w' = errorLog w)
  /\ (forall e,
         fst (logBody toolName params w) = Thrown e ->
         telemetryFile w' = telemetryFile w
         /\ errorLog w' = errorLog w ++ [("Telemetry logging failed:" ++ " " ++ e)%string])
  /\ (appendFails w = true ->
      telemetryFile w' = telemetryFile w
      /\ List.length (errorLog w') = S (List.length (errorLog w)))
  /\ (NoDup (JsObj.keys params) ->
      sanitizeParams params = map (fun e => (fst e, sanitizeValue (snd e))) params)
  /\ (forall s,
         500 < jsLength s ->
         sanitizeValue (JsString s)
         = JsString (substringTo 500 s ++ "... (truncated)")%string
         /\ jsLength (substringTo 500 s) = 500)
  /\ (forall value,
         (forall s, value = JsString s -> jsLength s <= 500) ->
         sanitizeValue value = value).
Proof.
  intros w'. subst w'.
  assert (Hline : forall paramsJSON,
             stringify (JsObject (sanitizeParams params)) = Returned (Some paramsJSON) ->
             stringify (telemetryEvent (clock w) toolName params)
             = Returned (Some (telemetryLine (clock w) toolName paramsJSON))).
  { intros paramsJSON S. unfold telemetryEvent. now rewrite stringify_event, S. }
  split; [| split; [| split; [| split; [| split; [| split; [| split; [| split]]]]]]].
  - unfold logToolCall, tryCatch.
    destruct (logBody toolName params w) as [[[] | e] w']; reflexivity.
  - destruct (logToolCall_outcome toolName params w)
      as [(pj & Hr & Ha & Hs & Hb & _)|(e & Hwhy & Hb & _)].
    + split; [intros _ | intros _; exact Hb].
      split; [exact Hr |]. split; [exact Ha |]. now exists pj.
    + split; [intros H; rewrite Hb in H; discriminate H |].
      intros (Hr & Ha & pj & Hs). exfalso.
      destruct Hwhy as [H|[H|H]]; congruence.
  - intros paramsJSON Hr Ha Hs.
    split; [now apply Hline |].
    split; [apply (stringify_singleLine _ _ (Hline paramsJSON Hs)) |].
    destruct (logToolCall_outcome toolName params w)
      as [(pj & _ & _ & Hs' & _ & Hf & He)|(e & Hwhy & _)].
    + rewrite Hs in Hs'. inversion Hs'. subst pj. now split.
    + exfalso. destruct Hwhy as [H|[H|H]]; congruence.
  - intros Hparams Hr Ha.
    destruct (sanitizeParams_serializable params Hparams) as [paramsJSON Hs].
    exists paramsJSON. split; [exact Hs |].
    destruct (logToolCall_outcome toolName params w)
      as [(pj & _ & _ & Hs' & _ & Hf & He)|(e & Hwhy & _)].
    + rewrite Hs in Hs'. inversion Hs'. subst pj. now split.
    + exfalso. destruct Hwhy as [H|[H|H]]; congruence.
  - intros e Hb.
    destruct (logToolCall_outcome toolName params w)
      as [(pj & _ & _ & _ & Hb' & _)|(e' & _ & Hb' & Hf & He)].
    + rewrite Hb in Hb'. discriminate Hb'.
    + rewrite Hb in Hb'. inversion Hb'. subst e'. now split.
  - intros Ha.
    destruct (logToolCall_outcome toolName params w)
      as [(pj & _ & Ha' & _)|(e & _ & _ & Hf & He)].
    + congruence.
    + split; [exact Hf |]. rewrite He, length_app. cbn. lia.
  - intros Hnd. unfold sanitizeParams. now rewrite sanitize_from.
  - intros s Hlen. unfold sanitizeValue.
    rewrite (proj2 (Nat.ltb_lt 500 (jsLength s)) Hlen).
    split; [reflexivity | apply substringTo_length; lia].
  - intros value Hshort. destruct value; try reflexivity.
    unfold sanitizeValue.
    destruct (Nat.ltb_spec 500 (jsLength s)) as [Hlong | _]; [| reflexivity].
    specialize (Hshort s eq_refl). lia.
Qed.

(** A failing [mkdir] is reported on the error stream and nothing is thrown. *)
Example logToolCall_on_read_only_directory :
  logToolCall "get_component_schema" [("componentName", JsString "OneHandGrabbable")]
    readOnlyWorld
  = (Returned tt,
     {| directoryExists := false; mkdirFails := true; appendFails := true;
        telemetryFile := ""; clock := "2025-11-15T21:18:25.883Z";
        errorLog := ["Telemetry logging failed: mkdir failed"] |}).
Proof.
  reflexivity.
Qed.

(** A 501-character code snippet is cut to 500 characters and marked. *)
Example logToolCall_truncates_long_code :
  telemetryFile
    (snd (logToolCall "validate_code" [("code", JsString (replicate 501 "a"))]
            quietWorld))
  = (telemetryLine "2025-11-15T21:18:25.883Z" "validate_code"
       ("{" ++ quoteJSON "code" ++ ":"
            ++ quoteJSON (replicate 500 "a" ++ "... (truncated)") ++ "}")
     ++ newline)%string.
Proof.
  vm_compute. reflexivity.
Qed.

(** Three hundred accented letters are 600 bytes and 300 characters for
    [length]: the text is logged whole. *)
Example logToolCall_keeps_accented_code :
  telemetryFile
    (snd (logToolCall "validate_code" [("code", JsString (repeatText 300 eAcute))]
            quietWorld))
  = (telemetryLine "2025-11-15T21:18:25.883Z" "validate_code"
       ("{" ++ quoteJSON "code" ++ ":" ++ quoteJSON (repeatText 300 eAcute) ++ "}")
     ++ newline)%string.
Proof.
  vm_compute. reflexivity.
Qed.

(** A cut that falls inside a character of two code units keeps the first
    of them, which [JSON.stringify] writes as an escape. *)
Example logToolCall_cuts_between_code_units :
  telemetryFile
    (snd (logToolCall "validate_code"
            [("code", JsString ("a" ++ repeatText 250 grinningFace))] quietWorld))
  = (telemetryLine "2025-11-15T21:18:25.883Z" "validate_code"
       ("{" ++ quoteJSON "code" ++ ":"
            ++ String doubleQuote
                 ("a" ++ repeatText 249 grinningFace
                      ++ String backslash "ud83d" ++ "... (truncated)"
                      ++ String doubleQuote EmptyString)
            ++ "}")
     ++ newline)%string.
Proof.
  vm_compute. reflexivity.
Qed.

(** Numbers are written as [Number.prototype.toString] prints them. *)
Example logToolCall_writes_numbers :
  telemetryFile
    (snd (logToolCall "find_similar_code"
            [("limit", JsNumber [Digit1; ExponentMark; PlusSign; Digit2; Digit1]);
             ("ratio", JsNumber [Digit0; DecimalPoint; Digit5]);
             ("score", JsNonFinite)] quietWorld))
  = (telemetryLine "2025-11-15T21:18:25.883Z" "find_similar_code"
       ("{" ++ quoteJSON "limit" ++ ":1e+21," ++ quoteJSON "ratio" ++ ":0.5,"
            ++ quoteJSON "score" ++ ":null}")
     ++ newline)%string.
Proof.
  vm_compute. reflexivity.
Qed.

(** * Further properties *)

(** ** Text *)

Lemma append_nil_r (s : string) : (s ++ "")%string = s.
Proof. induction s as [|c r IH]; simpl; [reflexivity | now rewrite IH]. Qed.

Lemma append_assoc (a b c : string) : ((a ++ b) ++ c)%string = (a ++ b ++ c)%string.
Proof. induction a as [|x r IH]; simpl; [reflexivity | now rewrite IH]. Qed.

Lemma stripPrefix_append (p s : string) : stripPrefix p (p ++ s) = Some s.
Proof.
  induction p as [|c r IH]; simpl; [reflexivity |].
  now rewrite Ascii.eqb_refl.
Qed.

Lemma stripPrefix_Some (p s r : string) :
  stripPrefix p s = Some r -> s = (p ++ r)%string.
Proof.
  revert s; induction p as [|c p IH]; intros s H; simpl in H.
  - now inversion H.
  - destruct s as [|d s]; [discriminate |].
    destruct (Ascii.eqb_spec c d) as [->|]; [| discriminate].
    simpl. f_equal. now apply IH.
Qed.

Lemma contains_prefix (needle hay rest : string) :
  stripPrefix needle hay = Some rest -> contains needle hay = true.
Proof. intros H. destruct hay; simpl; now rewrite H. Qed.

(** [hay.includes(needle)] holds exactly when [needle] lies somewhere in
    [hay]. *)
Lemma contains_iff (needle hay : string) :
  contains needle hay = true
  <-> exists before after, hay = (before ++ needle ++ after)%string.
Proof.
  split.
  - induction hay as [|c r IH]; simpl.
    + destruct (stripPrefix needle "") as [rest|] eqn:E; [| discriminate].
      intros _. exists EmptyString, rest. exact (stripPrefix_Some _ _ _ E).
    + destruct (stripPrefix needle (String c r)) as [rest|] eqn:E.
      * intros _. exists EmptyString, rest. exact (stripPrefix_Some _ _ _ E).
      * intros H. destruct (IH H) as (b & a & ->).
        exists (String c b), a. reflexivity.
  - intros (before & after & ->).
    induction before as [|c b IH].
    + apply (contains_prefix needle (needle ++ after) after). apply stripPrefix_append.
    + change (String c b ++ needle ++ after)%string
        with (String c (b ++ needle ++ after)%string).
      cbn [contains].
      destruct (stripPrefix needle (String c (b ++ needle ++ after))); [reflexivity |].
      exact IH.
Qed.


Lemma contains_refl (s : string) : contains s s = true.
Proof.
  apply contains_iff. exists EmptyString, EmptyString.
  simpl. now rewrite append_nil_r.
Qed.

Lemma contains_trans (a b c : string) :
  contains a b = true -> contains b c = true -> contains a c = true.
Proof.
  intros Hab Hbc.
  apply contains_iff in Hab. destruct Hab as (b1 & b2 & ->).
  apply contains_iff in Hbc. destruct Hbc as (c1 & c2 & ->).
  apply contains_iff. exists (c1 ++ b1)%string, (b2 ++ c2)%string.
  now rewrite !append_assoc.
Qed.

Lemma contains_middle (before needle after : string) :
  contains needle (before ++ needle ++ after) = true.
Proof. apply contains_iff. now exists before, after. Qed.

Lemma toLowerCase_append (a b : string) :
  toLowerCase (a ++ b) = (toLowerCase a ++ toLowerCase b)%string.
Proof. induction a as [|c r IH]; simpl; [reflexivity | now rewrite IH]. Qed.

Lemma isUppercase_lowerChar (c : ascii) : isUppercase (lowerChar c) = false.
Proof.
  unfold lowerChar. destruct (isUppercase c) eqn:E; [| exact E].
  unfold isUppercase in *.
  apply andb_true_iff in E. destruct E as [E1 E2].
  apply Nat.leb_le in E1. apply Nat.leb_le in E2.
  rewrite nat_ascii_embedding by lia.
  apply andb_false_iff. right. apply Nat.leb_gt. lia.
Qed.



Lemma toLowerCase_length (s : string) : String.length (toLowerCase s) = String.length s.
Proof. induction s as [|c r IH]; simpl; [reflexivity | now rewrite IH]. Qed.

(** Lower-casing both sides keeps a containment. *)
Lemma contains_toLowerCase (needle hay : string) :
  contains needle hay = true ->
  contains (toLowerCase needle) (toLowerCase hay) = true.
Proof.
  intros H. apply contains_iff in H. destruct H as (b & a & ->).
  rewrite !toLowerCase_append. apply contains_middle.
Qed.

Lemma toLowerCase_noCapital (s : string) : noCapital (toLowerCase s).
Proof.
  induction s as [|c r IH]; intros x Hx; simpl in Hx; [contradiction |].
  destruct Hx as [<-|Hx]; [apply isUppercase_lowerChar | now apply IH].
Qed.

Lemma substring_prefix_append (a b : string) :
  substring 0 (String.length a) (a ++ b) = a.
Proof. induction a as [|c r IH]; simpl; [now destruct b | now rewrite IH]. Qed.

(** ** Example harvesting *)

Lemma chars_append (a b : string) : chars (a ++ b) = chars a ++ chars b.
Proof.
  unfold chars. induction a as [|c r IH]; simpl; [reflexivity | now rewrite IH].
Qed.


















Lemma inferTags_In (code tag : string) :
  In tag (inferTags code)
  <-> (tag = "interactable" /\ contains "Interactable" code = true)
      \/ (tag = "grabbing" /\ contains "Grabbable" code = true)
      \/ (tag = "physics" /\ contains "PhysicsBody" code = true)
      \/ (tag = "ui" /\ contains "UIKit" code = true)
      \/ (tag = "locomotion" /\ contains "LocomotionSystem" code = true)
      \/ (tag = "audio" /\ contains "AudioSystem" code = true).
Proof.
  unfold inferTags.
  destruct (contains "Interactable" code), (contains "Grabbable" code),
    (contains "PhysicsBody" code), (contains "UIKit" code),
    (contains "LocomotionSystem" code), (contains "AudioSystem" code);
  cbn [app In]; intuition (subst; auto; try discriminate).
Qed.

(** X3. The category of an example is one of five names, and it goes
    with the tags where both look at the same text: an example tagged
    [interactable] is in category [interaction], an example of category [ui]
    carries the tag [ui], one of category [locomotion] the tag [locomotion].
    Category [physics] and tag [physics] look for different names, and an
    example can have the one without the other. *)
Theorem category_goes_with_tags (code : string) :
  In (inferCategory code) ["interaction"; "physics"; "ui"; "locomotion"; "setup"]
  /\ (In "interactable" (inferTags code) -> inferCategory code = "interaction")
  /\ (inferCategory code = "ui" -> In "ui" (inferTags code))
  /\ (inferCategory code = "locomotion" -> In "locomotion" (inferTags code))
  /\ inferCategory "world.registerSystem(PhysicsSystem);" = "physics"
  /\ ~ In "physics" (inferTags "world.registerSystem(PhysicsSystem);").
Proof.
  split; [| split; [| split; [| split; [| split]]]].
  - unfold inferCategory.
    destruct (contains "Interactable" code || contains "onClick" code);
      [simpl; tauto |].
    destruct (contains "PhysicsSystem" code); [simpl; tauto |].
    destruct (contains "UIKitDocument" code); [simpl; tauto |].
    destruct (contains "LocomotionSystem" code); simpl; tauto.
  - intros H. apply inferTags_In in H.
    destruct H as [[_ H]|[[H _]|[[H _]|[[H _]|[[H _]|[H _]]]]]]; try discriminate H.
    unfold inferCategory. now rewrite H.
  - intros H. apply inferTags_In. right; right; right; left.
    split; [reflexivity |].
    unfold inferCategory in H.
    destruct (contains "Interactable" code || contains "onClick" code);
      [discriminate H |].
    destruct (contains "PhysicsSystem" code); [discriminate H |].
    destruct (contains "UIKitDocument" code) eqn:E.
    + apply (contains_trans "UIKit" "UIKitDocument" code); [reflexivity | exact E].
    + destruct (contains "LocomotionSystem" code); discriminate H.
  - intros H. apply inferTags_In. right; right; right; right; left.
    split; [reflexivity |].
    unfold inferCategory in H.
    destruct (contains "Interactable" code || contains "onClick" code);
      [discriminate H |].
    destruct (contains "PhysicsSystem" code); [discriminate H |].
    destruct (contains "UIKitDocument" code); [discriminate H |].
    destruct (contains "LocomotionSystem" code); [reflexivity | discriminate H].
  - reflexivity.
  - vm_compute. intros [].
Qed.

Lemma trimStart_suffix (s : string) : exists ws, s = (ws ++ trimStart s)%string.
Proof.
  assert (H : forall n s, String.length s <= n ->
                          exists ws, s = (ws ++ trimStart s)%string).
  { intros n. induction n as [|n IH]; intros [|c r] Hlen;
      try (now exists EmptyString); try (simpl in Hlen; lia).
    simpl in Hlen. cbn [trimStart].
    destruct (isWhitespace c).
    - destruct (IH r) as (ws & H); [lia |]. exists (String c ws). cbn. now rewrite <- H.
    - destruct r as [|c1 r1]; [now exists EmptyString |].
      destruct (isSpace2 c c1).
      + destruct (IH r1) as (ws & H); [simpl in Hlen; lia |].
        exists (String c (String c1 ws)). cbn. now rewrite <- H.
      + destruct r1 as [|c2 r2]; [now exists EmptyString |].
        destruct (isSpace3 c c1 c2); [| now exists EmptyString].
        destruct (IH r2) as (ws & H); [simpl in Hlen; lia |].
        exists (String c (String c1 (String c2 ws))). cbn. now rewrite <- H. }
  now apply (H (String.length s)).
Qed.

Lemma span_append (stop : ascii -> bool) (s : string) :
  s = (fst (span stop s) ++ snd (span stop s))%string.
Proof.
  induction s as [|c r IH]; [reflexivity |].
  cbn [span]. destruct (stop c); [reflexivity |].
  destruct (span stop r) as [run rest]. cbn [fst snd] in *. cbn. now rewrite <- IH.
Qed.

Lemma matchWorldCreate_covers (s rest : string) :
  matchWorldCreate s = Some rest ->
  exists tail, s = (("World.create" ++ tail) ++ rest)%string.
Proof.
  unfold matchWorldCreate, andThen.
  destruct (stripPrefix "World.create" s) as [s1|] eqn:E1; [| discriminate].
  destruct (stripPrefix "(" (trimStart s1)) as [s2|] eqn:E2; [| discriminate].
  destruct (stripPrefix ")" (snd (span (Ascii.eqb ")") s2))) as [s3|] eqn:E3;
    [| discriminate].
  apply stripPrefix_Some in E1, E2, E3.
  destruct (trimStart_suffix s1) as (ws1 & H1).
  pose proof (span_append (Ascii.eqb ")") s2) as H2.
  set (run := fst (span (Ascii.eqb ")") s2)) in *.
  assert (Hs3 : s = (("World.create" ++ ws1 ++ "(" ++ run ++ ")") ++ s3)%string).
  { rewrite E1, H1, E2, H2, E3. now rewrite !append_assoc. }
  destruct (stripPrefix ".then" (trimStart s3)) as [s4|] eqn:E4.
  - intros H. inversion H; subst rest.
    apply stripPrefix_Some in E4.
    destruct (trimStart_suffix s3) as (ws3 & H3).
    exists (ws1 ++ "(" ++ run ++ ")" ++ ws3 ++ ".then")%string.
    rewrite Hs3, H3, E4. now rewrite !append_assoc.
  - intros H. inversion H; subst rest.
    exists (ws1 ++ "(" ++ run ++ ")")%string. exact Hs3.
Qed.

Lemma matchedText_covers (matched rest : string) :
  matchedText (matched ++ rest) rest = matched.
Proof.
  unfold matchedText. rewrite string_length_append.
  replace (String.length matched + String.length rest - String.length rest)
    with (String.length matched) by lia.
  apply substring_prefix_append.
Qed.

Lemma contains_tail (needle : string) (c : ascii) (hay : string) :
  contains needle (String c hay) = false -> contains needle hay = false.
Proof.
  cbn [contains]. destruct (stripPrefix needle (String c hay)); [discriminate | auto].
Qed.

(** X4. The initialization pattern recorded for an example is the
    leftmost piece of the entry file that matches the pattern of a
    [World.create(...)] call: it is a piece of the code with no match
    starting before it, begins with [World.create] and so is never empty, and
    nothing is recorded when the code does not hold [World.create]. *)
Theorem init_pattern_is_a_piece_of_the_code (dirName fileName code : string) :
  HarvestedExample.initPattern (harvestExample dirName fileName code)
  = extractWorldCreate code
  /\ (forall pattern,
         extractWorldCreate code = Some pattern ->
         exists before tail after,
           pattern = ("World.create" ++ tail)%string
           /\ code = (before ++ pattern ++ after)%string
           /\ forall skipped c earlier,
               before = (skipped ++ String c earlier)%string ->
               matchWorldCreate (String c earlier ++ pattern ++ after) = None)
  /\ (contains "World.create" code = false -> extractWorldCreate code = None)
  /\ extractWorldCreate "await World.create (container, { xr: true }) .then(start);"
     = Some "World.create (container, { xr: true }) .then".
Proof.
  assert (Hpiece : forall pattern,
             extractWorldCreate code = Some pattern ->
             exists before tail after,
               pattern = ("World.create" ++ tail)%string
               /\ code = (before ++ pattern ++ after)%string
               /\ forall skipped c earlier,
                   before = (skipped ++ String c earlier)%string ->
                   matchWorldCreate (String c earlier ++ pattern ++ after) = None).
  { induction code as [|c r IH]; intros pattern H.
    - cbn in H. discriminate H.
    - cbn [extractWorldCreate] in H.
      destruct (matchWorldCreate (String c r)) as [rest|] eqn:E.
      + destruct (matchWorldCreate_covers _ _ E) as (tail & Hs).
        rewrite Hs, matchedText_covers in H. inversion H; subst pattern.
        exists EmptyString, tail, rest. split; [reflexivity |].
        split; [exact Hs |].
        intros skipped x earlier Hb. destruct skipped; discriminate Hb.
      + destruct (IH pattern H) as (before & tail & after & Hp & Hc & Hleft).
        exists (String c before), tail, after. split; [exact Hp |].
        split; [cbn; now rewrite <- Hc |].
        intros skipped x earlier Hb. destruct skipped as [|y skipped].
        * cbn in Hb. inversion Hb; subst x earlier.
          cbn [append]. rewrite <- Hc. exact E.
        * cbn in Hb. inversion Hb; subst y.
          now apply (Hleft skipped). }
  split; [| split; [exact Hpiece | split; [| reflexivity]]].
  - cbn [harvestExample HarvestedExample.initPattern].
    destruct (extractWorldCreate code) as [pattern|] eqn:E; [| reflexivity].
    destruct (Hpiece pattern eq_refl) as (_ & tail & _ & -> & _). reflexivity.
  - clear Hpiece. induction code as [|c r IH]; intros H; [reflexivity |].
    cbn [extractWorldCreate].
    assert (Hm : matchWorldCreate (String c r) = None).
    { unfold matchWorldCreate.
      destruct (stripPrefix "World.create" (String c r)) as [s1|] eqn:E; [| reflexivity].
      apply contains_prefix in E. congruence. }
    rewrite Hm. apply IH. now apply (contains_tail _ c).
Qed.

Lemma mainFileOf_first (candidates : list string) (sources : JsObj.t string)
    (fileName code : string) :
  mainFileOf candidates sources = Some (fileName, code) ->
  exists earlier later,
    candidates = earlier ++ fileName :: later
    /\ JsObj.get fileName sources = Some code
    /\ forall other, In other earlier -> JsObj.get other sources = None.
Proof.
  induction candidates as [|f r IH]; intros H; simpl in H; [discriminate |].
  destruct (JsObj.get f sources) as [c|] eqn:E.
  - inversion H; subst. exists [], r. repeat split; [exact E | intros ? []].
  - destruct (IH H) as (earlier & later & -> & Hget & Hnone).
    exists (f :: earlier), later. repeat split; [exact Hget |].
    intros other [<-|Ho]; [exact E | now apply Hnone].
Qed.

Lemma mainFileOf_None (candidates : list string) (sources : JsObj.t string) :
  mainFileOf candidates sources = None
  <-> forall fileName, In fileName candidates -> JsObj.get fileName sources = None.
Proof.
  induction candidates as [|f r IH]; simpl.
  - split; [intros _ ? [] | reflexivity].
  - destruct (JsObj.get f sources) as [c|] eqn:E.
    + split; [discriminate |]. intros H. specialize (H f (or_introl eq_refl)). congruence.
    + rewrite IH. split.
      * intros H x [<-|Hx]; [exact E | now apply H].
      * intros H x Hx. apply H. now right.
Qed.

(** X5. [parseExamples] makes at most one example of a directory
    entry, in the order of the entries.  An entry gives an example exactly
    when it is a directory whose [src] holds one of [index.js], [index.ts],
    [main.ts], [main.js]; the example is made from the first of these that
    exists, whatever the later ones hold.  Without an [examples] directory
    there is no example. *)
Theorem example_is_made_from_the_first_entry_file
    (dirs : list ExampleEntry) (dir : ExampleEntry) :
  parseExamples None = []
  /\ parseExamples (Some dirs) = flat_map harvestEntry dirs
  /\ List.length (parseExamples (Some dirs)) <= List.length dirs
  /\ (forall ex,
         In ex (harvestEntry dir) ->
         harvestEntry dir = [ex]
         /\ entryIsDirectory dir = true
         /\ exists sources earlier fileName later code,
             entrySources dir = Some sources
             /\ possibleFiles = earlier ++ fileName :: later
             /\ JsObj.get fileName sources = Some code
             /\ (forall other, In other earlier -> JsObj.get other sources = None)
             /\ ex = harvestExample (entryName dir) fileName code)
  /\ (harvestEntry dir = [] <->
      entryIsDirectory dir = false
      \/ entrySources dir = None
      \/ exists sources,
          entrySources dir = Some sources
          /\ forall fileName, In fileName possibleFiles -> JsObj.get fileName sources = None).
Proof.
  split; [reflexivity |]. split; [reflexivity |]. split; [| split].
  - cbn [parseExamples]. induction dirs as [|d r IH]; simpl; [lia |].
    rewrite length_app.
    assert (List.length (harvestEntry d) <= 1); [| lia].
    unfold harvestEntry.
    destruct (negb (entryIsDirectory d)); [simpl; lia |].
    destruct (entrySources d) as [sources|]; [| simpl; lia].
    destruct (mainFileOf possibleFiles sources) as [[f c]|]; simpl; lia.
  - intros ex H. unfold harvestEntry in *.
    destruct (entryIsDirectory dir); [| destruct H].
    cbn [negb] in *.
    destruct (entrySources dir) as [sources|]; [| destruct H].
    destruct (mainFileOf possibleFiles sources) as [[f c]|] eqn:E; [| destruct H].
    destruct H as [<-|[]].
    split; [reflexivity |]. split; [reflexivity |].
    destruct (mainFileOf_first _ _ _ _ E) as (earlier & later & Hp & Hg & Hn).
    exists sources, earlier, f, later, c. now repeat split.
  - unfold harvestEntry.
    destruct (entryIsDirectory dir); cbn [negb]; [| split; [now left | reflexivity]].
    destruct (entrySources dir) as [sources|]; [| split; [now right; left | reflexivity]].
    destruct (mainFileOf possibleFiles sources) as [[f c]|] eqn:E.
    + split; [discriminate |].
      intros [H|[H|(s & Hs & H)]]; try discriminate H.
      inversion Hs; subst s.
      apply mainFileOf_None in H. congruence.
    + split; [| reflexivity]. intros _. right; right.
      exists sources. split; [reflexivity |]. now apply mainFileOf_None.
Qed.

(** ** Search keywords *)

Lemma firstn_In (A : Type) (n : nat) (l : list A) (x : A) :
  In x (firstn n l) -> In x l.
Proof.
  intros H. rewrite <- (firstn_skipn n l). apply in_or_app. now left.
Qed.

Lemma splitBeforeUpper_nonempty (s : string) : splitBeforeUpper s <> [].
Proof.
  destruct s as [|c r]; simpl; [discriminate |].
  destruct (startsUpper r); [discriminate |].
  destruct (splitBeforeUpper r); discriminate.
Qed.

Lemma concat_cons (x : string) (l : list string) :
  String.concat "" (x :: l) = (x ++ String.concat "" l)%string.
Proof.
  destruct l; simpl; [now rewrite append_nil_r | reflexivity].
Qed.

(** The pieces of a name, put together again, give the name. *)
Lemma splitBeforeUpper_concat (s : string) :
  String.concat "" (splitBeforeUpper s) = s.
Proof.
  induction s as [|c r IH]; [reflexivity |].
  cbn [splitBeforeUpper].
  destruct (startsUpper r).
  - rewrite concat_cons, IH. reflexivity.
  - destruct (splitBeforeUpper r) as [|h t] eqn:E;
      [now apply splitBeforeUpper_nonempty in E |].
    rewrite concat_cons in *. simpl. now rewrite IH.
Qed.

(** A capital letter inside a piece is its first character. *)
Lemma splitBeforeUpper_capitals (s piece : string) :
  In piece (splitBeforeUpper s) ->
  match piece with
  | String _ rest => noCapital rest
  | EmptyString => s = EmptyString
  end.
Proof.
  revert piece; induction s as [|c r IH]; intros piece H.
  - destruct H as [<-|[]]. reflexivity.
  - cbn [splitBeforeUpper] in H.
    destruct (startsUpper r) eqn:U.
    + destruct H as [<-|H]; [intros x [] |].
      specialize (IH piece H). destruct piece; [| exact IH].
      subst r. discriminate U.
    + destruct (splitBeforeUpper r) as [|h t] eqn:E.
      * destruct H as [<-|[]]. intros x [].
      * destruct H as [<-|H].
        -- specialize (IH h (or_introl eq_refl)).
           destruct h as [|a h]; [intros x [] |].
           intros x [<-|Hx]; [| now apply IH].
           assert (Hr : exists r', r = String a r').
           { destruct r as [|b r']; [discriminate E |].
             cbn [splitBeforeUpper] in E.
             destruct (startsUpper r').
             - inversion E. now exists r'.
             - destruct (splitBeforeUpper r'); inversion E; now exists r'. }
           destruct Hr as (r' & ->). exact U.
        -- specialize (IH piece (or_intror H)).
           destruct piece; [| exact IH].
           subst r. simpl in E. inversion E; subst. destruct H.
Qed.

Lemma wordRuns_chars (s run word : string) (c : ascii) :
  In word (wordRuns s run) -> In c (chars word) ->
  In c (chars run) \/ In c (chars s).
Proof.
  revert run; induction s as [|a r IH]; intros run Hw Hc; simpl in Hw.
  - destruct (isEmpty run); [destruct Hw |].
    destruct Hw as [<-|[]]. now left.
  - destruct (isWordChar a).
    + destruct (IH _ Hw Hc) as [H|H].
      * rewrite chars_append in H. apply in_app_or in H.
        destruct H as [H|[<-|[]]]; [now left | right; now left].
      * right. now right.
    + apply in_app_or in Hw. destruct Hw as [Hw|Hw].
      * destruct (isEmpty run); [destruct Hw |].
        destruct Hw as [<-|[]]. now left.
      * destruct (IH _ Hw Hc) as [[]|H]. right. now right.
Qed.

(** A run is made of word characters and is not empty. *)
Lemma wordRuns_words (s run word : string) :
  (forall c, In c (chars run) -> isWordChar c = true) ->
  In word (wordRuns s run) ->
  word <> EmptyString /\ forall c, In c (chars word) -> isWordChar c = true.
Proof.
  revert run; induction s as [|a r IH]; intros run Hrun Hw; simpl in Hw.
  - destruct run as [|x run]; [destruct Hw |].
    destruct Hw as [<-|[]]. split; [discriminate | exact Hrun].
  - destruct (isWordChar a) eqn:E.
    + apply (IH (run ++ String a "")%string); [| exact Hw].
      intros c Hc. rewrite chars_append in Hc. apply in_app_or in Hc.
      destruct Hc as [Hc|[<-|[]]]; [now apply Hrun | exact E].
    + apply in_app_or in Hw. destruct Hw as [Hw|Hw].
      * destruct run as [|x run]; [destruct Hw |].
        destruct Hw as [<-|[]]. split; [discriminate | exact Hrun].
      * apply (IH EmptyString); [intros c [] | exact Hw].
Qed.

(** A run is a piece of the text. *)
Lemma wordRuns_contains_from (s run word : string) :
  In word (wordRuns s run) ->
  exists before after, (run ++ s)%string = (before ++ word ++ after)%string.
Proof.
  revert run; induction s as [|a r IH]; intros run Hw; simpl in Hw.
  - destruct (isEmpty run); [destruct Hw |].
    destruct Hw as [<-|[]]. exists EmptyString, EmptyString.
    simpl. now rewrite !append_nil_r.
  - destruct (isWordChar a).
    + destruct (IH _ Hw) as (b & f & H).
      exists b, f. rewrite <- H, append_assoc. reflexivity.
    + apply in_app_or in Hw. destruct Hw as [Hw|Hw].
      * destruct (isEmpty run); [destruct Hw |].
        destruct Hw as [<-|[]]. exists EmptyString, (String a r). reflexivity.
      * destruct (IH _ Hw) as (b & f & H). simpl in H.
        exists (run ++ String a b)%string, f.
        rewrite append_assoc. simpl. now rewrite H.
Qed.

Lemma wordRuns_contains (s word : string) :
  In word (wordRuns s EmptyString) -> contains word s = true.
Proof.
  intros H. apply contains_iff.
  destruct (wordRuns_contains_from _ _ _ H) as (b & f & E).
  now exists b, f.
Qed.

Lemma generateKeywords_In (componentName description : string)
    (category : option string) (keyword : string) :
  In keyword (generateKeywords componentName description category)
  <-> (exists piece,
          In piece (splitBeforeUpper componentName) /\ keyword = toLowerCase piece)
      \/ (description <> EmptyString
          /\ In keyword (firstn 5 (longWords (toLowerCase description))))
      \/ (exists c, category = Some c /\ c <> EmptyString /\ keyword = toLowerCase c).
Proof.
  unfold generateKeywords. rewrite setToArray_In, !in_app_iff, in_map_iff.
  split.
  - intros [(piece & <- & H)|[H|H]].
    + left. now exists piece.
    + right; left. destruct description; [destruct H |]. split; [discriminate | exact H].
    + right; right. destruct category as [c|]; [| destruct H].
      destruct c; [destruct H |]. destruct H as [<-|[]].
      eexists. split; [reflexivity |]. split; [discriminate | reflexivity].
  - intros [(piece & H & ->)|[[Hd H]|(c & -> & Hc & ->)]].
    + left. now exists piece.
    + right; left. destruct description; [contradiction | exact H].
    + right; right. destruct c; [contradiction |]. now left.
Qed.

(** X6. The keywords of a component or system are pairwise
    distinct and hold no capital letter.  Each is the lower-cased form of a
    piece of the name, a word of four or more word characters of the
    lower-cased description, or the lower-cased category.  The pieces of the
    name are cut in front of its capital letters: put together they give the
    name, a capital letter is the first character of its piece, and every
    piece is among the keywords in lower case. *)
Theorem keywords_are_distinct_lowercase_words
    (componentName description : string) (category : option string) :
  let keywords := generateKeywords componentName description category in
  NoDup keywords
  /\ (forall keyword, In keyword keywords -> noCapital keyword)
  /\ (forall keyword,
         In keyword keywords ->
         (exists piece,
             In piece (splitBeforeUpper componentName) /\ keyword = toLowerCase piece)
         \/ (4 <= String.length keyword
             /\ (forall c, In c (chars keyword) -> isWordChar c = true)
             /\ contains keyword (toLowerCase description) = true)
         \/ (exists c, category = Some c /\ keyword = toLowerCase c))
  /\ String.concat "" (splitBeforeUpper componentName) = componentName
  /\ (forall piece,
         In piece (splitBeforeUpper componentName) ->
         In (toLowerCase piece) keywords
         /\ match piece with
            | String _ rest => noCapital rest
            | EmptyString => componentName = EmptyString
            end).
Proof.
  intros keywords. subst keywords.
  split; [| split; [| split; [| split]]].
  - unfold generateKeywords. rewrite setToArray_dedup. apply dedup_NoDup.
  - intros keyword H. apply generateKeywords_In in H.
    destruct H as [(piece & _ & ->)|[[_ H]|(c & _ & _ & ->)]].
    + apply toLowerCase_noCapital.
    + apply firstn_In in H. unfold longWords in H.
      apply filter_In in H. destruct H as [H _].
      intros c Hc. destruct (wordRuns_chars _ _ _ c H Hc) as [[]|Hd].
      now apply (toLowerCase_noCapital description).
    + apply toLowerCase_noCapital.
  - intros keyword H. apply generateKeywords_In in H.
    destruct H as [H|[[_ H]|(c & Hc & _ & ->)]].
    + now left.
    + right; left. apply firstn_In in H. unfold longWords in H.
      apply filter_In in H. destruct H as [H L].
      apply Nat.leb_le in L. split; [exact L |].
      split.
      * apply (wordRuns_words (toLowerCase description) EmptyString);
          [intros c [] | exact H].
      * apply wordRuns_contains in H. exact H.
    + right; right. now exists c.
  - apply splitBeforeUpper_concat.
  - intros piece H. split.
    + apply generateKeywords_In. left. now exists piece.
    + now apply splitBeforeUpper_capitals.
Qed.

(** ** Component fields *)

Lemma removeFirst_prefix (pattern s : string) :
  removeFirst pattern (pattern ++ s) = s.
Proof.
  destruct (pattern ++ s)%string as [|c r] eqn:E.
  - destruct pattern; [| discriminate E]. now destruct s.
  - cbn [removeFirst]. rewrite <- E, stripPrefix_append. reflexivity.
Qed.

Lemma removeFirst_without (pattern s : string) :
  contains pattern s = false -> removeFirst pattern s = s.
Proof.
  induction s as [|c r IH]; intros H.
  - cbn in *. destruct (stripPrefix pattern ""); [discriminate H | reflexivity].
  - cbn [removeFirst contains] in *.
    destruct (stripPrefix pattern (String c r)); [discriminate H |].
    now rewrite IH.
Qed.

(** The loop over the properties of a field keeps the last [type] and the
    last [default]. *)
Lemma readFieldProps_last (fieldProps : list Node) :
  forall state,
    fold_left readFieldProp fieldProps state
    = (match lastAssigned "type" fieldProps with
       | Some text => removeFirst "Types." text
       | None => fst state
       end,
       match lastAssigned "default" fieldProps with
       | Some text => Some text
       | None => snd state
       end).
Proof.
  induction fieldProps as [|p r IH]; intros [fieldType defaultValue]; [reflexivity |].
  cbn [fold_left lastAssigned]. rewrite IH.
  destruct (lastAssigned "type" r) as [t|], (lastAssigned "default" r) as [d|];
    try reflexivity;
    destruct p as [| | | | text name value | |]; try reflexivity;
    cbn [readFieldProp];
    destruct (String.eqb_spec name "type") as [->|Ht]; try reflexivity;
    destruct (String.eqb_spec name "default") as [->|Hd]; reflexivity.
Qed.

(** X7. The fields of a component are read off the properties of its
    schema, in order: a property whose value is an object literal gives
    exactly one field, under the property's name, and any other property
    gives none; a schema that is no object literal has no field.  A field's
    type is the text of its last [type] property with the first [Types.]
    taken out, [unknown] when there is none, and its default is the text of
    its last [default] property. *)
Theorem schema_fields_keep_the_last_type_and_default (node : Node) :
  ((forall text properties, node <> ObjectLiteralExpression text properties) ->
   parseComponentSchema node = [])
  /\ (forall text, parseComponentSchema (ObjectLiteralExpression text []) = [])
  /\ (forall text propText fieldName fieldText fieldProps rest,
         parseComponentSchema
           (ObjectLiteralExpression text
              (PropertyAssignment propText fieldName
                 (ObjectLiteralExpression fieldText fieldProps) :: rest))
         = FieldDefinition.mk fieldName
             match lastAssigned "type" fieldProps with
             | Some typeText => removeFirst "Types." typeText
             | None => "unknown"
             end
             (lastAssigned "default" fieldProps)
           :: parseComponentSchema (ObjectLiteralExpression text rest))
  /\ (forall text prop rest,
         (forall propText fieldName fieldText fieldProps,
             prop <> PropertyAssignment propText fieldName
                       (ObjectLiteralExpression fieldText fieldProps)) ->
         parseComponentSchema (ObjectLiteralExpression text (prop :: rest))
         = parseComponentSchema (ObjectLiteralExpression text rest))
  /\ (forall text properties,
         node = ObjectLiteralExpression text properties ->
         List.length (parseComponentSchema node) <= List.length properties
         /\ forall field,
             In field (parseComponentSchema node) ->
             exists propText fieldText fieldProps,
               In (PropertyAssignment propText (FieldDefinition.name field)
                     (ObjectLiteralExpression fieldText fieldProps)) properties
               /\ FieldDefinition.type field
                  = match lastAssigned "type" fieldProps with
                    | Some typeText => removeFirst "Types." typeText
                    | None => "unknown"
                    end
               /\ FieldDefinition.default field = lastAssigned "default" fieldProps)
  /\ (forall rest, removeFirst "Types." ("Types." ++ rest) = rest)
  /\ (forall typeText,
         contains "Types." typeText = false -> removeFirst "Types." typeText = typeText).
Proof.
  split; [| split; [| split; [| split; [| split; [| split]]]]].
  - intros H. destruct node; try reflexivity. now destruct (H text properties).
  - reflexivity.
  - intros. cbn [parseComponentSchema flat_map fieldOf app].
    rewrite readFieldProps_last. cbn [fst snd].
    now destruct (lastAssigned "default" fieldProps).
  - intros text prop rest Hother. cbn [parseComponentSchema flat_map].
    destruct prop as [| | | | t n [| | | ft fps | | |] | |]; try reflexivity.
    now destruct (Hother t n ft fps).
  - intros text properties ->. cbn [parseComponentSchema]. split.
    + induction properties as [|p r IH]; [apply le_n |].
      cbn [flat_map]. rewrite length_app. cbn [List.length].
      assert (List.length (fieldOf p) <= 1); [| lia].
      destruct p as [| | | | t n [| | | ft fps | | |] | |]; cbn; lia.
    + intros field H. apply in_flat_map in H. destruct H as (p & Hp & H).
      destruct p as [| | | | t n [| | | ft fps | | |] | |]; try (now destruct H).
      cbn [fieldOf] in H. destruct H as [<-|[]].
      rewrite readFieldProps_last. cbn [fst snd FieldDefinition.name
        FieldDefinition.type FieldDefinition.default].
      exists t, ft, fps. split; [exact Hp |]. split; [reflexivity |].
      now destruct (lastAssigned "default" fps).
  - intros rest. apply removeFirst_prefix.
  - intros typeText. apply removeFirst_without.
Qed.

Lemma schema_fields_keep_the_last_type_and_default_witness :
  parseComponentSchema sampleSchema
  = [ FieldDefinition.mk "mass" "Float32" (Some "1");
      FieldDefinition.mk "shape" "Enum" (Some "'box'") ].
Proof.
  destruct (schema_fields_keep_the_last_type_and_default sampleSchema)
    as (_ & Hnone & Hfield & Hother & _).
  unfold sampleSchema.
  rewrite Hfield, Hother, Hfield, Hnone; [reflexivity |].
  discriminate.
Defined.

(** ** The traversals of component and system extraction *)

Lemma fold_entries (A V : Type) (P : string * V -> Prop)
    (f : JsObj.t V -> A -> JsObj.t V) (l : list A) :
  (forall acc x, In x l -> (forall e, In e acc -> P e) -> forall e, In e (f acc x) -> P e) ->
  forall acc, (forall e, In e acc -> P e) -> forall e, In e (fold_left f l acc) -> P e.
Proof.
  induction l as [|x r IH]; intros Hf acc Hacc; [exact Hacc |].
  cbn [fold_left]. apply IH.
  - intros acc' y Hy. apply Hf. now right.
  - apply Hf; [now left | exact Hacc].
Qed.

Lemma fold_keys_NoDup (A V : Type) (f : JsObj.t V -> A -> JsObj.t V) (l : list A) :
  (forall acc x, NoDup (JsObj.keys acc) -> NoDup (JsObj.keys (f acc x))) ->
  forall acc, NoDup (JsObj.keys acc) -> NoDup (JsObj.keys (fold_left f l acc)).
Proof.
  intros Hf. induction l as [|x r IH]; intros acc Hacc; [exact Hacc |].
  cbn [fold_left]. apply IH. now apply Hf.
Qed.

Lemma fold_keys_grow (A V : Type) (f : JsObj.t V -> A -> JsObj.t V) (l : list A)
    (k : string) :
  (forall acc x, In k (JsObj.keys acc) -> In k (JsObj.keys (f acc x))) ->
  forall acc, In k (JsObj.keys acc) -> In k (JsObj.keys (fold_left f l acc)).
Proof.
  intros Hf. induction l as [|x r IH]; intros acc Hacc; [exact Hacc |].
  cbn [fold_left]. apply IH. now apply Hf.
Qed.

Lemma set_keys_grow (V : Type) (o : JsObj.t V) (k k' : string) (v : V) :
  In k' (JsObj.keys o) -> In k' (JsObj.keys (JsObj.set k v o)).
Proof.
  rewrite set_keys. destruct (includes (JsObj.keys o) k); [auto |].
  intros H. apply in_or_app. now left.
Qed.

Lemma set_keys_new (V : Type) (o : JsObj.t V) (k : string) (v : V) :
  In k (JsObj.keys (JsObj.set k v o)).
Proof.
  rewrite set_keys. destruct (includes (JsObj.keys o) k) eqn:E.
  - now apply includes_In.
  - apply in_or_app. right. now left.
Qed.

Lemma assign_entries (V : Type) (target source : JsObj.t V) (e : string * V) :
  In e (assign target source) -> In e target \/ In e source.
Proof.
  unfold assign. revert target.
  induction source as [|[k v] r IH]; intros target H; [now left |].
  cbn [fold_left fst snd] in H.
  destruct (IH _ H) as [H1|H1]; [| right; now right].
  destruct e as [k' v']. apply set_In in H1.
  destruct H1 as [[-> ->]|H1]; [right; now left | now left].
Qed.

Lemma assign_keys_NoDup (V : Type) (target source : JsObj.t V) :
  NoDup (JsObj.keys target) -> NoDup (JsObj.keys (assign target source)).
Proof.
  unfold assign. apply fold_keys_NoDup. intros acc x. apply set_keys_NoDup.
Qed.

Lemma assign_keys_grow (V : Type) (target source : JsObj.t V) (k : string) :
  In k (JsObj.keys target) \/ In k (JsObj.keys source) ->
  In k (JsObj.keys (assign target source)).
Proof.
  unfold assign. revert target.
  induction source as [|[k' v] r IH]; intros target [H|H].
  - exact H.
  - destruct H.
  - cbn [fold_left fst snd]. apply IH. left. now apply set_keys_grow.
  - cbn [fold_left fst snd]. destruct H as [H|H].
    + simpl in H. subst k'. apply IH. left. apply set_keys_new.
    + apply IH. now right.
Qed.

(** [Object.assign]: a key of the source gets the source's value, every
    other key keeps its own. *)
Lemma get_assign (V : Type) (target source : JsObj.t V) (k : string) :
  NoDup (JsObj.keys source) ->
  JsObj.get k (assign target source)
  = match JsObj.get k source with
    | Some v => Some v
    | None => JsObj.get k target
    end.
Proof.
  unfold assign. revert target.
  induction source as [|[k' v] r IH]; intros target Hnd; [reflexivity |].
  cbn [fold_left fst snd]. inversion Hnd as [|? ? Hnot Hnd']; subst.
  rewrite (IH _ Hnd'). cbn [JsObj.get].
  destruct (String.eqb_spec k k') as [->|Hne].
  - destruct (JsObj.get k' r) as [v'|] eqn:E.
    + exfalso. apply Hnot. apply In_of_get in E.
      apply in_map_iff. now exists (k', v').
    + apply get_set_same.
  - destruct (JsObj.get k r); [reflexivity |]. now apply get_set_other.
Qed.

(** The component visitor as a pass over the variable statements of the
    tree. *)
Lemma visit_statements (packageName filePath : string) (node : Node) :
  forall components,
    visit packageName filePath node components
    = fold_left (declareStatement packageName filePath) (statementsOf node) components.
Proof.
  assert (Hall : forall nodes,
             Forall (fun n => forall components,
                         visit packageName filePath n components
                         = fold_left (declareStatement packageName filePath)
                             (statementsOf n) components) nodes ->
             forall components,
               (fix visitAll (l : list Node) (acc : Components) : Components :=
                  match l with
                  | [] => acc
                  | n :: r => visitAll r (visit packageName filePath n acc)
                  end) nodes components
               = fold_left (declareStatement packageName filePath)
                   ((fix allOf (l : list Node) : list (JSDoc * list Node) :=
                       match l with
                       | [] => []
                       | n :: r => statementsOf n ++ allOf r
                       end) nodes) components).
  { induction 1 as [|n r Hn _ IHr]; intros components; [reflexivity |].
    rewrite fold_left_app, <- Hn. apply IHr. }
  induction node as [text doc declarations IH
                    | text binding initializer IHbinding IHinit
                    | text callee callArguments IHcallee IHargs
                    | text properties IH
                    | text name initializer IH
                    | text elements IH
                    | text children IH] using Node_tree_ind;
    intros components; cbn [visit statementsOf].
  - cbn [fold_left]. now rewrite Hall.
  - rewrite fold_left_app, <- IHbinding.
    destruct initializer as [value|]; [apply IHinit | reflexivity].
  - rewrite fold_left_app, <- IHcallee. now apply Hall.
  - now apply Hall.
  - apply IH.
  - now apply Hall.
  - now apply Hall.
Qed.

Lemma declareStatement_entries (packageName filePath : string)
    (components : Components) (statement : JSDoc * list Node)
    (e : string * ComponentDefinition.t) :
  In e (declareStatement packageName filePath components statement) ->
  In e components \/ declaresComponent packageName filePath statement (fst e) (snd e).
Proof.
  destruct statement as [doc declarations].
  unfold declareStatement, declaresComponent. cbn [fst snd].
  destruct declarations
    as [| [| t b [[| | callText callee callArguments | | | |] |] | | | | |] rest];
    try (now left).
  unfold declareFirst.
  destruct (isComponentDeclaration _) eqn:D; [| now left].
  destruct (componentRecord packageName filePath doc t callArguments)
    as [[k record]|] eqn:R; [| now left].
  intros H. destruct e as [k' c']. apply set_In in H.
  destruct H as [[-> ->]|H]; [| now left].
  right. exists t, b, callText, callee, callArguments, rest.
  cbn [isComponentDeclaration] in D. apply andb_true_iff in D.
  destruct D as [D _]. apply String.eqb_eq in D.
  now repeat split.
Qed.

Lemma declareStatement_key (packageName filePath : string)
    (components : Components) (statement : JSDoc * list Node)
    (key : string) (record : ComponentDefinition.t) :
  declaresComponent packageName filePath statement key record ->
  In key (JsObj.keys (declareStatement packageName filePath components statement)).
Proof.
  destruct statement as [doc declarations].
  intros (t & b & callText & callee & callArguments & rest & Hd & Hc & Hr).
  cbn [fst snd] in *. subst declarations.
  unfold declareStatement. cbn [fst snd declareFirst isComponentDeclaration].
  rewrite Hc. cbn [String.eqb].
  assert (L : (2 <=? List.length callArguments) = true).
  { destruct callArguments as [|a [|b' r]]; try discriminate Hr. reflexivity. }
  rewrite L. change ("createComponent" =? "createComponent")%string with true.
  cbn [andb]. rewrite Hr. apply set_keys_new.
Qed.

Lemma declareStatement_keys_grow (packageName filePath : string)
    (components : Components) (statement : JSDoc * list Node) (k : string) :
  In k (JsObj.keys components) ->
  In k (JsObj.keys (declareStatement packageName filePath components statement)).
Proof.
  destruct statement as [doc declarations]. unfold declareStatement. cbn [fst snd].
  destruct declarations
    as [| [| t b [[| | callText callee callArguments | | | |] |] | | | | |] rest];
    try (intros H; exact H).
  unfold declareFirst.
  destruct (isComponentDeclaration _); [| auto].
  destruct (componentRecord packageName filePath doc t callArguments) as [[k' r]|];
    [| auto].
  apply set_keys_grow.
Qed.

Lemma declared_statement_key (packageName filePath : string)
    (statements : list (JSDoc * list Node)) (statement : JSDoc * list Node)
    (key : string) (record : ComponentDefinition.t) :
  In statement statements ->
  declaresComponent packageName filePath statement key record ->
  forall components,
    In key (JsObj.keys
              (fold_left (declareStatement packageName filePath) statements components)).
Proof.
  induction statements as [|s r IH]; intros Hin Hd components; [destruct Hin |].
  cbn [fold_left]. destruct Hin as [->|Hin].
  - apply fold_keys_grow.
    + intros acc x. apply declareStatement_keys_grow.
    + now apply (declareStatement_key _ _ _ _ _ record).
  - now apply IH.
Qed.

(** The fields of a record as the extractor makes it. *)
Lemma componentRecord_fields (packageName filePath : string) (doc : JSDoc)
    (text : string) (callArguments : list Node)
    (key : string) (record : ComponentDefinition.t) :
  componentRecord packageName filePath doc text callArguments = Some (key, record) ->
  ComponentDefinition.name record = key
  /\ ComponentDefinition.package record = packageName
  /\ ComponentDefinition.filePath record = filePath
  /\ ComponentDefinition.sourceCode record = text
  /\ ComponentDefinition.importPath record
     = ("import { " ++ key ++ " } from '" ++ packageName ++ "';")%string
  /\ ComponentDefinition.requires record = []
  /\ ComponentDefinition.optionalWith record = []
  /\ ComponentDefinition.usedBySystems record = []
  /\ ComponentDefinition.coOccurrences record = [].
Proof.
  destruct callArguments as [|a [|b r]]; try discriminate.
  cbn [componentRecord]. intros H. inversion H; subst. now repeat split.
Qed.

Lemma parsed_component_entries (units : list SourceUnit)
    (e : string * ComponentDefinition.t) :
  In e (parseComponents units) ->
  exists unit statement,
    In unit units
    /\ In statement (statementsOf (unitTree unit))
    /\ declaresComponent (unitPackage unit) (unitPath unit) statement (fst e) (snd e).
Proof.
  unfold parseComponents. revert e.
  apply fold_entries; [| intros ? []].
  intros acc unit Hunit Hacc e He.
  apply assign_entries in He. destruct He as [He|He]; [now apply Hacc |].
  unfold extractComponentsFromAST in He. rewrite visit_statements in He.
  revert e He. apply fold_entries; [| intros ? []].
  intros acc0 st Hst Hacc0 e0 He0.
  apply declareStatement_entries in He0.
  destruct He0 as [He0|He0]; [now apply Hacc0 |].
  now exists unit, st.
Qed.

Lemma parsed_component_fresh (units : list SourceUnit) (key : string)
    (record : ComponentDefinition.t) :
  In (key, record) (parseComponents units) ->
  ComponentDefinition.name record = key
  /\ ComponentDefinition.requires record = []
  /\ ComponentDefinition.usedBySystems record = [].
Proof.
  intros H. apply parsed_component_entries in H.
  destruct H as (unit & statement & _ & _ & Hd). cbn [fst snd] in Hd.
  destruct Hd as (t & b & ct & callee & args & rest & _ & _ & Hr).
  apply componentRecord_fields in Hr.
  now destruct Hr as (H1 & _ & _ & _ & _ & H6 & _ & H8 & _).
Qed.

(** X8. Component extraction is a pass over the variable statements of
    each file in source order, nested ones included.  Every record of
    [parseComponents] was made from a statement of one of the files whose
    first declarator calls [createComponent] with two or more arguments: it
    is stored under its name, carries the package and path of that file and
    the import line for its name and package, and its four relationship
    fields are empty.  Conversely every such statement puts its key into
    the map, and no key occurs twice. *)
Theorem parsed_components_come_from_declarations (units : list SourceUnit) :
  (forall sourceFile packageName filePath,
      extractComponentsFromAST sourceFile packageName filePath
      = fold_left (declareStatement packageName filePath) (statementsOf sourceFile) [])
  /\ NoDup (JsObj.keys (parseComponents units))
  /\ (forall key record,
         In (key, record) (parseComponents units) ->
         exists unit statement,
           In unit units
           /\ In statement (statementsOf (unitTree unit))
           /\ declaresComponent (unitPackage unit) (unitPath unit) statement key record
           /\ ComponentDefinition.name record = key
           /\ ComponentDefinition.package record = unitPackage unit
           /\ ComponentDefinition.filePath record = unitPath unit
           /\ ComponentDefinition.importPath record
              = ("import { " ++ key ++ " } from '" ++ unitPackage unit ++ "';")%string
           /\ ComponentDefinition.requires record = []
           /\ ComponentDefinition.optionalWith record = []
           /\ ComponentDefinition.usedBySystems record = []
           /\ ComponentDefinition.coOccurrences record = [])
  /\ (forall unit statement key record,
         In unit units ->
         In statement (statementsOf (unitTree unit)) ->
         declaresComponent (unitPackage unit) (unitPath unit) statement key record ->
         In key (JsObj.keys (parseComponents units))).
Proof.
  split; [| split; [| split]].
  - intros. unfold extractComponentsFromAST. apply visit_statements.
  - apply parseComponents_fresh.
  - intros key record H.
    pose proof (parsed_component_entries _ _ H) as HP.
    destruct HP as (unit & statement & Hu & Hs & Hd).
    exists unit, statement. cbn [fst snd] in Hd.
    split; [exact Hu |]. split; [exact Hs |]. split; [exact Hd |].
    destruct Hd as (t & b & ct & callee & args & rest & _ & _ & Hr).
    apply componentRecord_fields in Hr.
    destruct Hr as (H1 & H2 & H3 & _ & H5 & H6 & H7 & H8 & H9).
    now repeat split.
  - intros unit statement key record Hu Hs Hd.
    unfold parseComponents.
    apply in_split in Hu. destruct Hu as (before & after & ->).
    rewrite fold_left_app. cbn [fold_left].
    apply fold_keys_grow.
    + intros acc x Hk. apply assign_keys_grow. now left.
    + apply assign_keys_grow. right.
      unfold extractComponentsFromAST. rewrite visit_statements.
      now apply (declared_statement_key _ _ _ statement key record).
Qed.

(** X9. When a name is declared more than once, the declaration
    visited last gives the record: after one more file, a name the file
    declares has the file's record, and every other name keeps the record
    it had. *)
Theorem later_declaration_replaces_the_record
    (units : list SourceUnit) (unit : SourceUnit) (key : string) :
  JsObj.get key (parseComponents (units ++ [unit]))
  = match JsObj.get key
            (extractComponentsFromAST (unitTree unit) (unitPackage unit) (unitPath unit))
    with
    | Some record => Some record
    | None => JsObj.get key (parseComponents units)
    end.
Proof.
  unfold parseComponents. rewrite fold_left_app. cbn [fold_left].
  apply get_assign. apply extracted_records_fresh.
Qed.

Lemma visitClasses_classes (packageName filePath : string) (node : ClassTree) :
  forall systems,
    visitClasses packageName filePath node systems
    = fold_left (declareClass packageName filePath) (classesOf node) systems.
Proof.
  assert (Hall : forall nodes,
             Forall (fun n => forall systems,
                         visitClasses packageName filePath n systems
                         = fold_left (declareClass packageName filePath)
                             (classesOf n) systems) nodes ->
             forall systems,
               (fix visitAll (l : list ClassTree) (acc : Systems) : Systems :=
                  match l with
                  | [] => acc
                  | n :: r => visitAll r (visitClasses packageName filePath n acc)
                  end) nodes systems
               = fold_left (declareClass packageName filePath)
                   ((fix allOf (l : list ClassTree) : list (ClassDeclaration * JSDoc) :=
                       match l with
                       | [] => []
                       | n :: r => classesOf n ++ allOf r
                       end) nodes) systems).
  { induction 1 as [|n r Hn _ IHr]; intros systems; [reflexivity |].
    rewrite fold_left_app, <- Hn. apply IHr. }
  induction node as [classNode doc children IH | children IH] using ClassTree_tree_ind;
    intros systems; cbn [visitClasses classesOf].
  - cbn [fold_left]. now rewrite Hall.
  - now apply Hall.
Qed.

Lemma declareClass_entries (packageName filePath : string) (systems : Systems)
    (class : ClassDeclaration * JSDoc) (e : string * SystemDefinition.t) :
  In e (declareClass packageName filePath systems class) ->
  In e systems
  \/ (declaresSystem class (fst e)
      /\ snd e = systemRecord packageName filePath (fst e) (snd class) (fst class)).
Proof.
  destruct class as [classNode doc].
  unfold declareClass, declareSystem, declaresSystem. cbn [fst snd].
  destruct (className classNode) as [name|]; [| now left].
  destruct (endsWith name "System") eqn:E; [| now left].
  intros H. destruct e as [k s]. apply set_In in H.
  destruct H as [[-> ->]|H]; [| now left].
  right. cbn [fst snd]. now repeat split.
Qed.

Lemma declareClass_keys_NoDup (packageName filePath : string) (systems : Systems)
    (class : ClassDeclaration * JSDoc) :
  NoDup (JsObj.keys systems) ->
  NoDup (JsObj.keys (declareClass packageName filePath systems class)).
Proof.
  unfold declareClass, declareSystem.
  destruct (className (fst class)) as [name|]; [| auto].
  destruct (endsWith name "System"); [| auto].
  apply set_keys_NoDup.
Qed.

Lemma declareClass_keys_grow (packageName filePath : string) (systems : Systems)
    (class : ClassDeclaration * JSDoc) (k : string) :
  In k (JsObj.keys systems) ->
  In k (JsObj.keys (declareClass packageName filePath systems class)).
Proof.
  unfold declareClass, declareSystem.
  destruct (className (fst class)) as [name|]; [| auto].
  destruct (endsWith name "System"); [| auto].
  apply set_keys_grow.
Qed.

Lemma declareClass_key (packageName filePath : string) (systems : Systems)
    (class : ClassDeclaration * JSDoc) (key : string) :
  declaresSystem class key ->
  In key (JsObj.keys (declareClass packageName filePath systems class)).
Proof.
  intros [Hn He]. unfold declareClass, declareSystem.
  rewrite Hn, He. apply set_keys_new.
Qed.

Lemma extracted_systems_keys_NoDup (sourceFile : ClassTree)
    (packageName filePath : string) :
  NoDup (JsObj.keys (extractSystemsFromAST sourceFile packageName filePath)).
Proof.
  unfold extractSystemsFromAST. rewrite visitClasses_classes.
  apply fold_keys_NoDup; [| constructor].
  intros acc x. apply declareClass_keys_NoDup.
Qed.

Lemma queried_components_capitalized (classNode : ClassDeclaration) (x : string) :
  In x (extractQueriedComponents classNode) -> startsUpper x = true.
Proof.
  unfold extractQueriedComponents. rewrite setToArray_In.
  destruct (heritageClauses classNode) as [clauses|]; [| intros []].
  intros H. apply in_flat_map in H. destruct H as (clause & _ & H).
  apply in_flat_map in H. destruct H as (expr & _ & H).
  apply heritageOf_In in H.
  destruct H as (_ & _ & _ & _ & _ & prop & _ & _ & _ & H).
  apply queryOf_In in H. destruct H as (_ & _ & _ & _ & queryProp & _ & _ & H).
  apply requiredOf_In in H. now destruct H as (_ & _ & _ & _ & _ & _ & _ & H).
Qed.

Lemma parsed_system_entries (units : list SystemUnit) (e : string * SystemDefinition.t) :
  In e (parseSystems units) ->
  exists unit class,
    In unit units
    /\ In class (classesOf (systemTree unit))
    /\ declaresSystem class (fst e)
    /\ snd e = systemRecord (systemPackage unit) (systemPath unit) (fst e)
                 (snd class) (fst class).
Proof.
  unfold parseSystems. revert e.
  apply fold_entries; [| intros ? []].
  intros acc unit Hunit Hacc e He.
  apply assign_entries in He. destruct He as [He|He]; [now apply Hacc |].
  unfold extractSystemsFromAST in He. rewrite visitClasses_classes in He.
  revert e He. apply fold_entries; [| intros ? []].
  intros acc0 class Hclass Hacc0 e He.
  apply declareClass_entries in He.
  destruct He as [He|[Hd Hr]]; [now apply Hacc0 |].
  now exists unit, class.
Qed.

Lemma parsed_systems_keys_NoDup (units : list SystemUnit) :
  NoDup (JsObj.keys (parseSystems units)).
Proof.
  unfold parseSystems. apply fold_keys_NoDup; [| constructor].
  intros acc x. apply assign_keys_NoDup.
Qed.

Lemma parsed_system_named (units : list SystemUnit) (key : string)
    (system : SystemDefinition.t) :
  In (key, system) (parseSystems units) -> SystemDefinition.name system = key.
Proof.
  intros H. apply parsed_system_entries in H.
  destruct H as (unit & class & _ & _ & _ & Hr). cbn [fst snd] in Hr. now subst system.
Qed.

(** X10. System extraction is a pass over the class declarations of
    each file in source order, nested ones included.  Every record of
    [parseSystems] was made from a named class of one of the files whose
    name ends in [System]: it is stored under the class name, carries the
    package and path of the file, and its queried components are pairwise
    distinct and begin with a capital letter.  Conversely every such class
    puts its name into the map; classes without a name or with another name
    add nothing; no key occurs twice. *)
Theorem parsed_systems_are_the_system_classes (units : list SystemUnit) :
  (forall sourceFile packageName filePath,
      extractSystemsFromAST sourceFile packageName filePath
      = fold_left (declareClass packageName filePath) (classesOf sourceFile) [])
  /\ NoDup (JsObj.keys (parseSystems units))
  /\ (forall key system,
         In (key, system) (parseSystems units) ->
         exists unit class,
           In unit units
           /\ In class (classesOf (systemTree unit))
           /\ className (fst class) = Some key
           /\ endsWith key "System" = true
           /\ SystemDefinition.name system = key
           /\ SystemDefinition.package system = systemPackage unit
           /\ SystemDefinition.filePath system = systemPath unit
           /\ SystemDefinition.queriesComponents system
              = extractQueriedComponents (fst class)
           /\ NoDup (SystemDefinition.queriesComponents system)
           /\ forall x, In x (SystemDefinition.queriesComponents system) ->
                        startsUpper x = true)
  /\ (forall key,
         In key (JsObj.keys (parseSystems units))
         <-> exists unit class,
             In unit units
             /\ In class (classesOf (systemTree unit))
             /\ declaresSystem class key).
Proof.
  split; [| split; [| split]].
  - intros. unfold extractSystemsFromAST. apply visitClasses_classes.
  - apply parsed_systems_keys_NoDup.
  - intros key system H. apply parsed_system_entries in H.
    destruct H as (unit & class & Hu & Hc & [Hn He] & Hr). cbn [fst snd] in *.
    exists unit, class. subst system. cbn [systemRecord SystemDefinition.name
      SystemDefinition.package SystemDefinition.filePath
      SystemDefinition.queriesComponents].
    repeat split; try assumption.
    + unfold extractQueriedComponents. rewrite setToArray_dedup. apply dedup_NoDup.
    + apply queried_components_capitalized.
  - intros key. split.
    + intros H. apply in_map_iff in H. destruct H as ([k s] & <- & H).
      apply parsed_system_entries in H.
      destruct H as (unit & class & Hu & Hc & Hd & _). now exists unit, class.
    + intros (unit & class & Hu & Hc & Hd).
      unfold parseSystems.
      apply in_split in Hu. destruct Hu as (before & after & ->).
      rewrite fold_left_app. cbn [fold_left].
      apply fold_keys_grow.
      * intros acc x Hk. apply assign_keys_grow. now left.
      * apply assign_keys_grow. right.
        unfold extractSystemsFromAST. rewrite visitClasses_classes.
        apply in_split in Hc. destruct Hc as (b & a & ->).
        rewrite fold_left_app. cbn [fold_left].
        apply fold_keys_grow.
        -- intros acc x. apply declareClass_keys_grow.
        -- now apply declareClass_key.
Qed.

(** ** The cache as a whole *)

Lemma setAdd_idempotent (s : list string) (x : string) : setAdd (setAdd s x) x = setAdd s x.
Proof.
  unfold setAdd at 2. destruct (includes s x) eqn:E.
  - unfold setAdd. now rewrite E.
  - unfold setAdd.
    assert (H : includes (s ++ [x]) x = true).
    { apply includes_In. apply in_or_app. right. now left. }
    now rewrite H, E.
Qed.

Lemma noteSystem_idempotent (systemName : string) (c : ComponentDefinition.t) :
  noteSystem systemName (noteSystem systemName c) = noteSystem systemName c.
Proof.
  unfold noteSystem. destruct c. cbn. now rewrite setAdd_idempotent.
Qed.

Lemma addSystem_get (systemName : string) (components : Components)
    (componentName key : string) :
  JsObj.get key (addSystem systemName components componentName)
  = if String.eqb key componentName
    then option_map (noteSystem systemName) (JsObj.get key components)
    else JsObj.get key components.
Proof.
  unfold addSystem.
  destruct (String.eqb_spec key componentName) as [->|Hne].
  - destruct (JsObj.get componentName components) as [c|] eqn:E; [| now rewrite E].
    cbn [option_map]. unfold noteSystem, setAdd.
    destruct (includes (ComponentDefinition.usedBySystems c) systemName).
    + rewrite E. f_equal. apply setUsedBySystems_same.
    + rewrite get_set_same. reflexivity.
  - destruct (JsObj.get componentName components) as [c|]; [| reflexivity].
    destruct (includes (ComponentDefinition.usedBySystems c) systemName); [reflexivity |].
    now apply get_set_other.
Qed.

Lemma addSystems_get (systemName : string) (names : list string) (key : string) :
  forall components,
    JsObj.get key (fold_left (addSystem systemName) names components)
    = option_map (fun c => if includes names key then noteSystem systemName c else c)
        (JsObj.get key components).
Proof.
  induction names as [|n r IH]; intros components; cbn [fold_left].
  - destruct (JsObj.get key components); reflexivity.
  - rewrite IH, addSystem_get. unfold includes. cbn [existsb].
    fold (includes r key).
    destruct (String.eqb key n).
    + destruct (JsObj.get key components) as [c|]; [| reflexivity].
      cbn [option_map orb].
      destruct (includes r key); [now rewrite noteSystem_idempotent | reflexivity].
    + reflexivity.
Qed.

(** What the cross-reference pass stores under a key. *)
Lemma crossReference_get (systems : list SystemDefinition.t) (key : string) :
  forall components,
    JsObj.get key
      (fold_left
         (fun acc system =>
            fold_left (addSystem (SystemDefinition.name system))
              (SystemDefinition.queriesComponents system) acc)
         systems components)
    = option_map
        (fun c =>
           ComponentDefinition.setUsedBySystems c
             (fold_left setAdd
                (map SystemDefinition.name
                   (filter (fun s => includes (SystemDefinition.queriesComponents s) key)
                      systems))
                (ComponentDefinition.usedBySystems c)))
        (JsObj.get key components).
Proof.
  induction systems as [|s r IH]; intros components; cbn [fold_left].
  - cbn [filter map fold_left].
    destruct (JsObj.get key components) as [c|]; [| reflexivity].
    cbn [option_map]. now rewrite <- setUsedBySystems_same.
  - rewrite IH, addSystems_get. cbn [filter].
    destruct (JsObj.get key components) as [c|]; [| reflexivity].
    cbn [option_map].
    destruct (includes (SystemDefinition.queriesComponents s) key).
    + cbn [map fold_left]. unfold noteSystem. destruct c. reflexivity.
    + reflexivity.
Qed.

Lemma addSystem_keys (systemName : string) (components : Components)
    (componentName : string) :
  JsObj.keys (addSystem systemName components componentName) = JsObj.keys components.
Proof.
  unfold addSystem.
  destruct (JsObj.get componentName components) as [c|] eqn:E; [| reflexivity].
  destruct (includes (ComponentDefinition.usedBySystems c) systemName); [reflexivity |].
  rewrite set_keys.
  assert (H : includes (JsObj.keys components) componentName = true).
  { apply includes_In. apply In_of_get in E. apply in_map_iff. now exists (componentName, c). }
  now rewrite H.
Qed.

Lemma crossReference_keys (systems : Systems) (components : Components) :
  JsObj.keys (buildSystemComponentRelationships systems components)
  = JsObj.keys components.
Proof.
  unfold buildSystemComponentRelationships.
  generalize (JsObj.values systems) as l. intros l. revert components.
  induction l as [|s r IH]; intros components; [reflexivity |].
  cbn [fold_left]. rewrite IH.
  generalize (SystemDefinition.queriesComponents s) as names. intros names.
  revert components. induction names as [|n ns IHn]; intros components; [reflexivity |].
  cbn [fold_left]. now rewrite IHn, addSystem_keys.
Qed.

Lemma analyze_keys (components : Components) (examples : list ExampleCode.t) :
  JsObj.keys (analyzeComponentCoOccurrences components examples) = JsObj.keys components.
Proof.
  unfold analyzeComponentCoOccurrences, JsObj.keys. rewrite map_map. reflexivity.
Qed.

Lemma analyzeComponent_keeps (examples : list ExampleCode.t)
    (component : ComponentDefinition.t) :
  ComponentDefinition.name (analyzeComponent examples component)
  = ComponentDefinition.name component
  /\ ComponentDefinition.requires (analyzeComponent examples component)
     = ComponentDefinition.requires component
  /\ ComponentDefinition.usedBySystems (analyzeComponent examples component)
     = ComponentDefinition.usedBySystems component.
Proof.
  unfold analyzeComponent.
  destruct (List.length (examplesWith (ComponentDefinition.name component) examples));
    now repeat split.
Qed.

Lemma cache_keys (repo : Checkout) (units : list SourceUnit) (systems : Systems)
    (examples : list ExampleCode.t) :
  JsObj.keys (generateCacheComponents repo units systems examples)
  = JsObj.keys (parseComponents units).
Proof.
  unfold generateCacheComponents, relatedComponents.
  now rewrite analyze_keys, crossReference_keys, extract_keys.
Qed.

Lemma cache_keys_NoDup (repo : Checkout) (units : list SourceUnit) (systems : Systems)
    (examples : list ExampleCode.t) :
  NoDup (JsObj.keys (generateCacheComponents repo units systems examples)).
Proof. rewrite cache_keys. apply parseComponents_fresh. Qed.

Lemma relateComponent_usedBySystems (repo : Checkout) (componentName : string)
    (component : ComponentDefinition.t) :
  ComponentDefinition.usedBySystems (relateComponent repo componentName component)
  = ComponentDefinition.usedBySystems component.
Proof.
  unfold relateComponent.
  destruct (JsObj.get componentName knownRelationships);
    destruct (repo _); reflexivity.
Qed.

(** The passes a record of the cache went through. *)
Lemma cache_component_history (repo : Checkout) (units : list SourceUnit)
    (systems : Systems) (examples : list ExampleCode.t)
    (key : string) (record : ComponentDefinition.t) :
  In (key, record) (generateCacheComponents repo units systems examples) ->
  exists parsed,
    In (key, parsed) (parseComponents units)
    /\ ComponentDefinition.name record = key
    /\ ComponentDefinition.requires record
       = ComponentDefinition.requires (relateComponent repo key parsed)
    /\ NoDup (ComponentDefinition.requires record)
    /\ ComponentDefinition.usedBySystems record
       = fold_left setAdd
           (map SystemDefinition.name
              (filter (fun s => includes (SystemDefinition.queriesComponents s) key)
                 (JsObj.values systems)))
           [].
Proof.
  intros H.
  assert (Hget : JsObj.get key (generateCacheComponents repo units systems examples)
                 = Some record).
  { apply get_of_In; [apply cache_keys_NoDup | exact H]. }
  unfold generateCacheComponents in H.
  apply analyze_entries in H. destruct H as (crossed & Hc & ->).
  assert (Hcg : JsObj.get key
                  (buildSystemComponentRelationships systems (relatedComponents repo units))
                = Some crossed).
  { apply get_of_In; [| exact Hc].
    rewrite crossReference_keys. apply related_keys. }
  unfold buildSystemComponentRelationships in Hcg.
  rewrite crossReference_get in Hcg.
  destruct (JsObj.get key (relatedComponents repo units)) as [related|] eqn:Er;
    [| discriminate Hcg].
  cbn [option_map] in Hcg. injection Hcg as Hcrossed.
  apply In_of_get in Er. apply related_entry in Er.
  destruct Er as (parsed & Hp & Hname & Hreq & _ & Hrel).
  exists parsed. split; [exact Hp |].
  destruct (analyzeComponent_keeps examples crossed) as (Hn & Hr & Hu).
  rewrite Hn, Hr, Hu. rewrite <- Hcrossed. subst related.
  cbn [ComponentDefinition.name ComponentDefinition.requires
       ComponentDefinition.usedBySystems ComponentDefinition.setUsedBySystems].
  destruct (relateComponent_keeps repo key parsed) as (Hn' & _).
  cbn zeta in Hn'.
  destruct (parsed_component_fresh _ _ _ Hp) as (_ & _ & Hused).
  repeat split.
  - congruence.
  - rewrite relateComponent_requires by exact Hreq. apply dedup_NoDup.
  - now rewrite relateComponent_usedBySystems, Hused.
Qed.

Lemma names_of_querying_systems (units : list SystemUnit) (key : string) :
  map SystemDefinition.name
    (filter (fun s => includes (SystemDefinition.queriesComponents s) key)
       (JsObj.values (parseSystems units)))
  = queryingSystems (parseSystems units) key.
Proof.
  unfold queryingSystems, JsObj.values.
  pose proof (parsed_system_named units) as Hn.
  induction (parseSystems units) as [|[k s] r IH]; [reflexivity |].
  cbn [map filter snd].
  assert (Hr : forall k' s', In (k', s') r -> SystemDefinition.name s' = k').
  { intros k' s' H. apply Hn. now right. }
  destruct (includes (SystemDefinition.queriesComponents s) key).
  - cbn [map fst]. rewrite (Hn k s (or_introl eq_refl)). f_equal. now apply IH.
  - now apply IH.
Qed.

Lemma queryingSystems_NoDup (systems : Systems) (key : string) :
  NoDup (JsObj.keys systems) -> NoDup (queryingSystems systems key).
Proof. apply keys_filter_NoDup. Qed.

Lemma queryingSystems_In (systems : Systems) (key systemName : string) :
  NoDup (JsObj.keys systems) ->
  In systemName (queryingSystems systems key)
  <-> exists system,
      JsObj.get systemName systems = Some system
      /\ In key (SystemDefinition.queriesComponents system).
Proof.
  intros Hnd. unfold queryingSystems. rewrite in_map_iff. split.
  - intros ([k s] & <- & Hf). apply filter_In in Hf. destruct Hf as [Hin Hq].
    exists s. split; [now apply get_of_In | now apply includes_In].
  - intros (s & Hg & Hq). exists (systemName, s). split; [reflexivity |].
    apply filter_In. split; [now apply In_of_get |]. now apply includes_In.
Qed.

Lemma cache_usedBySystems (repo : Checkout) (units : list SourceUnit)
    (systemUnits : list SystemUnit) (examples : list ExampleCode.t)
    (key : string) (record : ComponentDefinition.t) :
  In (key, record)
    (generateCacheComponents repo units (parseSystems systemUnits) examples) ->
  ComponentDefinition.usedBySystems record
  = queryingSystems (parseSystems systemUnits) key.
Proof.
  intros H.
  destruct (cache_component_history _ _ _ _ _ _ H) as (parsed & _ & _ & _ & _ & Hu).
  rewrite Hu.
  fold (setToArray
          (map SystemDefinition.name
             (filter (fun s => includes (SystemDefinition.queriesComponents s) key)
                (JsObj.values (parseSystems systemUnits))))).
  rewrite setToArray_dedup, names_of_querying_systems.
  apply dedup_fixed, queryingSystems_NoDup, parsed_systems_keys_NoDup.
Qed.

(** X11. In the cache, the [usedBySystems] of a component lists the
    systems whose queries name the component, each once, in the order of the
    systems map; a system that queries a name that is no component leaves
    the components as they are, and the pass adds and drops no component. *)
Theorem usedBySystems_lists_the_querying_systems
    (repo : Checkout) (units : list SourceUnit) (systemUnits : list SystemUnit)
    (examplesDir : option (list ExampleEntry))
    (key : string) (record : ComponentDefinition.t) :
  let cache := generateCache repo units systemUnits examplesDir in
  In (key, record) (cacheComponents cache) ->
  ComponentDefinition.usedBySystems record = queryingSystems (cacheSystems cache) key
  /\ NoDup (ComponentDefinition.usedBySystems record)
  /\ (forall systemName,
         In systemName (ComponentDefinition.usedBySystems record)
         <-> exists system,
             JsObj.get systemName (cacheSystems cache) = Some system
             /\ In key (SystemDefinition.queriesComponents system))
  /\ JsObj.keys (cacheComponents cache) = JsObj.keys (parseComponents units).
Proof.
  intros cache H. subst cache. cbn [cacheComponents cacheSystems generateCache] in *.
  pose proof (cache_usedBySystems _ _ _ _ _ _ H) as Heq.
  split; [exact Heq |]. split; [| split].
  - rewrite Heq. apply queryingSystems_NoDup, parsed_systems_keys_NoDup.
  - intros systemName. rewrite Heq.
    apply queryingSystems_In, parsed_systems_keys_NoDup.
  - apply cache_keys.
Qed.

Lemma usedBySystems_lists_the_querying_systems_witness :
  ComponentDefinition.usedBySystems physicsBodyCached
  = queryingSystems (cacheSystems sampleCache) "PhysicsBody".
Proof.
  refine (proj1 (usedBySystems_lists_the_querying_systems
                   sampleRepo sampleUnits sampleSystemUnits sampleExamplesDir
                   "PhysicsBody" physicsBodyCached _)).
  vm_compute. right. left. reflexivity.
Defined.

Lemma edges_follow_constraints (components : Components) :
  (forall k c, In (k, c) components -> ComponentDefinition.name c = k) ->
  map (fun r => (Relationship.from r, Relationship.to r)) (componentRequiresOf components)
  = map (fun c => (OrderingConstraint.before c, OrderingConstraint.after c))
      (generateOrderingConstraints components).
Proof.
  unfold componentRequiresOf, generateOrderingConstraints, JsObj.values.
  induction components as [|[k c] r IH]; intros Hn; [reflexivity |].
  cbn [map flat_map fst snd]. rewrite !map_app, IH by (intros; apply Hn; now right).
  f_equal. rewrite !map_map. cbn. rewrite (Hn k c (or_introl eq_refl)). reflexivity.
Qed.

Lemma requires_edge_In (components : Components) (X Y : string) :
  NoDup (JsObj.keys components) ->
  (forall k c, In (k, c) components -> ComponentDefinition.name c = k) ->
  In (Relationship.mk X Y REQUIRES) (componentRequiresOf components)
  <-> exists c, JsObj.get X components = Some c /\ In Y (ComponentDefinition.requires c).
Proof.
  intros Hnd Hn. unfold componentRequiresOf. rewrite in_flat_map. split.
  - intros (c & Hc & H). apply in_map_iff in H. destruct H as (y & Hy & Hin).
    inversion Hy; subst. unfold JsObj.values in Hc.
    apply in_map_iff in Hc. destruct Hc as ([k c'] & <- & Hc). cbn [snd] in *.
    rewrite (Hn _ _ Hc). exists c'. split; [now apply get_of_In | exact Hin].
  - intros (c & Hg & Hin). apply In_of_get in Hg. exists c. split.
    + unfold JsObj.values. apply in_map_iff. now exists (X, c).
    + apply in_map_iff. exists Y. split; [| exact Hin].
      now rewrite (Hn _ _ Hg).
Qed.

Lemma queries_edge_In (systems : Systems) (S X : string) :
  NoDup (JsObj.keys systems) ->
  (forall k s, In (k, s) systems -> SystemDefinition.name s = k) ->
  In (Relationship.mk S X QUERIES) (systemQueriesOf systems)
  <-> exists s, JsObj.get S systems = Some s /\ In X (SystemDefinition.queriesComponents s).
Proof.
  intros Hnd Hn. unfold systemQueriesOf. rewrite in_flat_map. split.
  - intros (s & Hs & H). apply in_map_iff in H. destruct H as (y & Hy & Hin).
    inversion Hy; subst. unfold JsObj.values in Hs.
    apply in_map_iff in Hs. destruct Hs as ([k s'] & <- & Hs). cbn [snd] in *.
    rewrite (Hn _ _ Hs). exists s'. split; [now apply get_of_In | exact Hin].
  - intros (s & Hg & Hin). apply In_of_get in Hg. exists s. split.
    + unfold JsObj.values. apply in_map_iff. now exists (S, s).
    + apply in_map_iff. exists X. split; [| exact Hin].
      now rewrite (Hn _ _ Hg).
Qed.

Lemma cache_component_named (repo : Checkout) (units : list SourceUnit)
    (systems : Systems) (examples : list ExampleCode.t)
    (key : string) (record : ComponentDefinition.t) :
  In (key, record) (generateCacheComponents repo units systems examples) ->
  ComponentDefinition.name record = key.
Proof.
  intros H. now destruct (cache_component_history _ _ _ _ _ _ H) as (_ & _ & Hn & _).
Qed.

(** X12. The relationship lists of the cache say what the records say.
    The [REQUIRES] edges are, pair by pair and in the same order, the
    ordering constraints; there is an edge from [X] to [Y] exactly when the
    record of [X] has [Y] among its requirements.  There is a [QUERIES]
    edge from [S] to [X] exactly when the system [S] queries [X], and for a
    component [X] of the cache exactly when [S] is among the systems the
    record of [X] is used by. *)
Theorem relationship_edges_mirror_the_records
    (repo : Checkout) (units : list SourceUnit) (systemUnits : list SystemUnit)
    (examplesDir : option (list ExampleEntry)) :
  let cache := generateCache repo units systemUnits examplesDir in
  map (fun r => (Relationship.from r, Relationship.to r)) (componentRequires cache)
  = map (fun c => (OrderingConstraint.before c, OrderingConstraint.after c))
      (ordering cache)
  /\ (forall r, In r (componentRequires cache) -> Relationship.type r = REQUIRES)
  /\ (forall r, In r (systemQueries cache) -> Relationship.type r = QUERIES)
  /\ (forall X Y,
         In (Relationship.mk X Y REQUIRES) (componentRequires cache)
         <-> exists c,
             JsObj.get X (cacheComponents cache) = Some c
             /\ In Y (ComponentDefinition.requires c))
  /\ (forall S X,
         In (Relationship.mk S X QUERIES) (systemQueries cache)
         <-> exists s,
             JsObj.get S (cacheSystems cache) = Some s
             /\ In X (SystemDefinition.queriesComponents s))
  /\ (forall S X c,
         JsObj.get X (cacheComponents cache) = Some c ->
         In (Relationship.mk S X QUERIES) (systemQueries cache)
         <-> In S (ComponentDefinition.usedBySystems c)).
Proof.
  intros cache. subst cache.
  cbn [generateCache componentRequires ordering systemQueries cacheComponents cacheSystems].
  set (examples := map examplePart (parseExamples examplesDir)).
  set (systems := parseSystems systemUnits).
  set (components := generateCacheComponents repo units systems examples).
  assert (Hn : forall k c, In (k, c) components -> ComponentDefinition.name c = k)
    by apply cache_component_named.
  assert (Hnd : NoDup (JsObj.keys components)) by apply cache_keys_NoDup.
  assert (Hq : forall S X,
             In (Relationship.mk S X QUERIES) (systemQueriesOf systems)
             <-> exists s, JsObj.get S systems = Some s
                           /\ In X (SystemDefinition.queriesComponents s)).
  { intros S X. apply queries_edge_In;
      [apply parsed_systems_keys_NoDup | apply parsed_system_named]. }
  split; [now apply edges_follow_constraints |].
  split.
  { intros r H. unfold componentRequiresOf in H. apply in_flat_map in H.
    destruct H as (c & _ & H). apply in_map_iff in H. now destruct H as (y & <- & _). }
  split.
  { intros r H. unfold systemQueriesOf in H. apply in_flat_map in H.
    destruct H as (c & _ & H). apply in_map_iff in H. now destruct H as (y & <- & _). }
  split; [intros X Y; now apply requires_edge_In |].
  split; [exact Hq |].
  intros S X c Hg. rewrite Hq. apply In_of_get in Hg.
  unfold components, systems in Hg.
  rewrite (cache_usedBySystems _ _ _ _ _ _ Hg).
  symmetry. apply queryingSystems_In, parsed_systems_keys_NoDup.
Qed.

Lemma countOther_key (componentName other k : string) (counts : JsObj.t nat) :
  In k (JsObj.keys (countOther componentName counts other))
  <-> In k (JsObj.keys counts) \/ (k = other /\ other <> componentName).
Proof.
  unfold countOther.
  destruct (String.eqb_spec other componentName) as [->|Hne].
  - split; [now left | intros [H|[_ H]]; [exact H | contradiction]].
  - rewrite set_keys.
    destruct (includes (JsObj.keys counts) other) eqn:E.
    + apply includes_In in E. split; [now left |].
      intros [H|[-> _]]; assumption.
    + rewrite in_app_iff. cbn [In]. split.
      * intros [H|[<-|[]]]; [now left | right; now split].
      * intros [H|[-> _]]; [now left | right; now left].
Qed.

Lemma countNames_key (componentName k : string) (names : list string) :
  forall counts,
    In k (JsObj.keys (fold_left (countOther componentName) names counts))
    <-> In k (JsObj.keys counts) \/ (In k names /\ k <> componentName).
Proof.
  induction names as [|n r IH]; intros counts; cbn [fold_left].
  - split; [now left | intros [H|[[] _]]; exact H].
  - rewrite IH, countOther_key. cbn [In]. split.
    + intros [[H|[-> H]]|[H1 H2]]; [now left | right | right]; split; auto.
    + intros [H|[[<-|H1] H2]]; [left; now left | left; right; now split | right; now split].
Qed.

Lemma countExamples_key (componentName k : string) (examples : list ExampleCode.t) :
  forall counts,
    In k (JsObj.keys (fold_left (countExample componentName) examples counts))
    <-> In k (JsObj.keys counts)
        \/ (k <> componentName
            /\ exists ex, In ex examples /\ In k (ExampleCode.componentsUsed ex)).
Proof.
  induction examples as [|e r IH]; intros counts; cbn [fold_left].
  - split; [now left | intros [H|[_ (ex & [] & _)]]; exact H].
  - rewrite IH. unfold countExample. rewrite countNames_key. split.
    + intros [[H|[H1 H2]]|[H1 (ex & H2 & H3)]].
      * now left.
      * right. split; [exact H2 |]. exists e. split; [now left | exact H1].
      * right. split; [exact H1 |]. exists ex. split; [now right | exact H3].
    + intros [H|[H1 (ex & [<-|H2] & H3)]].
      * left. now left.
      * left. right. now split.
      * right. split; [exact H1 |]. now exists ex.
Qed.

(** The names a record's [coOccurrences] holds. *)
Lemma analyzed_keys (examples : list ExampleCode.t) (component : ComponentDefinition.t)
    (other : string) :
  notAnalyzed component ->
  In other (JsObj.keys
              (ComponentDefinition.coOccurrences (analyzeComponent examples component)))
  <-> other <> ComponentDefinition.name component
      /\ exists ex,
          In ex examples
          /\ In (ComponentDefinition.name component) (ExampleCode.componentsUsed ex)
          /\ In other (ExampleCode.componentsUsed ex).
Proof.
  intros Hfresh.
  destruct (analyzeComponent_fields examples component Hfresh) as (_ & Hco & _).
  cbn zeta in Hco. rewrite Hco.
  set (name := ComponentDefinition.name component).
  assert (Hkeys : In other (JsObj.keys (countCoOccurrences name (examplesWith name examples)))
                  <-> other <> name
                      /\ exists ex, In ex examples
                                    /\ In name (ExampleCode.componentsUsed ex)
                                    /\ In other (ExampleCode.componentsUsed ex)).
  { unfold countCoOccurrences. rewrite countExamples_key. cbn [JsObj.keys map In].
    split.
    - intros [[]|[H1 (ex & H2 & H3)]]. split; [exact H1 |].
      unfold examplesWith in H2. apply filter_In in H2. destruct H2 as [H2 H4].
      exists ex. split; [exact H2 |]. split; [now apply includes_In | exact H3].
    - intros [H1 (ex & H2 & H3 & H4)]. right. split; [exact H1 |].
      exists ex. split; [| exact H4].
      unfold examplesWith. apply filter_In. split; [exact H2 | now apply includes_In]. }
  destruct (examplesWith name examples) as [|e r] eqn:E.
  - cbn [JsObj.keys map In]. split; [intros [] |].
    intros HH. apply Hkeys in HH. exact HH.
  - rewrite <- Hkeys. unfold JsObj.keys. rewrite map_map. cbn [fst]. reflexivity.
Qed.

(** X13. Co-occurrence is mutual: in the cache, the record of [A]
    has an entry for [B] exactly when the record of [B] has one for [A],
    which is when the two differ and some example imports both; no record
    has an entry for its own name. *)
Theorem co_occurrence_is_mutual
    (repo : Checkout) (units : list SourceUnit) (systemUnits : list SystemUnit)
    (examplesDir : option (list ExampleEntry))
    (A B : string) (recordA recordB : ComponentDefinition.t) :
  let cache := generateCache repo units systemUnits examplesDir in
  In (A, recordA) (cacheComponents cache) ->
  In (B, recordB) (cacheComponents cache) ->
  (In B (JsObj.keys (ComponentDefinition.coOccurrences recordA))
   <-> In A (JsObj.keys (ComponentDefinition.coOccurrences recordB)))
  /\ (In B (JsObj.keys (ComponentDefinition.coOccurrences recordA))
      <-> A <> B
          /\ exists ex,
              In ex (cacheExamples cache)
              /\ In A (HarvestedExample.componentsUsed ex)
              /\ In B (HarvestedExample.componentsUsed ex))
  /\ ~ In A (JsObj.keys (ComponentDefinition.coOccurrences recordA)).
Proof.
  intros cache HA HB. unfold cache in *.
  cbn [generateCache cacheComponents cacheExamples] in *.
  set (examples := parseExamples examplesDir) in *.
  assert (Hkeys : forall X Y recordX,
             In (X, recordX)
               (generateCacheComponents repo units (parseSystems systemUnits)
                  (map examplePart examples)) ->
             In Y (JsObj.keys (ComponentDefinition.coOccurrences recordX))
             <-> Y <> X
                 /\ exists ex,
                     In ex examples
                     /\ In X (HarvestedExample.componentsUsed ex)
                     /\ In Y (HarvestedExample.componentsUsed ex)).
  { intros X Y recordX H. apply cache_entry in H.
    destruct H as (crossed & Hname & Hfresh & ->).
    rewrite (analyzed_keys _ _ Y Hfresh), Hname. split.
    - intros [H1 (ex & H2 & H3 & H4)]. split; [exact H1 |].
      apply in_map_iff in H2. destruct H2 as (h & <- & H2).
      now exists h.
    - intros [H1 (h & H2 & H3 & H4)]. split; [exact H1 |].
      exists (examplePart h). split; [now apply in_map | now split]. }
  split; [| split].
  - rewrite (Hkeys A B recordA HA), (Hkeys B A recordB HB). split.
    + intros [H1 (ex & H2 & H3 & H4)]. split; [congruence | now exists ex].
    + intros [H1 (ex & H2 & H3 & H4)]. split; [congruence | now exists ex].
  - rewrite (Hkeys A B recordA HA). split.
    + intros [H1 H2]. split; [congruence | exact H2].
    + intros [H1 H2]. split; [congruence | exact H2].
  - rewrite (Hkeys A A recordA HA). intros [H _]. now apply H.
Qed.

Lemma co_occurrence_is_mutual_witness :
  In "PhysicsShape" (JsObj.keys (ComponentDefinition.coOccurrences physicsBodyCached))
  <-> In "PhysicsBody" (JsObj.keys (ComponentDefinition.coOccurrences physicsShapeCached)).
Proof.
  refine (proj1 (co_occurrence_is_mutual
                   sampleRepo sampleUnits sampleSystemUnits sampleExamplesDir
                   "PhysicsBody" "PhysicsShape" physicsBodyCached physicsShapeCached
                   _ _)).
  - vm_compute. right. left. reflexivity.
  - vm_compute. right. right. left. reflexivity.
Defined.

(** ** Tools over the cache *)

Lemma filter_ext_in (A : Type) (p q : A -> bool) (l : list A) :
  (forall x, In x l -> p x = q x) -> filter p l = filter q l.
Proof.
  induction l as [|a r IH]; intros H; [reflexivity |].
  simpl. rewrite (H a (or_introl eq_refl)), IH; [reflexivity |].
  intros x Hx. apply H. now right.
Qed.

(** The constraints the tool reads for [componentName], narrowed to those
    that put something before it, or after it. *)
Lemma narrowed_constraints (cache : EnhancedCacheData) (componentName : string) :
  mustAddBefore (getOrderingConstraints cache (Some componentName)) componentName
  = mustAddBefore (ordering cache) componentName
  /\ mustAddAfter (getOrderingConstraints cache (Some componentName)) componentName
     = mustAddAfter (ordering cache) componentName.
Proof.
  unfold getOrderingConstraints, mustAddBefore, mustAddAfter.
  destruct (isEmpty componentName); [split; reflexivity |].
  rewrite !filter_filter. split; apply filter_ext_in; intros c _.
  - destruct (String.eqb (OrderingConstraint.before c) componentName),
             (String.eqb (OrderingConstraint.after c) componentName); reflexivity.
  - destruct (String.eqb (OrderingConstraint.before c) componentName),
             (String.eqb (OrderingConstraint.after c) componentName); reflexivity.
Qed.

Lemma filter_eqb_NoDup (l : list string) (x : string) :
  NoDup l -> filter (fun y => String.eqb y x) l = if includes l x then [x] else [].
Proof.
  induction l as [|a r IH]; intros Hnd; [reflexivity |].
  inversion Hnd as [|? ? Hnot Hnd']; subst.
  unfold includes. cbn [filter existsb]. fold (includes r x).
  rewrite (String.eqb_sym x a).
  destruct (String.eqb_spec a x) as [->|Hne].
  - cbn [orb]. rewrite (IH Hnd').
    apply includes_false in Hnot. now rewrite Hnot.
  - cbn [orb]. now apply IH.
Qed.

Lemma cache_requires_NoDup (repo : Checkout) (units : list SourceUnit)
    (systems : Systems) (examples : list ExampleCode.t)
    (key : string) (record : ComponentDefinition.t) :
  In (key, record) (generateCacheComponents repo units systems examples) ->
  NoDup (ComponentDefinition.requires record).
Proof.
  intros H. now destruct (cache_component_history _ _ _ _ _ _ H) as (_ & _ & _ & _ & Hn & _).
Qed.

(** The constraints that put something before [componentName] are those
    made from its own record, one for each of its requirements. *)
Lemma constraints_before (components : Components) (componentName : string) :
  NoDup (JsObj.keys components) ->
  mustAddBefore (generateOrderingConstraints components) componentName
  = map (fun required =>
           OrderingConstraint.mk componentName required
             (componentName ++ " requires " ++ required ++ " to be added first"))
      match JsObj.get componentName components with
      | Some component => ComponentDefinition.requires component
      | None => []
      end.
Proof.
  unfold mustAddBefore, generateOrderingConstraints.
  induction components as [|[k c] r IH]; intros Hnd; [reflexivity |].
  inversion Hnd as [|? ? Hnot Hnd']; subst.
  cbn [flat_map fst snd JsObj.get]. rewrite filter_app, (IH Hnd').
  destruct (String.eqb_spec componentName k) as [->|Hne].
  - assert (Hr : JsObj.get k r = None).
    { destruct (JsObj.get k r) as [c'|] eqn:E; [| reflexivity].
      exfalso. apply Hnot. apply In_of_get in E. apply in_map_iff. now exists (k, c'). }
    rewrite Hr. cbn [map]. rewrite app_nil_r.
    induction (ComponentDefinition.requires c) as [|y ys IHy]; [reflexivity |].
    cbn [map filter OrderingConstraint.before]. rewrite String.eqb_refl.
    now rewrite IHy.
  - assert (Hk : filter
                   (fun c0 => String.eqb (OrderingConstraint.before c0) componentName)
                   (map (fun required =>
                           OrderingConstraint.mk k required
                             (k ++ " requires " ++ required ++ " to be added first"))
                        (ComponentDefinition.requires c)) = []).
    { apply filter_none. intros x Hx. apply in_map_iff in Hx.
      destruct Hx as (y & <- & _). cbn. apply String.eqb_neq. congruence. }
    rewrite Hk. reflexivity.
Qed.

(** The constraints that put something after [componentName] are made from
    the records that require it, one for each. *)
Lemma constraints_after (components : Components) (componentName : string) :
  (forall k c, In (k, c) components -> NoDup (ComponentDefinition.requires c)) ->
  mustAddAfter (generateOrderingConstraints components) componentName
  = map (fun requiring =>
           OrderingConstraint.mk requiring componentName
             (requiring ++ " requires " ++ componentName ++ " to be added first"))
      (requiringComponents components componentName).
Proof.
  unfold mustAddAfter, generateOrderingConstraints, requiringComponents.
  induction components as [|[k c] r IH]; intros Hnd; [reflexivity |].
  cbn [flat_map fst snd filter]. rewrite filter_app, IH
    by (intros; apply (Hnd k0); now right).
  specialize (Hnd k c (or_introl eq_refl)).
  assert (Hk : filter (fun c0 => String.eqb (OrderingConstraint.after c0) componentName)
                 (map (fun required =>
                         OrderingConstraint.mk k required
                           (k ++ " requires " ++ required ++ " to be added first"))
                      (ComponentDefinition.requires c))
               = map (fun required =>
                        OrderingConstraint.mk k required
                          (k ++ " requires " ++ required ++ " to be added first"))
                   (filter (fun y => String.eqb y componentName)
                      (ComponentDefinition.requires c))).
  { clear. induction (ComponentDefinition.requires c) as [|y ys IHy]; [reflexivity |].
    cbn [map filter OrderingConstraint.after].
    destruct (String.eqb y componentName); cbn [map]; now rewrite IHy. }
  rewrite Hk, (filter_eqb_NoDup _ _ Hnd).
  destruct (includes (ComponentDefinition.requires c) componentName); reflexivity.
Qed.

(** X14. The answer of [checkComponentOrder] for a component of the
    cache [generateCache] makes.  When no constraint names the component,
    which for a name that is not empty means that it has no requirement and
    nothing requires it, the answer says so.  Otherwise the answer is a
    heading; the requirements of the component as its record lists them,
    each with the reason that the component requires it, if there is any;
    the components that require it, in the order of the cache, each with the
    reason that it requires the component, if there is any; and an example
    whose [addComponent] lines name the requirements, then the component,
    then the components that require it. *)
Theorem shown_order_puts_requirements_first
    (repo : Checkout) (units : list SourceUnit) (systemUnits : list SystemUnit)
    (examplesDir : option (list ExampleEntry)) (componentName : string) :
  let cache := generateCache repo units systemUnits examplesDir in
  let requirements := getComponentRequirements cache componentName in
  let requiring := requiringComponents (cacheComponents cache) componentName in
  let constraints := getOrderingConstraints cache (Some componentName) in
  (componentName <> EmptyString ->
   (constraints = [] <-> requirements = [] /\ requiring = []))
  /\ (constraints = [] ->
      checkComponentOrder cache componentName
      = ("No ordering constraints found for " ++ quoted componentName ++ "."
         ++ newline ++ newline
         ++ "This component has no specific ordering requirements.")%string)
  /\ (constraints <> [] ->
      checkComponentOrder cache componentName
      = trim
          ("# Component Ordering for " ++ componentName ++ newline ++ newline
           ++ match requirements with
              | [] => EmptyString
              | _ =>
                  ("## Must Add These Components BEFORE " ++ componentName ++ ":")
                  ++ newline ++ newline
                  ++ String.concat ""
                       (map (fun required =>
                               "- **" ++ required ++ "**" ++ newline
                               ++ "  - Reason: "
                               ++ (componentName ++ " requires " ++ required
                                   ++ " to be added first")
                               ++ newline ++ newline)
                            requirements)
              end
           ++ match requiring with
              | [] => EmptyString
              | _ =>
                  ("## These Components Must Be Added AFTER " ++ componentName ++ ":")
                  ++ newline ++ newline
                  ++ String.concat ""
                       (map (fun other =>
                               "- **" ++ other ++ "**" ++ newline
                               ++ "  - Reason: "
                               ++ (other ++ " requires " ++ componentName
                                   ++ " to be added first")
                               ++ newline ++ newline)
                            requiring)
              end
           ++ "## Correct Order Example" ++ newline ++ newline
           ++ "```typescript" ++ newline
           ++ String.concat ""
                (map (fun name => "entity.addComponent(" ++ name ++ ");" ++ newline)
                     (requirements ++ [componentName] ++ requiring))
           ++ "```" ++ newline)%string).
Proof.
  intros cache requirements requiring constraints.
  assert (Hb : mustAddBefore constraints componentName
               = map (fun required =>
                        OrderingConstraint.mk componentName required
                          (componentName ++ " requires " ++ required
                           ++ " to be added first"))
                   requirements).
  { unfold constraints. rewrite (proj1 (narrowed_constraints cache componentName)).
    unfold requirements, getComponentRequirements, cache.
    cbn [generateCache ordering cacheComponents].
    apply constraints_before, cache_keys_NoDup. }
  assert (Ha : mustAddAfter constraints componentName
               = map (fun other =>
                        OrderingConstraint.mk other componentName
                          (other ++ " requires " ++ componentName
                           ++ " to be added first"))
                   requiring).
  { unfold constraints. rewrite (proj2 (narrowed_constraints cache componentName)).
    unfold requiring, cache. cbn [generateCache ordering cacheComponents].
    apply constraints_after. intros k c. apply cache_requires_NoDup. }
  clearbody requirements requiring.
  split; [| split].
  - intros Hne. split.
    + intros E. rewrite E in Hb, Ha.
      cbn [mustAddBefore mustAddAfter filter] in Hb, Ha.
      split.
      * destruct requirements; [reflexivity | discriminate Hb].
      * destruct requiring; [reflexivity | discriminate Ha].
    + intros [Hreq Hdep]. rewrite Hreq in Hb. rewrite Hdep in Ha. cbn [map] in Hb, Ha.
      destruct constraints as [|c r] eqn:E; [reflexivity |].
      exfalso.
      assert (Hc : In c constraints) by (rewrite E; now left).
      unfold constraints, getOrderingConstraints in Hc.
      destruct componentName as [|a n]; [contradiction |]. cbn [isEmpty] in Hc.
      apply filter_In in Hc. destruct Hc as [_ Hc].
      apply orb_true_iff in Hc. destruct Hc as [Hc|Hc].
      * assert (Hin : In c (mustAddBefore (c :: r) (String a n))).
        { apply filter_In. split; [now left | exact Hc]. }
        rewrite Hb in Hin. destruct Hin.
      * assert (Hin : In c (mustAddAfter (c :: r) (String a n))).
        { apply filter_In. split; [now left | exact Hc]. }
        rewrite Ha in Hin. destruct Hin.
  - intros E. unfold checkComponentOrder. fold cache. fold constraints.
    now rewrite E.
  - intros Hsome. unfold checkComponentOrder. fold cache. fold constraints.
    unfold correctOrder, orderSection.
    rewrite Hb, Ha, !length_map, !map_map.
    cbn [OrderingConstraint.after OrderingConstraint.before OrderingConstraint.reason].
    rewrite (map_id requirements), (map_id requiring).
    destruct constraints as [|c r]; [now destruct Hsome |].
    destruct requirements as [|q qs], requiring as [|d ds];
      cbn [List.length Nat.ltb Nat.leb];
      match goal with
      | |- ?shown = ?expected => constr_eq shown expected
      end;
      reflexivity.
Qed.

Lemma shown_order_puts_requirements_first_witness :
  checkComponentOrder sampleCache "PhysicsBody"
  = ("# Component Ordering for PhysicsBody" ++ newline ++ newline
     ++ "## Must Add These Components BEFORE PhysicsBody:" ++ newline ++ newline
     ++ "- **PhysicsShape**" ++ newline
     ++ "  - Reason: PhysicsBody requires PhysicsShape to be added first"
     ++ newline ++ newline
     ++ "## Correct Order Example" ++ newline ++ newline
     ++ "```typescript" ++ newline
     ++ "entity.addComponent(PhysicsShape);" ++ newline
     ++ "entity.addComponent(PhysicsBody);" ++ newline
     ++ "```")%string.
Proof.
  refine (eq_trans
            (proj2 (proj2 (shown_order_puts_requirements_first
                             sampleRepo sampleUnits sampleSystemUnits sampleExamplesDir
                             "PhysicsBody")) _) _).
  - vm_compute. discriminate.
  - vm_compute. reflexivity.
Defined.

(** A component that another requires is shown before it. *)
Example checkComponentOrder_of_a_required_component :
  checkComponentOrder sampleCache "Transform"
  = ("# Component Ordering for Transform" ++ newline ++ newline
     ++ "## These Components Must Be Added AFTER Transform:" ++ newline ++ newline
     ++ "- **OneHandGrabbable**" ++ newline
     ++ "  - Reason: OneHandGrabbable requires Transform to be added first"
     ++ newline ++ newline
     ++ "## Correct Order Example" ++ newline ++ newline
     ++ "```typescript" ++ newline
     ++ "entity.addComponent(Transform);" ++ newline
     ++ "entity.addComponent(OneHandGrabbable);" ++ newline
     ++ "```")%string.
Proof.
  vm_compute. reflexivity.
Qed.

(** A name that no constraint mentions. *)
Example checkComponentOrder_without_constraint :
  checkComponentOrder sampleCache "Audio"
  = ("No ordering constraints found for " ++ quoted "Audio" ++ "."
     ++ newline ++ newline
     ++ "This component has no specific ordering requirements.")%string.
Proof.
  reflexivity.
Qed.

Lemma contains_join (sep x : string) (l : list string) :
  In x l -> contains x (join sep l) = true.
Proof.
  induction l as [|a r IH]; intros H; [destruct H |].
  destruct r as [|b r].
  - destruct H as [->|[]]. apply contains_refl.
  - change (join sep (a :: b :: r)) with (a ++ sep ++ join sep (b :: r))%string.
    destruct H as [->|H].
    + apply (contains_middle EmptyString x).
    + apply (contains_trans x (join sep (b :: r))); [now apply IH |].
      apply contains_iff. exists (a ++ sep)%string, EmptyString.
      now rewrite append_assoc, append_nil_r.
Qed.

Lemma generated_rules_In (components : Components) (systems : Systems)
    (rule : ValidationRule.t) :
  In rule (generateValidationRules components systems)
  <-> (exists e, In e components /\ In rule (componentRules e))
      \/ (exists e, In e systems /\ In rule (systemRules e))
      \/ rule = entityCreationRule.
Proof.
  unfold generateValidationRules. rewrite !in_app_iff, !in_flat_map.
  cbn [In]. intuition.
Qed.

(** X15. Asking for the validation rules of a component of the cache
    returns rules of the cache and among them the rules made for the
    component: its requirement rule when it has requirements, its system rule
    when a system uses it.  The rule of every component that requires it is
    returned too, the name being part of that rule's check.  Asking without
    a name, or with the empty name, returns all rules. *)
Theorem rules_of_a_component_are_found
    (repo : Checkout) (units : list SourceUnit) (systemUnits : list SystemUnit)
    (examplesDir : option (list ExampleEntry))
    (key : string) (record : ComponentDefinition.t) :
  let cache := generateCache repo units systemUnits examplesDir in
  In (key, record) (cacheComponents cache) ->
  (forall rule, In rule (getValidationRules cache (Some key)) -> In rule (validation cache))
  /\ (ComponentDefinition.requires record <> [] ->
      In (requiresRule key record) (getValidationRules cache (Some key)))
  /\ (ComponentDefinition.usedBySystems record <> [] ->
      In (systemRule key record) (getValidationRules cache (Some key)))
  /\ (forall other dependent,
         In (other, dependent) (cacheComponents cache) ->
         In key (ComponentDefinition.requires dependent) ->
         In (requiresRule other dependent) (getValidationRules cache (Some key)))
  /\ getValidationRules cache None = validation cache
  /\ getValidationRules cache (Some EmptyString) = validation cache.
Proof.
  intros cache H.
  assert (Hfound : forall rule,
             In rule (validation cache) ->
             contains key (ValidationRule.id rule) = true
             \/ contains key (ValidationRule.check rule) = true ->
             In rule (getValidationRules cache (Some key))).
  { intros rule Hin Hc. unfold getValidationRules.
    destruct (isEmpty key); [exact Hin |].
    apply filter_In. split; [exact Hin |].
    destruct Hc as [-> | ->]; [reflexivity |].
    now rewrite !orb_true_r. }
  assert (Hreq : forall k c,
             In (k, c) (cacheComponents cache) ->
             ComponentDefinition.requires c <> [] ->
             In (requiresRule k c) (validation cache)).
  { intros k c Hin Hne. unfold cache. cbn [generateCache validation].
    apply generated_rules_In. left. exists (k, c). split; [exact Hin |].
    unfold componentRules. cbn [fst snd]. apply in_or_app. left.
    apply nonempty_length in Hne. rewrite Hne. now left. }
  split; [| split; [| split; [| split; [| split]]]]; try reflexivity.
  - intros rule Hr. unfold getValidationRules in Hr.
    destruct (isEmpty key); [exact Hr |].
    apply filter_In in Hr. tauto.
  - intros Hne. apply Hfound; [now apply Hreq |].
    left. apply (contains_middle "component-" key "-requires").
  - intros Hne. apply Hfound.
    + unfold cache. cbn [generateCache validation].
      apply generated_rules_In. left. exists (key, record). split; [exact H |].
      unfold componentRules. cbn [fst snd]. apply in_or_app. right.
      apply nonempty_length in Hne. rewrite Hne. now left.
    + left. apply (contains_middle "component-" key "-system").
  - intros other dependent Hin Hk. apply Hfound.
    + apply Hreq; [exact Hin |]. intros E. rewrite E in Hk. destruct Hk.
    + right. cbn [requiresRule ValidationRule.check].
      apply (contains_trans key
               (join ", " (ComponentDefinition.requires dependent)));
        [now apply contains_join |].
      apply (contains_middle "entity has ").
Qed.

Lemma rules_of_a_component_are_found_witness :
  In (requiresRule "PhysicsBody" physicsBodyCached)
    (getValidationRules sampleCache (Some "PhysicsBody")).
Proof.
  refine (proj1 (proj2 (rules_of_a_component_are_found
                          sampleRepo sampleUnits sampleSystemUnits sampleExamplesDir
                          "PhysicsBody" physicsBodyCached _)) _).
  - vm_compute. right. left. reflexivity.
  - discriminate.
Defined.

Lemma span_run (stop : ascii -> bool) (run rest : string) :
  (forall c, In c (chars run) -> stop c = false) ->
  match rest with String d _ => stop d = true | EmptyString => True end ->
  span stop (run ++ rest) = (run, rest).
Proof.
  induction run as [|c r IH]; intros Hrun Hrest.
  - destruct rest as [|d rest]; [reflexivity |]. simpl. now rewrite Hrest.
  - simpl. rewrite (Hrun c (or_introl eq_refl)).
    rewrite IH; [reflexivity | | exact Hrest].
    intros x Hx. apply Hrun. now right.
Qed.

(** The name comes back out of the id of a requirement rule. *)
Lemma componentMatch_requiresRuleId (name : string) :
  name <> EmptyString ->
  (forall c, In c (chars name) -> isWordChar c = true) ->
  componentMatch (requiresRuleId name) = Some name.
Proof.
  intros Hne Hword.
  assert (H : matchRequiresId (requiresRuleId name) = Some name).
  { unfold matchRequiresId, requiresRuleId.
    rewrite stripPrefix_append. cbn [andThen].
    unfold runBefore. rewrite (span_run _ name "-requires").
    - destruct name as [|a n]; [contradiction | reflexivity].
    - intros c Hc. now rewrite (Hword c Hc).
    - reflexivity. }
  unfold requiresRuleId in *.
  change ("component-" ++ name ++ "-requires")%string
    with (String "c" ("omponent-" ++ name ++ "-requires"))%string in *.
  cbn [componentMatch]. now rewrite H.
Qed.

Lemma contains_numbered (item : string) (items : list string) :
  In item items -> forall i, contains item (numbered i items) = true.
Proof.
  induction items as [|a r IH]; intros H i; [destruct H |].
  cbn [numbered]. destruct H as [->|H].
  - apply contains_iff.
    exists (decimal i ++ ". ")%string, (newline ++ numbered (S i) r)%string.
    now rewrite append_assoc.
  - apply (contains_trans item (numbered (S i) r)); [now apply IH |].
    apply contains_iff. exists (decimal i ++ ". " ++ a ++ newline)%string, EmptyString.
    now rewrite !append_assoc, append_nil_r.
Qed.

(** X16. [validateCode] finds the requirement rules by a pattern on
    the rule id, and for a component whose name is made of word characters
    the pattern gives the name back.  So when code names such a component of
    the cache but not one of its requirements, the issue made of the rule's
    message and the missing name is raised and printed in the answer. *)
Theorem missing_requirement_is_reported
    (repo : Checkout) (units : list SourceUnit) (systemUnits : list SystemUnit)
    (examplesDir : option (list ExampleEntry))
    (key : string) (record : ComponentDefinition.t) (required code : string) :
  let cache := generateCache repo units systemUnits examplesDir in
  let issue :=
    (ValidationRule.message (requiresRule key record) ++ " - Missing " ++ required)%string in
  In (key, record) (cacheComponents cache) ->
  key <> EmptyString ->
  (forall c, In c (chars key) -> isWordChar c = true) ->
  In required (ComponentDefinition.requires record) ->
  contains key code = true ->
  contains required code = false ->
  componentMatch (ValidationRule.id (requiresRule key record)) = Some key
  /\ In issue (issuesOf cache code)
  /\ contains issue (validateCode cache code) = true.
Proof.
  intros cache issue Hin Hne Hword Hreq Hkey Hmiss.
  assert (Hmatch : componentMatch (ValidationRule.id (requiresRule key record)) = Some key)
    by now apply componentMatch_requiresRuleId.
  assert (Hissue : In issue (issuesOf cache code)).
  { unfold issuesOf. apply in_or_app. right. apply in_flat_map.
    exists (requiresRule key record). split.
    - unfold getValidationRules, cache. cbn [generateCache validation].
      apply generated_rules_In. left. exists (key, record). split; [exact Hin |].
      unfold componentRules. cbn [fst snd]. apply in_or_app. left.
      assert (L : ComponentDefinition.requires record <> [])
        by (intros E; rewrite E in Hreq; destruct Hreq).
      apply nonempty_length in L. rewrite L. now left.
    - unfold ruleIssues. cbn [requiresRule ValidationRule.severity].
      apply in_map_iff. exists required. split; [reflexivity |].
      unfold missingRequirements. rewrite Hmatch, Hkey.
      apply filter_In. split; [| now rewrite Hmiss].
      unfold getComponentRequirements, cache. cbn [generateCache cacheComponents].
      unfold cache in Hin. cbn [generateCache cacheComponents] in Hin.
      rewrite (get_of_In _ _ _ _ (cache_keys_NoDup _ _ _ _) Hin). exact Hreq. }
  split; [exact Hmatch |]. split; [exact Hissue |].
  unfold validateCode.
  destruct (issuesOf cache code) as [|first others] eqn:E; [destruct Hissue |].
  cbn [List.length Nat.eqb andb Nat.ltb Nat.leb].
  apply (contains_trans issue (numbered 1 (first :: others)));
    [now apply contains_numbered |].
  apply contains_iff.
  exists ("# Code Validation Results" ++ newline ++ newline
          ++ "## Issues Found" ++ newline ++ newline)%string.
  eexists. rewrite !append_assoc. reflexivity.
Qed.

Lemma missing_requirement_is_reported_witness :
  In "PhysicsBody requires PhysicsShape component(s) - Missing PhysicsShape"
    (issuesOf sampleCache "entity.addComponent(PhysicsBody);").
Proof.
  refine (proj1 (proj2 (missing_requirement_is_reported
                          sampleRepo sampleUnits sampleSystemUnits sampleExamplesDir
                          "PhysicsBody" physicsBodyCached "PhysicsShape"
                          "entity.addComponent(PhysicsBody);" _ _ _ _ _ _))).
  - vm_compute. right. left. reflexivity.
  - discriminate.
  - intros c Hc. vm_compute in Hc.
    repeat (destruct Hc as [<-|Hc]; [reflexivity |]). destruct Hc.
  - simpl. left. reflexivity.
  - reflexivity.
  - reflexivity.
Defined.

Lemma suffixes_apart (a b : string) :
  (a ++ "-requires")%string <> (b ++ "-system")%string.
Proof.
  intros H. apply (f_equal chars) in H. rewrite !chars_append in H.
  apply (f_equal (@rev ascii)) in H. rewrite !rev_app_distr in H.
  simpl in H. discriminate H.
Qed.

Lemma componentRules_ids (e : string * ComponentDefinition.t) (id : string) :
  In id (map ValidationRule.id (componentRules e)) ->
  id = ("component-" ++ fst e ++ "-requires")%string
  \/ id = ("component-" ++ fst e ++ "-system")%string.
Proof.
  unfold componentRules. rewrite map_app, in_app_iff.
  destruct (0 <? List.length (ComponentDefinition.requires (snd e)));
    destruct (0 <? List.length (ComponentDefinition.usedBySystems (snd e)));
    cbn; intuition.
Qed.

Lemma componentRules_ids_NoDup (e : string * ComponentDefinition.t) :
  NoDup (map ValidationRule.id (componentRules e)).
Proof.
  unfold componentRules.
  destruct (0 <? List.length (ComponentDefinition.requires (snd e)));
    destruct (0 <? List.length (ComponentDefinition.usedBySystems (snd e)));
    cbn.
  - constructor; [| constructor; [intros [] | constructor]].
    intros [E|[]]. inversion E as [E']. symmetry in E'. now apply suffixes_apart in E'.
  - constructor; [intros [] | constructor].
  - constructor; [intros [] | constructor].
  - constructor.
Qed.

Lemma systemRules_ids (e : string * SystemDefinition.t) (id : string) :
  In id (map ValidationRule.id (systemRules e)) ->
  id = ("system-" ++ fst e ++ "-components")%string.
Proof.
  unfold systemRules.
  destruct (0 <? List.length (SystemDefinition.queriesComponents (snd e)));
    cbn; intuition.
Qed.

Lemma ids_of_entries_NoDup (V : Type) (ids : string * V -> list string)
    (entries : JsObj.t V) :
  NoDup (JsObj.keys entries) ->
  (forall e, NoDup (ids e)) ->
  (forall e e' id, In id (ids e) -> In id (ids e') -> fst e = fst e') ->
  NoDup (flat_map ids entries).
Proof.
  intros Hnd Hone Hapart.
  induction entries as [|e r IH]; [constructor |].
  inversion Hnd as [|? ? Hnot Hnd']; subst.
  cbn [flat_map]. apply NoDup_app; [apply Hone | now apply IH |].
  intros id H1 H2. apply in_flat_map in H2. destruct H2 as (e' & He' & H2).
  apply Hnot. rewrite (Hapart e e' id H1 H2).
  apply in_map_iff. now exists e'.
Qed.

Lemma rule_ids_NoDup (components : Components) (systems : Systems) :
  NoDup (JsObj.keys components) ->
  NoDup (JsObj.keys systems) ->
  NoDup (map ValidationRule.id (generateValidationRules components systems)).
Proof.
  intros Hc Hs. unfold generateValidationRules.
  rewrite !map_app, !flat_map_concat_map, !concat_map, !map_map,
    <- !flat_map_concat_map.
  apply NoDup_app; [| apply NoDup_app |].
  - apply ids_of_entries_NoDup; [exact Hc | apply componentRules_ids_NoDup |].
    intros e e' id H1 H2.
    apply componentRules_ids in H1. apply componentRules_ids in H2.
    destruct H1 as [-> | ->], H2 as [H2|H2]; inversion H2 as [H'].
    + now apply append_cancel_r in H'.
    + now apply suffixes_apart in H'.
    + symmetry in H'. now apply suffixes_apart in H'.
    + now apply append_cancel_r in H'.
  - apply ids_of_entries_NoDup; [exact Hs | |].
    + intros e. unfold systemRules.
      destruct (0 <? List.length (SystemDefinition.queriesComponents (snd e)));
        cbn; repeat constructor. intros [].
    + intros e e' id H1 H2.
      apply systemRules_ids in H1. apply systemRules_ids in H2.
      subst id. inversion H2 as [H']. now apply append_cancel_r in H'.
  - repeat constructor. intros [].
  - intros id H1 [H2|[]]. subst id.
    apply in_flat_map in H1. destruct H1 as (e & _ & H1).
    apply systemRules_ids in H1. discriminate H1.
  - intros id H1 H2. apply in_flat_map in H1. destruct H1 as (e & _ & H1).
    apply componentRules_ids in H1.
    apply in_app_or in H2. destruct H2 as [H2|[H2|[]]].
    + apply in_flat_map in H2. destruct H2 as (e' & _ & H2).
      apply systemRules_ids in H2. subst id. destruct H1 as [H1|H1]; discriminate H1.
    + subst id. destruct H1 as [H1|H1]; discriminate H1.
Qed.

(** X17. No two validation rules of the cache have the same id: the
    id names the kind of the rule and the component or system it was made
    for, and every component and system has one record. *)
Theorem validation_rule_ids_are_unique
    (repo : Checkout) (units : list SourceUnit) (systemUnits : list SystemUnit)
    (examplesDir : option (list ExampleEntry)) :
  NoDup (map ValidationRule.id
           (validation (generateCache repo units systemUnits examplesDir))).
Proof.
  cbn [generateCache validation].
  apply rule_ids_NoDup; [apply cache_keys_NoDup | apply parsed_systems_keys_NoDup].
Qed.

(** ** Searching the examples *)




Lemma insertScored_perm (item : CodeExample.t * nat) (l : list (CodeExample.t * nat)) :
  Permutation (insertScored item l) (item :: l).
Proof.
  induction l as [|other r IH]; simpl; [reflexivity |].
  destruct (snd other <=? snd item); [reflexivity |].
  rewrite IH. apply perm_swap.
Qed.

Lemma sortByScore_perm (l : list (CodeExample.t * nat)) :
  Permutation (sortByScore l) l.
Proof.
  unfold sortByScore. induction l as [|p r IH]; simpl; [reflexivity |].
  rewrite insertScored_perm. now constructor.
Qed.

Lemma insertScored_sorted (item : CodeExample.t * nat) (l : list (CodeExample.t * nat)) :
  Sorted higherFirst l -> Sorted higherFirst (insertScored item l).
Proof.
  induction 1 as [|other r Hsorted IH Hhd]; simpl.
  - repeat constructor.
  - destruct (snd other <=? snd item) eqn:Hle.
    + constructor; [now constructor |]. constructor.
      now apply Nat.leb_le.
    + assert (Hpq : higherFirst other item).
      { unfold higherFirst. apply Nat.leb_gt in Hle. lia. }
      constructor; [assumption |].
      destruct r as [|q' r']; simpl in *.
      * now constructor.
      * destruct (snd q' <=? snd item); constructor; [assumption |].
        now inversion Hhd.
Qed.

Lemma sortByScore_sorted (l : list (CodeExample.t * nat)) :
  StronglySorted higherFirst (sortByScore l).
Proof.
  apply Sorted_StronglySorted.
  - intros a b c Hab Hbc. unfold higherFirst in *. lia.
  - unfold sortByScore. induction l as [|p r IH]; simpl; [constructor |].
    now apply insertScored_sorted.
Qed.

Lemma sorted_prefix_dominates (A : Type) (R : A -> A -> Prop) (n : nat) (l : list A) :
  StronglySorted R l ->
  StronglySorted R (firstn n l)
  /\ forall a b, In a (firstn n l) -> In b (skipn n l) -> R a b.
Proof.
  intros H. revert n. induction H as [|x r Hr IH Hx]; intros n.
  - rewrite firstn_nil, skipn_nil. split; [constructor | intros a b []].
  - destruct n as [|n]; [split; [constructor | intros a b []] |].
    cbn [firstn skipn]. destruct (IH n) as [IH1 IH2]. split.
    + constructor; [exact IH1 |].
      rewrite Forall_forall in *. intros y Hy. apply Hx.
      now apply (firstn_In _ n).
    + intros a b [<-|Ha] Hb.
      * rewrite Forall_forall in Hx. apply Hx.
        rewrite <- (firstn_skipn n r). apply in_or_app. now right.
      * now apply IH2.
Qed.

(** X19. [findSimilarCode] shows at most three examples, each with a
    positive score, in descending order of score; an example with a positive
    score that is not shown scores no more than any of the three shown.  A
    score is 10 for the title, 5 for the description and 2 for the code
    containing the lower-cased text, plus 3 for every tag the text
    contains. *)
Theorem top_examples_are_the_best_three (cache : EnhancedCacheData) (description : string) :
  let lower := toLowerCase description in
  let top := topExamples cache description in
  List.length top <= 3
  /\ StronglySorted higherFirst top
  /\ (forall item,
         In item top ->
         In (fst item) (getAllCodeExamples cache)
         /\ snd item = scoreOf lower (fst item)
         /\ 0 < snd item)
  /\ (forall example,
         In example (getAllCodeExamples cache) ->
         0 < scoreOf lower example ->
         In (example, scoreOf lower example) top
         \/ (List.length top = 3
             /\ forall item, In item top -> scoreOf lower example <= snd item))
  /\ (forall example,
         scoreOf lower example <= 17 + 3 * List.length (CodeExample.tags example)).
Proof.
  intros lower top. unfold top, topExamples. fold lower.
  set (scored := map (fun example => (example, scoreOf lower example))
                   (getAllCodeExamples cache)).
  set (kept := filter (fun item => 0 <? snd item) scored).
  pose proof (sortByScore_sorted kept) as Hsorted.
  pose proof (sortByScore_perm kept) as Hperm.
  destruct (sorted_prefix_dominates _ higherFirst 3 _ Hsorted) as [Hfirst Hdom].
  assert (Hkept : forall item,
             In item kept <->
             In (fst item) (getAllCodeExamples cache)
             /\ snd item = scoreOf lower (fst item) /\ 0 < snd item).
  { intros [example score]. unfold kept, scored. rewrite filter_In, in_map_iff.
    cbn [fst snd]. split.
    - intros [(x & Hx & Hin) Hpos]. inversion Hx; subst.
      apply Nat.ltb_lt in Hpos. now repeat split.
    - intros (Hin & -> & Hpos). split; [now exists example | now apply Nat.ltb_lt]. }
  split; [apply firstn_le_length |]. split; [exact Hfirst |]. split; [| split].
  - intros item Hin. apply Hkept.
    apply (Permutation_in _ Hperm). now apply (firstn_In _ 3).
  - intros example Hin Hpos.
    assert (Hs : In (example, scoreOf lower example) (sortByScore kept)).
    { apply (Permutation_in _ (Permutation_sym Hperm)). apply Hkept. now repeat split. }
    rewrite <- (firstn_skipn 3 (sortByScore kept)) in Hs.
    apply in_app_or in Hs. destruct Hs as [Hs|Hs]; [now left |].
    right. split.
    + assert (L : 3 < List.length (sortByScore kept)).
      { destruct (le_lt_dec (List.length (sortByScore kept)) 3) as [Hle|Hlt];
          [| exact Hlt].
        rewrite skipn_all2 in Hs by exact Hle. destruct Hs. }
      rewrite length_firstn. lia.
    + intros item Hitem. exact (Hdom _ _ Hitem Hs).
  - intros example. unfold scoreOf.
    assert (Htags : forall tags start,
               fold_left (fun score tag =>
                            if contains (toLowerCase tag) lower then score + 3 else score)
                 tags start <= start + 3 * List.length tags).
    { induction tags as [|t r IH]; intros start; simpl; [lia |].
      destruct (contains (toLowerCase t) lower).
      - specialize (IH (start + 3)). lia.
      - specialize (IH start). lia. }
    specialize (Htags (CodeExample.tags example) 0).
    destruct (contains lower (toLowerCase (CodeExample.title example)));
      destruct (contains lower (toLowerCase (CodeExample.description example)));
      destruct (contains lower (toLowerCase (CodeExample.code example))); lia.
Qed.

(** ** Telemetry *)

Lemma countLines_append (a b : string) :
  countLines (a ++ b) = countLines a + countLines b.
Proof. induction a as [|c r IH]; simpl; [reflexivity | rewrite IH; lia]. Qed.

Lemma countLines_singleLine (s : string) : singleLine s = true -> countLines s = 0.
Proof.
  induction s as [|c r IH]; simpl; [reflexivity |].
  intros H. apply andb_true_iff in H. destruct H as [H1 H2].
  apply negb_true_iff in H1. rewrite H1. now apply IH.
Qed.

(** X20. Every call of [logToolCall] leaves exactly one trace.  When
    the telemetry directory exists or can be made, the append succeeds and
    the parameters can be serialized, the call adds one line to the file and
    prints nothing; in every other case the file stays as it was and one
    error message is printed.  So the line breaks of the file and the printed
    errors, taken together, grow by one with each call. *)
Theorem every_call_leaves_one_trace
    (toolName : string) (params : JsObj.t JsValue) (w : World) :
  let w' := snd (logToolCall toolName params w) in
  (fst (logBody toolName params w) = Returned tt
   <-> directoryReady w = true
       /\ appendFails w = false
       /\ exists paramsJSON,
           stringify (JsObject (sanitizeParams params)) = Returned (Some paramsJSON))
  /\ (fst (logBody toolName params w) = Returned tt ->
      exists line,
        singleLine line = true
        /\ telemetryFile w' = (telemetryFile w ++ line ++ newline)%string
        /\ errorLog w' = errorLog w)
  /\ (forall e,
         fst (logBody toolName params w) = Thrown e ->
         telemetryFile w' = telemetryFile w
         /\ errorLog w' = errorLog w ++ [("Telemetry logging failed:" ++ " " ++ e)%string])
  /\ countLines (telemetryFile w') + List.length (errorLog w')
     = countLines (telemetryFile w) + List.length (errorLog w) + 1.
Proof.
  intros w'. subst w'.
  assert (Hline : forall paramsJSON,
             stringify (JsObject (sanitizeParams params)) = Returned (Some paramsJSON) ->
             singleLine (telemetryLine (clock w) toolName paramsJSON) = true).
  { intros paramsJSON S.
    apply (stringify_singleLine (telemetryEvent (clock w) toolName params)).
    unfold telemetryEvent. now rewrite stringify_event, S. }
  destruct (logToolCall_outcome toolName params w)
    as [(pj & Hr & Ha & Hs & Hb & Hf & He)|(e & Hwhy & Hb & Hf & He)].
  - split; [| split; [| split]].
    + split; [intros _ | intros _; exact Hb].
      split; [exact Hr |]. split; [exact Ha |]. now exists pj.
    + intros _. exists (telemetryLine (clock w) toolName pj).
      split; [now apply Hline |]. now split.
    + intros e H. rewrite Hb in H. discriminate H.
    + rewrite Hf, He, !countLines_append.
      rewrite (countLines_singleLine _ (Hline pj Hs)).
      change (countLines newline) with 1. lia.
  - split; [| split; [| split]].
    + split; [intros H; rewrite Hb in H; discriminate H |].
      intros (Hr & Ha & pj & Hs). exfalso.
      destruct Hwhy as [H|[H|H]]; congruence.
    + intros H. rewrite Hb in H. discriminate H.
    + intros e' H. rewrite Hb in H. inversion H; subst e'. now split.
    + rewrite Hf, He, length_app. cbn. lia.
Qed.

Lemma sanitizeValue_idempotent (value : JsValue) :
  sanitizeValue (sanitizeValue value) = sanitizeValue value.
Proof.
  destruct value as [| | b | numeral | | s | n | items | props]; try reflexivity.
  cbn [sanitizeValue]. destruct (500 <? jsLength s) eqn:L.
  - cbn [sanitizeValue]. apply Nat.ltb_lt in L.
    assert (Hlen : jsLength (substringTo 500 s) = 500)
      by (apply substringTo_length; lia).
    rewrite jsLength_append, Hlen.
    change (500 <? 500 + jsLength "... (truncated)") with true. cbn iota.
    rewrite <- Hlen at 1.
    change "... (truncated)" with (String "." ".. (truncated)") at 1.
    now rewrite substringTo_prefix.
  - cbn [sanitizeValue]. now rewrite L.
Qed.

Lemma sanitizeValue_bounded (value : JsValue) (s : string) :
  sanitizeValue value = JsString s -> jsLength s <= 515.
Proof.
  destruct value as [| | b | numeral | | s0 | n | items | props]; try discriminate.
  cbn [sanitizeValue]. destruct (500 <? jsLength s0) eqn:L.
  - intros H. inversion H; subst s. apply Nat.ltb_lt in L.
    rewrite jsLength_append, substringTo_length by lia.
    change (jsLength "... (truncated)") with 15. lia.
  - intros H. inversion H; subst s. apply Nat.ltb_ge in L. lia.
Qed.

Lemma sanitized_entries (params : JsObj.t JsValue) (e : string * JsValue) :
  In e (sanitizeParams params) ->
  exists value, In (fst e, value) params /\ snd e = sanitizeValue value.
Proof.
  unfold sanitizeParams. revert e.
  apply fold_entries; [| intros ? []].
  intros acc x Hx Hacc e He. destruct e as [k v].
  apply set_In in He. destruct He as [[-> ->]|He]; [| now apply Hacc].
  exists (snd x). split; [now destruct x | reflexivity].
Qed.

Lemma sanitized_keys_NoDup (params : JsObj.t JsValue) :
  NoDup (JsObj.keys (sanitizeParams params)).
Proof.
  unfold sanitizeParams. apply fold_keys_NoDup; [| constructor].
  intros acc x. apply set_keys_NoDup.
Qed.

(** X21. After sanitizing, every string parameter is at most 515
    characters long, counted in code units as [length] counts them, and
    sanitizing again changes nothing: a truncated value is its own
    truncation.  Every stored value is the sanitized form of a parameter of
    the same name: a string of more than 500 characters is cut to its first
    500 and marked, a shorter one is kept, whatever the number of its
    bytes.  Values that are not strings, nested records and arrays among
    them, are stored as they are, however long the strings inside them. *)
Theorem sanitized_parameters_are_bounded_and_stable (params : JsObj.t JsValue) :
  sanitizeParams (sanitizeParams params) = sanitizeParams params
  /\ NoDup (JsObj.keys (sanitizeParams params))
  /\ (forall key s,
         In (key, JsString s) (sanitizeParams params) -> jsLength s <= 515)
  /\ (forall key stored,
         In (key, stored) (sanitizeParams params) ->
         exists value, In (key, value) params /\ stored = sanitizeValue value)
  /\ (forall s,
         sanitizeValue (JsString s)
         = if 500 <? jsLength s
           then JsString (substringTo 500 s ++ "... (truncated)")%string
           else JsString s)
  /\ (forall s, 500 <= jsLength s -> jsLength (substringTo 500 s) = 500)
  /\ sanitizeValue (JsString (repeatText 300 eAcute)) = JsString (repeatText 300 eAcute)
  /\ sanitizeValue (JsString (repeatText 501 eAcute))
     = JsString (repeatText 500 eAcute ++ "... (truncated)")%string
  /\ (forall value,
         (forall s, value <> JsString s) -> sanitizeValue value = value)
  /\ (forall long,
         sanitizeValue (JsArray [JsString long]) = JsArray [JsString long]
         /\ sanitizeValue (JsObject [("code", JsString long)])
            = JsObject [("code", JsString long)]).
Proof.
  split; [| split; [| split; [| split; [| split; [| split; [| split; [| split;
    [| split]]]]]]]].
  - unfold sanitizeParams at 1.
    rewrite (sanitize_from (sanitizeParams params) []).
    + cbn [app].
      assert (H : forall e, In e (sanitizeParams params) ->
                            (fst e, sanitizeValue (snd e)) = e).
      { intros [k v] He. destruct (sanitized_entries _ _ He) as (value & _ & Hv).
        cbn [fst snd] in *. subst v. now rewrite sanitizeValue_idempotent. }
      induction (sanitizeParams params) as [|a r IH]; [reflexivity |].
      cbn [map]. rewrite (H a (or_introl eq_refl)), IH; [reflexivity |].
      intros e He. apply H. now right.
    + cbn [app JsObj.keys map]. apply sanitized_keys_NoDup.
  - apply sanitized_keys_NoDup.
  - intros key s H. destruct (sanitized_entries _ _ H) as (value & _ & Hv).
    cbn [snd] in Hv. symmetry in Hv. now apply sanitizeValue_bounded in Hv.
  - intros key stored H. exact (sanitized_entries _ _ H).
  - reflexivity.
  - intros s H. now apply substringTo_length.
  - vm_compute. reflexivity.
  - vm_compute. reflexivity.
  - intros value H. destruct value; try reflexivity. now destruct (H s).
  - intros long. split; reflexivity.
Qed.

(** ** The documentation fetcher *)

(** The two ways a call of [fetchDoc] can go. *)
Lemma fetchDoc_run (path name : string) (w : FetchWorld) :
  exists success w',
    fetchDoc path name w = (Returned success, w')
    /\ sameSurroundings w w'
    /\ (if success
        then exists page,
            storable w path name page
            /\ docsFiles w'
               = JsObj.set name
                   (docHeader (docUrl path) (fetchClock w) ++ stdout page)%string (docsFiles w)
        else docsFiles w' = docsFiles w
             /\ forall page, ~ storable w path name page).
Proof.
  unfold fetchDoc, fetchBind, fetchTry, fetchBody, fetchBind, consoleLogLine, exec,
    storable, curlCommand.
  cbn [execAsync].
  destruct (execAsync w ("curl -sL " ++ quoted (docUrl path))) as [page|e] eqn:X.
  - assert (Hwarn : forall w0 : FetchWorld,
               exists w1,
                 (if isEmpty (stderr page) then fetchRet tt
                  else fun w2 =>
                         (Returned tt,
                          {| execAsync := execAsync w2;
                             writeFileFails := writeFileFails w2;
                             docsDirPath := docsDirPath w2;
                             docsDirExists := docsDirExists w2;
                             docsMkdirFails := docsMkdirFails w2;
                             docsFiles := docsFiles w2;
                             fetchClock := fetchClock w2;
                             consoleLog :=
                               consoleLog w2
                               ++ [("  WARNING: " ++ name ++ ": " ++ stderr page)%string] |}))
                   w0 = (Returned tt, w1)
                 /\ sameSurroundings w0 w1 /\ docsFiles w1 = docsFiles w0).
    { intros w0. destruct (isEmpty (stderr page)); eexists;
        (split; [reflexivity |]); now repeat split. }
    match goal with
    | |- context [(if isEmpty (stderr page) then _ else _) ?w0] =>
        destruct (Hwarn w0) as (w1 & -> & Hsame & Hfiles)
    end.
    cbn [docsFiles] in Hfiles.
    destruct Hsame as (S1 & S2 & S3 & S4 & S5 & S6).
    cbn [execAsync writeFileFails docsDirPath docsDirExists docsMkdirFails fetchClock]
      in S1, S2, S3, S4, S5, S6.
    destruct (isErrorPage (stdout page)) eqn:Herr.
    + exists false. eexists. split; [reflexivity |]. unfold sameSurroundings.
      cbn [execAsync writeFileFails docsDirPath docsDirExists docsMkdirFails
           docsFiles fetchClock].
      split; [now repeat split |]. split; [exact Hfiles |].
      intros page' (Hp & He & _). inversion Hp; subst. congruence.
    + destruct (jsLength (stdout page) <? 100) eqn:Hlen.
      * exists false. eexists. split; [reflexivity |]. unfold sameSurroundings.
      cbn [execAsync writeFileFails docsDirPath docsDirExists docsMkdirFails
           docsFiles fetchClock].
        split; [now repeat split |]. split; [exact Hfiles |].
        intros page' (Hp & _ & Hl & _). inversion Hp; subst.
        apply Nat.ltb_lt in Hlen. lia.
      * unfold fetchNow, writeDoc. rewrite S2.
        destruct (writeFileFails w name) eqn:Hw.
        -- exists false. eexists. split; [reflexivity |]. unfold sameSurroundings.
      cbn [execAsync writeFileFails docsDirPath docsDirExists docsMkdirFails
           docsFiles fetchClock].
           split; [now repeat split |]. split; [exact Hfiles |].
           intros page' (_ & _ & _ & Hf). congruence.
        -- exists true. eexists. split; [reflexivity |]. unfold sameSurroundings.
      cbn [execAsync writeFileFails docsDirPath docsDirExists docsMkdirFails
           docsFiles fetchClock].
           split; [now repeat split |].
           exists page. apply Nat.ltb_ge in Hlen.
           split; [now repeat split |]. now rewrite S6, Hfiles.
  - exists false. eexists. split; [reflexivity |]. unfold sameSurroundings.
      cbn [execAsync writeFileFails docsDirPath docsDirExists docsMkdirFails
           docsFiles fetchClock].
    split; [now repeat split |]. split; [reflexivity |].
    intros page' (Hp & _). discriminate Hp.
Qed.

Lemma sameSurroundings_trans (a b c : FetchWorld) :
  sameSurroundings a b -> sameSurroundings b c -> sameSurroundings a c.
Proof.
  unfold sameSurroundings. intros (A1 & A2 & A3 & A4 & A5 & A6) (B1 & B2 & B3 & B4 & B5 & B6).
  repeat split; congruence.
Qed.

Lemma fetchAll_run (docs : list OfficialDoc) :
  forall successCount failCount w,
  exists successCount' failCount' w',
    fetchAll docs successCount failCount w = (Returned (successCount', failCount'), w')
    /\ successCount' + failCount' = successCount + failCount + List.length docs
    /\ sameSurroundings w w'
    /\ forall name content,
        In (name, content) (docsFiles w') ->
        In (name, content) (docsFiles w) \/ wholePage docs (fetchClock w) name content.
Proof.
  induction docs as [|doc r IH]; intros s f w.
  - exists s, f, w. cbn. split; [reflexivity |]. split; [lia |].
    split; [now repeat split | auto].
  - cbn [fetchAll]. unfold fetchBind.
    destruct (fetchDoc_run (docPath doc) (docName doc) w)
      as (success & w1 & -> & Hsame & Hfiles).
    assert (Hclock : fetchClock w1 = fetchClock w) by apply Hsame.
    assert (Hstep : forall name content,
               In (name, content) (docsFiles w1) ->
               In (name, content) (docsFiles w)
               \/ wholePage (doc :: r) (fetchClock w) name content).
    { intros name content Hin. destruct success.
      - destruct Hfiles as (page & (Hp & He & Hl & Hw) & Hset).
        rewrite Hset in Hin. apply set_In in Hin.
        destruct Hin as [[-> ->]|Hin]; [| now left].
        right. exists doc, page. split; [now left |]. now repeat split.
      - destruct Hfiles as [Hfiles _]. rewrite Hfiles in Hin. now left. }
    assert (Hrest : forall s0 f0,
               s0 + f0 = s + f + 1 ->
               exists s' f' w',
                 fetchAll r s0 f0 w1 = (Returned (s', f'), w')
                 /\ s' + f' = s + f + List.length (doc :: r)
                 /\ sameSurroundings w w'
                 /\ forall name content,
                     In (name, content) (docsFiles w') ->
                     In (name, content) (docsFiles w)
                     \/ wholePage (doc :: r) (fetchClock w) name content).
    { intros s0 f0 Hsum.
      destruct (IH s0 f0 w1) as (s' & f' & w' & E & Hc & Hs & Hf).
      exists s', f', w'. split; [exact E |]. split; [cbn [List.length]; lia |].
      split; [now apply (sameSurroundings_trans w w1 w') |].
      intros name content Hin. destruct (Hf name content Hin) as [H|H].
      - now apply Hstep.
      - right. rewrite Hclock in H.
        destruct H as (d & page & Hd & H). exists d, page. split; [now right | exact H]. }
    destruct success; apply Hrest; lia.
Qed.

Lemma consoleLogLine_run (line : string) (w : FetchWorld) :
  exists w',
    consoleLogLine line w = (Returned tt, w')
    /\ sameSurroundings w w' /\ docsFiles w' = docsFiles w.
Proof. eexists. split; [reflexivity |]. now repeat split. Qed.

(** X22. [fetchDoc] never throws.  It answers [true] exactly when the
    command gave a page that is no error page and has a hundred characters
    or more, counted in code units as [length] counts them, and the file
    could be written; the file then holds the
    attribution header followed by the page.  When it answers [false] the
    stored files are as they were.  [main] fails only when the directory is
    missing and cannot be made, before anything is fetched; otherwise its two
    counters add up to the number of documents, and every file it leaves that
    was not there before is such a page of one of the documents. *)
Theorem fetcher_stores_whole_pages_only
    (docs : list OfficialDoc) (path name : string) (w : FetchWorld) :
  (exists success w',
      fetchDoc path name w = (Returned success, w')
      /\ sameSurroundings w w'
      /\ (success = true <-> exists page, storable w path name page)
      /\ (forall page,
             storable w path name page ->
             docsFiles w'
             = JsObj.set name
                 (docHeader (docUrl path) (fetchClock w) ++ stdout page)%string
                 (docsFiles w))
      /\ (success = false -> docsFiles w' = docsFiles w))
  /\ (docsDirExists w = false ->
      docsMkdirFails w = true ->
      fst (fetchMain docs w) = Thrown "mkdir failed"
      /\ docsFiles (snd (fetchMain docs w)) = docsFiles w)
  /\ (docsDirExists w = true \/ docsMkdirFails w = false ->
      exists successCount failCount,
        fst (fetchMain docs w) = Returned (successCount, failCount)
        /\ successCount + failCount = List.length docs
        /\ forall file content,
            In (file, content) (docsFiles (snd (fetchMain docs w))) ->
            In (file, content) (docsFiles w)
            \/ wholePage docs (fetchClock w) file content).
Proof.
  split; [| split].
  - destruct (fetchDoc_run path name w) as (success & w' & E & Hsame & Hfiles).
    exists success, w'. split; [exact E |]. split; [exact Hsame |].
    destruct success.
    + destruct Hfiles as (page & Hst & Hset).
      split; [split; [intros _; now exists page | reflexivity] |].
      split; [| discriminate].
      intros page' Hst'. destruct Hst as (Hp & _), Hst' as (Hp' & _).
      rewrite Hp in Hp'. inversion Hp'; subst page'. exact Hset.
    + destruct Hfiles as [Hsame' Hnone].
      split; [split; [discriminate | intros (page & H); now apply Hnone in H] |].
      split; [| intros _; exact Hsame'].
      intros page H. now apply Hnone in H.
  - intros Hd Hm. unfold fetchMain, fetchBind, consoleLogLine, docsDirPresent, makeDocsDir.
    cbn [docsDirExists docsMkdirFails]. rewrite Hd, Hm. cbn. now split.
  - intros Hready.
    assert (Hmain : exists s f final,
               fetchMain docs w = (Returned (s, f), final)
               /\ s + f = List.length docs
               /\ forall file content,
                   In (file, content) (docsFiles final) ->
                   In (file, content) (docsFiles w)
                   \/ wholePage docs (fetchClock w) file content).
    { unfold fetchMain. unfold fetchBind at 1.
      destruct (consoleLogLine_run ("Fetching Official IWSDK Docs" ++ newline) w)
        as (w1 & -> & S1 & F1).
      unfold fetchBind at 1. unfold docsDirPresent at 1.
      unfold fetchBind at 1.
      assert (Hdir : exists w2,
                 (if negb (docsDirExists w1)
                  then fetchBind makeDocsDir
                         (fun _ => fetchBind cacheDocsDir
                                     (fun dir => consoleLogLine ("Created " ++ dir ++ newline)))
                  else fetchRet tt) w1 = (Returned tt, w2)
                 /\ fetchClock w2 = fetchClock w /\ docsFiles w2 = docsFiles w).
      { destruct S1 as (_ & _ & _ & E4 & E5 & E6).
        destruct (docsDirExists w1) eqn:D1; cbn [negb].
        - exists w1. split; [reflexivity |]. now split.
        - unfold fetchBind, makeDocsDir, cacheDocsDir, consoleLogLine.
          assert (M : docsMkdirFails w1 = false).
          { rewrite E5. destruct Hready as [H|H]; [congruence | exact H]. }
          rewrite M. eexists. split; [reflexivity |]. cbn. now split. }
      destruct Hdir as (w2 & -> & C2 & F2).
      unfold fetchBind at 1.
      destruct (fetchAll_run docs 0 0 w2) as (s & f & w3 & -> & Hsum & S3 & Hf3).
      assert (Hend : forall w4 : FetchWorld,
                 docsFiles w4 = docsFiles w3 ->
                 exists w5,
                   (if 0 <? snd (s, f)
                    then fetchBind
                           (consoleLogLine ("WARNING: " ++ decimal (snd (s, f))
                                            ++ " documents could not be fetched"))
                           (fun _ =>
                              consoleLogLine
                                ("They may not exist yet or the URL structure may have changed."
                                 ++ newline))
                    else fetchRet tt) w4 = (Returned tt, w5)
                   /\ docsFiles w5 = docsFiles w3).
      { intros w4 H4. destruct (0 <? snd (s, f)).
        - unfold fetchBind, consoleLogLine. eexists. split; [reflexivity |]. exact H4.
        - exists w4. now split. }
      unfold fetchBind at 1.
      match goal with
      | |- context [consoleLogLine ?line w3] =>
          destruct (consoleLogLine_run line w3) as (w4 & -> & S4 & F4)
      end.
      unfold fetchBind at 1.
      destruct (Hend w4 F4) as (w5 & -> & F5).
      unfold fetchBind, consoleLogLine, fetchRet.
      exists s, f. eexists. split; [reflexivity |]. split; [lia |].
      cbn [docsFiles]. intros file content Hin. rewrite F5 in Hin.
      destruct (Hf3 file content Hin) as [H|H].
      + left. now rewrite <- F2.
      + right. now rewrite <- C2. }
    destruct Hmain as (s & f & final & -> & Hsum & Hfiles).
    exists s, f. now repeat split.
Qed.

(** A page of sixty accented letters has 120 bytes and sixty characters for
    [length]: it is refused and nothing is stored. *)
Example fetchDoc_counts_code_units :
  let w := {| execAsync := fun _ => Returned {| stdout := repeatText 60 eAcute;
                                                 stderr := EmptyString |};
              writeFileFails := fun _ => false;
              docsDirPath := "cache/docs";
              docsDirExists := true;
              docsMkdirFails := false;
              docsFiles := [];
              fetchClock := "2025-11-15T21:18:25.883Z";
              consoleLog := [] |} in
  fst (fetchDoc "iwsdk-overview.md" "overview.md" w) = Returned false
  /\ docsFiles (snd (fetchDoc "iwsdk-overview.md" "overview.md" w)) = []
  /\ consoleLog (snd (fetchDoc "iwsdk-overview.md" "overview.md" w))
     = [ "  Fetching overview.md...";
         "  overview.md returned empty or invalid content" ].
Proof.
  vm_compute. repeat split.
Qed.

(** A page of a hundred accented letters is stored, and the message gives
    its length in characters. *)
Example fetchDoc_stores_accented_page :
  let w := {| execAsync := fun _ => Returned {| stdout := repeatText 100 eAcute;
                                                 stderr := EmptyString |};
              writeFileFails := fun _ => false;
              docsDirPath := "cache/docs";
              docsDirExists := true;
              docsMkdirFails := false;
              docsFiles := [];
              fetchClock := "2025-11-15T21:18:25.883Z";
              consoleLog := [] |} in
  fst (fetchDoc "iwsdk-overview.md" "overview.md" w) = Returned true
  /\ docsFiles (snd (fetchDoc "iwsdk-overview.md" "overview.md" w))
     = [ ("overview.md",
          (docHeader (docUrl "iwsdk-overview.md") "2025-11-15T21:18:25.883Z"
           ++ repeatText 100 eAcute)%string) ]
  /\ consoleLog (snd (fetchDoc "iwsdk-overview.md" "overview.md" w))
     = [ "  Fetching overview.md..."; "  overview.md (100 bytes)" ].
Proof.
  vm_compute. repeat split.
Qed.

(** ** Loading the cache once *)

Lemma loadEach_loaded (disks : list (Outcome EnhancedCacheData))
    (loaded : EnhancedCacheData) (result : Outcome EnhancedCacheData) :
  In result (loadEach disks (Some loaded)) -> result = Returned loaded.
Proof.
  induction disks as [|d r IH]; intros H; [destruct H |].
  cbn [loadEach loadEnhancedCache] in H. destruct H as [<-|H]; [reflexivity | auto].
Qed.

(** X23. The cache files are read until a load succeeds and never
    again: whatever the disk holds later, every successful call of one
    process returns the data of the first successful load; a failed load is
    not remembered, and the calls before the first success are exactly the
    failed ones. *)
Theorem cache_is_loaded_once (disks : list (Outcome EnhancedCacheData)) :
  (forall a b,
      In (Returned a) (loadEach disks None) ->
      In (Returned b) (loadEach disks None) -> a = b)
  /\ (forall failed data later,
         disks = failed ++ Returned data :: later ->
         (forall disk, In disk failed -> exists e, disk = Thrown e) ->
         loadEach disks None
         = failed ++ Returned data :: map (fun _ => Returned data) later)
  /\ ((forall disk, In disk disks -> exists e, disk = Thrown e) ->
      loadEach disks None = disks)
  /\ List.length (loadEach disks None) = List.length disks.
Proof.
  assert (Hall : forall l loaded,
             loadEach l (Some loaded) = map (fun _ => Returned loaded) l).
  { induction l as [|d r IH]; intros loaded; [reflexivity |].
    cbn [loadEach loadEnhancedCache map]. now rewrite IH. }
  assert (Hfirst : forall failed data later,
             (forall disk, In disk failed -> exists e, disk = Thrown e) ->
             loadEach (failed ++ Returned data :: later) None
             = failed ++ Returned data :: map (fun _ => Returned data) later).
  { induction failed as [|d r IH]; intros data later Hfailed.
    - cbn [app loadEach loadEnhancedCache]. now rewrite Hall.
    - destruct (Hfailed d (or_introl eq_refl)) as (e & ->).
      cbn [app loadEach loadEnhancedCache]. rewrite IH; [reflexivity |].
      intros disk Hd. apply Hfailed. now right. }
  assert (Hnone : forall l,
             (forall disk, In disk l -> exists e, disk = Thrown e) ->
             loadEach l None = l).
  { induction l as [|d r IH]; intros Hfailed; [reflexivity |].
    destruct (Hfailed d (or_introl eq_refl)) as (e & ->).
    cbn [loadEach loadEnhancedCache]. rewrite IH; [reflexivity |].
    intros disk Hd. apply Hfailed. now right. }
  split; [| split; [| split]].
  - induction disks as [|d r IH]; intros a b Ha Hb; [destruct Ha |].
    destruct d as [data|e].
    + cbn [loadEach loadEnhancedCache] in Ha, Hb.
      assert (Ha' : Returned a = Returned data).
      { destruct Ha as [Ha|Ha]; [now symmetry | now apply (loadEach_loaded r)]. }
      assert (Hb' : Returned b = Returned data).
      { destruct Hb as [Hb|Hb]; [now symmetry | now apply (loadEach_loaded r)]. }
      congruence.
    + cbn [loadEach loadEnhancedCache] in Ha, Hb.
      destruct Ha as [Ha|Ha]; [discriminate Ha |].
      destruct Hb as [Hb|Hb]; [discriminate Hb |]. now apply IH.
  - intros failed data later -> Hfailed. now apply Hfirst.
  - apply Hnone.
  - generalize (@None EnhancedCacheData) as memo.
    induction disks as [|d r IH]; intros memo; [reflexivity |].
    cbn [loadEach]. destruct (loadEnhancedCache d memo) as [result memo'].
    cbn [List.length]. now rewrite IH.
Qed.
